(** * Arbitration checker: scraper, persistence gateway and coordinator

    A shallow embedding of
      - [scraper/arbitr_scraper.py]   (class ArbitrScraper),
      - [database/db_manager.py]      (class DBManager),
      - [core/application_logic.py]   (class ApplicationLogic),
      - [gui/main_window.py]          (class MainWindow: the slots and
                                       the results table),
      - [utils/logger.py]             (setup_logging),
      - [main.py]                     (the wiring of the buttons),
    together with the parts of the Python runtime, of Selenium, of
    psycopg2 and of PostgreSQL that these functions rely on (string
    predicates, strptime and strftime, exceptions and the [except]
    clauses that catch them, the csv and json modules, the adaptation of
    query parameters, LIKE).  The browser, the web site, the database
    server and the file system are the environment: what they answer is
    an explicit argument of the functions that talk to them. *)

From Stdlib Require Import List Bool Arith NArith ZArith Lia String Ascii.
Import ListNotations.

(* ===================================================================== *)
(** ** Python strings *)
(* ===================================================================== *)

Module PyStr.

(** A Python [str] is a sequence of Unicode code points. *)
Definition char := N.
Definition str := list char.

(** ASCII literals. *)
Definition py (s : string) : str :=
  List.map N_of_ascii (list_ascii_of_string s).

Definition str_eqb (a b : str) : bool :=
  if list_eq_dec N.eq_dec a b then true else false.

Definition in_range (c : char) (r : N * N) : bool :=
  ((fst r <=? c) && (c <=? snd r))%N.

Definition in_ranges (tbl : list (N * N)) (c : char) : bool :=
  existsb (in_range c) tbl.

(** Code points of general category Nd (Unicode 14.0), as inclusive
    ranges.  Every range starts at a digit zero and digits follow in
    order, so the value of a digit is its offset modulo ten.  These are
    the characters [str.isdecimal] accepts and the regular expression
    class [\d] matches on [str] patterns. *)
Definition decimal_ranges : list (N * N) :=
  [(48, 57); (1632, 1641); (1776, 1785); (1984, 1993); (2406, 2415);
   (2534, 2543); (2662, 2671); (2790, 2799); (2918, 2927); (3046, 3055);
   (3174, 3183); (3302, 3311); (3430, 3439); (3558, 3567); (3664, 3673);
   (3792, 3801); (3872, 3881); (4160, 4169); (4240, 4249); (6112, 6121);
   (6160, 6169); (6470, 6479); (6608, 6617); (6784, 6793); (6800, 6809);
   (6992, 7001); (7088, 7097); (7232, 7241); (7248, 7257); (42528, 42537);
   (43216, 43225); (43264, 43273); (43472, 43481); (43504, 43513);
   (43600, 43609); (44016, 44025); (65296, 65305); (66720, 66729);
   (68912, 68921); (69734, 69743); (69872, 69881); (69942, 69951);
   (70096, 70105); (70384, 70393); (70736, 70745); (70864, 70873);
   (71248, 71257); (71360, 71369); (71472, 71481); (71904, 71913);
   (72016, 72025); (72784, 72793); (73040, 73049); (73120, 73129);
   (92768, 92777); (92864, 92873); (93008, 93017); (120782, 120831);
   (123200, 123209); (123632, 123641); (125264, 125273);
   (130032, 130041)]%N.

(** Code points with Numeric_Type=Digit that are not decimal:
    superscripts, subscripts, circled digits and the like. *)
Definition other_digit_ranges : list (N * N) :=
  [(178, 179); (185, 185); (4969, 4977); (6618, 6618); (8304, 8304);
   (8308, 8313); (8320, 8329); (9312, 9320); (9332, 9340); (9352, 9360);
   (9450, 9450); (9461, 9469); (9471, 9471); (10102, 10110);
   (10112, 10120); (10122, 10130); (68160, 68163); (69216, 69224);
   (69714, 69722); (127232, 127242)]%N.

(** Whitespace in the sense of [str.isspace], which is what
    [str.strip()] removes. *)
Definition space_ranges : list (N * N) :=
  [(9, 13); (28, 32); (133, 133); (160, 160); (5760, 5760); (8192, 8202);
   (8232, 8233); (8239, 8239); (8287, 8287); (12288, 12288)]%N.

Definition isdecimal_char (c : char) : bool := in_ranges decimal_ranges c.

Definition isdigit_char (c : char) : bool :=
  isdecimal_char c || in_ranges other_digit_ranges c.

Definition isspace_char (c : char) : bool := in_ranges space_ranges c.

(** [int(c)] for a decimal character. *)
Definition decimal_value (c : char) : option N :=
  match find (in_range c) decimal_ranges with
  | Some r => Some ((c - fst r) mod 10)%N
  | None => None
  end.

(** [s.isdigit()]: every character is a digit and there is at least one. *)
Definition isdigit (s : str) : bool :=
  match s with
  | [] => false
  | _ => forallb isdigit_char s
  end.

(** [len(s)] *)
Definition len (s : str) : nat := List.length s.

(** Truth value of a string: non-empty. *)
Definition truthy (s : str) : bool :=
  match s with [] => false | _ => true end.

Fixpoint lstrip (s : str) : str :=
  match s with
  | c :: rest => if isspace_char c then lstrip rest else s
  | [] => []
  end.

Definition rstrip (s : str) : str := rev (lstrip (rev s)).

(** [s.strip()] *)
Definition strip (s : str) : str := rstrip (lstrip s).

(** ASCII decimal rendering of a number, zero padded to [width]. *)
Definition digit_char (d : N) : char := (48 + d)%N.

Fixpoint zero_pad (width : nat) (n : N) : str :=
  match width with
  | O => []
  | S w => zero_pad w (n / 10) ++ [digit_char (n mod 10)]
  end.

(** ASCII decimal rendering without padding, as [str(n)]; [fuel]
    bounds the number of digits. *)
Fixpoint decimal_digits (fuel : nat) (n : N) : str :=
  match fuel with
  | O => []
  | S k =>
      if (n <? 10)%N then [digit_char n]
      else decimal_digits k (n / 10) ++ [digit_char (n mod 10)]
  end.

Definition decimal (n : N) : str :=
  decimal_digits (S (N.to_nat (N.log2 n))) n.

End PyStr.
Import PyStr.

(* ===================================================================== *)
(** ** Calendar dates: strptime, strftime, ISO text *)
(* ===================================================================== *)

Module Calendar.

Record date := mkDate { year : N; month : N; day : N }.

Definition is_leap (y : N) : bool :=
  (((y mod 4 =? 0) && negb (y mod 100 =? 0)) || (y mod 400 =? 0))%N.

Definition days_in_month (y m : N) : N :=
  match m with
  | 2 => if is_leap y then 29 else 28
  | 4 | 6 | 9 | 11 => 30
  | _ => 31
  end%N.

(** The checks of the [datetime] constructor: MINYEAR = 1,
    MAXYEAR = 9999, month in 1..12, day within the month. *)
Definition valid_date (d : date) : bool :=
  ((1 <=? year d) && (year d <=? 9999) &&
   (1 <=? month d) && (month d <=? 12) &&
   (1 <=? day d) && (day d <=? days_in_month (year d) (month d)))%N.

(** Order of dates, as SQL compares DATE values. *)
Definition date_leb (a b : date) : bool :=
  ((year a <? year b) ||
   ((year a =? year b) &&
    ((month a <? month b) ||
     ((month a =? month b) && (day a <=? day b)))))%N.

Definition dot : char := 46%N.
Definition hyphen : char := 45%N.
Definition space : char := 32%N.

(** ASCII digit in [lo..hi], as a bracket class such as [[1-9]]. *)
Definition ascii_digit_in (lo hi : N) (c : char) : option N :=
  if ((48 + lo <=? c) && (c <=? 48 + hi))%N then Some (c - 48)%N else None.

(** [%d] of [_strptime]:  3[0-1] | [1-2]\d | 0[1-9] | [1-9] | " "[1-9],
    tried in this order; the directive is followed by a literal dot. *)
Definition parse_day (s : str) : option (N * str) :=
  let two :=
    match s with
    | c1 :: c2 :: rest =>
        if (c1 =? 51)%N then
          match ascii_digit_in 0 1 c2 with
          | Some v => Some ((30 + v)%N, rest)
          | None => None
          end
        else match ascii_digit_in 1 2 c1 with
             | Some t =>
                 match decimal_value c2 with
                 | Some v => Some ((10 * t + v)%N, rest)
                 | None => None
                 end
             | None =>
                 if ((c1 =? 48) || (c1 =? space))%N then
                   match ascii_digit_in 1 9 c2 with
                   | Some v => Some (v, rest)
                   | None => None
                   end
                 else None
             end
    | _ => None
    end in
  let one :=
    match s with
    | c1 :: rest =>
        match ascii_digit_in 1 9 c1 with
        | Some v => Some (v, rest)
        | None => None
        end
    | [] => None
    end in
  match two with
  | Some (v, c :: rest) => if (c =? dot)%N then Some (v, rest) else
      match one with
      | Some (v1, c' :: rest') =>
          if (c' =? dot)%N then Some (v1, rest') else None
      | _ => None
      end
  | _ =>
      match one with
      | Some (v1, c' :: rest') =>
          if (c' =? dot)%N then Some (v1, rest') else None
      | _ => None
      end
  end.

(** [%m]:  1[0-2] | 0[1-9] | [1-9], followed by a literal dot. *)
Definition parse_month (s : str) : option (N * str) :=
  let two :=
    match s with
    | c1 :: c2 :: rest =>
        if (c1 =? 49)%N then
          match ascii_digit_in 0 2 c2 with
          | Some v => Some ((10 + v)%N, rest)
          | None => None
          end
        else if (c1 =? 48)%N then
          match ascii_digit_in 1 9 c2 with
          | Some v => Some (v, rest)
          | None => None
          end
        else None
    | _ => None
    end in
  let one :=
    match s with
    | c1 :: rest =>
        match ascii_digit_in 1 9 c1 with
        | Some v => Some (v, rest)
        | None => None
        end
    | [] => None
    end in
  match two with
  | Some (v, c :: rest) => if (c =? dot)%N then Some (v, rest) else
      match one with
      | Some (v1, c' :: rest') =>
          if (c' =? dot)%N then Some (v1, rest') else None
      | _ => None
      end
  | _ =>
      match one with
      | Some (v1, c' :: rest') =>
          if (c' =? dot)%N then Some (v1, rest') else None
      | _ => None
      end
  end.

(** [%Y]: exactly four [\d]; anything left over is "unconverted data
    remains". *)
Definition parse_year (s : str) : option N :=
  match s with
  | [a; b; c; d] =>
      match decimal_value a, decimal_value b,
            decimal_value c, decimal_value d with
      | Some va, Some vb, Some vc, Some vd =>
          Some (1000 * va + 100 * vb + 10 * vc + vd)%N
      | _, _, _, _ => None
      end
  | _ => None
  end.

(** [datetime.datetime.strptime(s, '%d.%m.%Y')]; [None] is ValueError. *)
Definition strptime_dmY (s : str) : option date :=
  match parse_day s with
  | Some (d, s1) =>
      match parse_month s1 with
      | Some (m, s2) =>
          match parse_year s2 with
          | Some y =>
              let dt := mkDate y m d in
              if valid_date dt then Some dt else None
          | None => None
          end
      | None => None
      end
  | None => None
  end.

(** [date.isoformat()]: YYYY-MM-DD with the year padded to four
    digits. *)
Definition isoformat (d : date) : str :=
  zero_pad 4 (year d) ++ [hyphen] ++ zero_pad 2 (month d)
    ++ [hyphen] ++ zero_pad 2 (day d).

(** [.strftime('%Y-%m-%d')], which Python hands to the C library; on
    Linux (glibc) [%Y] is the year as a decimal number without padding,
    so a year below 1000 comes out with fewer than four digits
    ('999-01-01'), unlike [isoformat].  [%m] and [%d] are padded to two
    digits. *)
Definition strftime_Ymd (d : date) : str :=
  decimal (year d) ++ [hyphen] ++ zero_pad 2 (month d)
    ++ [hyphen] ++ zero_pad 2 (day d).

(** Reading ISO text: exactly YYYY-MM-DD in ASCII digits, a calendar
    date.  It is the inverse of [isoformat], and it is how the sample
    server below reads the text of a date; a real server takes more
    spellings than this one. *)
Definition date_in (s : str) : option date :=
  match s with
  | [y1; y2; y3; y4; h1; m1; m2; h2; d1; d2] =>
      match ascii_digit_in 0 9 y1, ascii_digit_in 0 9 y2,
            ascii_digit_in 0 9 y3, ascii_digit_in 0 9 y4,
            ascii_digit_in 0 9 m1, ascii_digit_in 0 9 m2,
            ascii_digit_in 0 9 d1, ascii_digit_in 0 9 d2 with
      | Some a, Some b, Some c, Some d, Some e, Some f, Some g, Some h =>
          if ((h1 =? hyphen) && (h2 =? hyphen))%N then
            let dt := mkDate (1000 * a + 100 * b + 10 * c + d)%N
                             (10 * e + f)%N (10 * g + h)%N in
            if valid_date dt then Some dt else None
          else None
      | _, _, _, _, _, _, _, _ => None
      end
  | _ => None
  end.

End Calendar.
Import Calendar.

(* ===================================================================== *)
(** ** Exceptions of the Python side *)
(* ===================================================================== *)

Module PyExn.

(** The classes below [psycopg2.Error]. *)
Inductive pg_error :=
| InterfaceError
| DataError
| OperationalError
| IntegrityError
| InternalError
| ProgrammingError
| NotSupportedError.

(** The exceptions the functions below can meet, by their class: an
    instance of [psycopg2.Error], or one of the built-in classes. *)
Inductive exception :=
| Psycopg2 (k : pg_error)
| ValueError
| UnicodeEncodeError
| OSError
| NameError.

(** A call returns a value or raises. *)
Inductive outcome (A : Type) : Type :=
| Returns (a : A)
| Raises (x : exception).

Arguments Returns {A} a.
Arguments Raises {A} x.

End PyExn.
Import PyExn.

(* ===================================================================== *)
(** ** Case records and logging *)
(* ===================================================================== *)

(** The dictionary [{'case_number': .., 'case_date': .., 'inn': ..}] that
    the scraper builds and that the database readers return.  [case_date]
    is ISO text, or [None]. *)
Record case := mkCase {
  case_number : str;
  case_date : option str;
  inn : str
}.

Inductive level := INFO | WARNING | ERROR.

(* ===================================================================== *)
(** ** scraper/arbitr_scraper.py *)
(* ===================================================================== *)

Module Scraper.

(** *** The environment: browser sessions and the result page *)

(** Sessions are numbered in the order [webdriver.Chrome] starts them.
    A session is live from its start until [quit()]. *)
Record browser := mkBrowser {
  next_session : nat;
  live_sessions : list nat
}.

Definition fresh_browser : browser := mkBrowser 0 [].

Definition is_live (w : browser) (sid : nat) : bool :=
  existsb (Nat.eqb sid) (live_sessions w).

Definition start_session (w : browser) : nat * browser :=
  (next_session w,
   mkBrowser (S (next_session w)) (next_session w :: live_sessions w)).

Definition quit_session (w : browser) (sid : nat) : browser :=
  mkBrowser (next_session w)
            (filter (fun s => negb (Nat.eqb sid s)) (live_sessions w)).

(** One [<tr>] of the result table, as the DOM queries of the loop body
    see it: the number of [<td>] cells, and the text of the date element
    and of the case link inside the first cell ([None] when
    [find_element] raises NoSuchElementException). *)
Record Row := mkRow {
  cells : nat;
  date_text : option str;
  link_text : option str
}.

(** The steps of the page interaction, in program order. *)
Inductive stage :=
| StNavigate      (* driver.get(base_url) *)
| StWaitInput     (* WebDriverWait(driver, 10): the textarea *)
| StTypeInn       (* clear(), send_keys(inn) *)
| StWaitButton    (* WebDriverWait(driver, 10): the button *)
| StClick         (* execute_script click *)
| StWaitResults   (* WebDriverWait(driver, 20): id b-cases *)
| StFindRows.     (* driver.find_elements(rows) *)

(** What a step can raise, by the [except] clause that catches it. *)
Inductive fault :=
| TimeoutException
| NoSuchElementException
| WebDriverException
| OtherException.

(** What the site does during one call: some step raises, or every
    step succeeds and the page lists [rows]. *)
Inductive site_response :=
| SiteFault (st : stage) (f : fault)
| SiteRows (rows : list Row).

Record env := mkEnv {
  chrome_starts : bool;      (* does webdriver.Chrome(options) succeed *)
  site : site_response
}.

Inductive log_msg :=
| LogDriverInitialised
| LogDriverInitFailed
| LogNavigated
| LogInnEntered (inn : str)
| LogSearchClicked
| LogResultsLoaded
| LogExtracted (cn : str) (cd : str) (inn : str)
| LogDateUnparsable (date_str : str) (cn : str)
| LogRowElementsMissing (row_no : nat)
| LogRowError (row_no : nat)
| LogTimeout
| LogElementNotFound
| LogWebDriverError
| LogUnexpectedError
| LogDriverClosed.

Inductive event :=
| Acquire (sid : nat)              (* webdriver.Chrome returned a session *)
| AcquireFailed
| Get (sid : nat) (answered : bool)  (* driver.get on session sid *)
| Quit (sid : nat)                 (* driver.quit() *)
| Log (lvl : level) (m : log_msg).

(** *** The object *)

(** [self.driver]: [None], or the session it was last set to. *)
Record ArbitrScraper := mkScraper { driver : option nat }.

Definition new_scraper : ArbitrScraper := mkScraper None.

(** [_initialize_webdriver] *)
Definition _initialize_webdriver (e : env) (w : browser)
  : ArbitrScraper * browser * list event :=
  if chrome_starts e then
    let '(sid, w') := start_session w in
    (mkScraper (Some sid), w', [Acquire sid; Log INFO LogDriverInitialised])
  else
    (mkScraper None, w, [AcquireFailed; Log ERROR LogDriverInitFailed]).

(** *** The row loop *)

(** Local variables of [scrape_arbitr_cases] that are assigned inside
    the [if len(cells) >= 4] block and read after it.  They are
    function locals: a value assigned while processing one row is still
    there when the next row is processed.  [None] is "not yet bound";
    reading it raises UnboundLocalError. *)
Record locals := mkLocals {
  v_case_date_str : option str;
  v_case_number : option str
}.

Record loop_state := mkLoop {
  cases_data : list case;
  vars : locals;
  trace : list event
}.

Inductive row_exn := RowNoSuchElement | RowOtherException.

(** Lines 154-166: the cell extraction.  Returns the locals after it,
    and the exception if one was raised. *)
Definition extract_cells (r : Row) (l : locals) : locals * option row_exn :=
  if 4 <=? cells r then
    match date_text r with
    | None => (l, Some RowNoSuchElement)
    | Some t =>
        let l1 := mkLocals (Some (strip t)) (v_case_number l) in
        match link_text r with
        | None => (l1, Some RowNoSuchElement)
        | Some n => (mkLocals (Some (strip t)) (Some (strip n)), None)
        end
    end
  else (l, None).

(** Lines 168-181: date parsing and the guarded append.  Returns the new
    list, the log lines, and the exception if one was raised. *)
Definition parse_and_append (inn : str) (l : locals) (data : list case)
  : list case * list event * option row_exn :=
  match v_case_date_str l with
  | None => (data, [], Some RowOtherException)
  | Some ds =>
      match strptime_dmY ds with
      | Some d =>
          let cd := strftime_Ymd d in
          match v_case_number l with
          | None => (data, [], Some RowOtherException)
          | Some cn =>
              if truthy cn && truthy cd then
                (data ++ [mkCase cn (Some cd) inn],
                 [Log INFO (LogExtracted cn cd inn)], None)
              else (data, [], None)
          end
      | None =>
          (* except ValueError: case_date = None, then the warning *)
          match v_case_number l with
          | None => (data, [], Some RowOtherException)
          | Some cn =>
              (* if case_number and case_date: case_date is None *)
              (data, [Log WARNING (LogDateUnparsable ds cn)], None)
          end
      end
  end.

Definition handler_log (i : nat) (x : row_exn) : event :=
  match x with
  | RowNoSuchElement => Log WARNING (LogRowElementsMissing (S i))
  | RowOtherException => Log WARNING (LogRowError (S i))
  end.

(** The body of the [for] loop for row number [i] (from 0). *)
Definition process_row (inn : str) (i : nat) (r : Row) (st : loop_state)
  : loop_state :=
  match extract_cells r (vars st) with
  | (l1, Some x) =>
      mkLoop (cases_data st) l1 (trace st ++ [handler_log i x])
  | (l1, None) =>
      match parse_and_append inn l1 (cases_data st) with
      | (data, logs, Some x) =>
          mkLoop data l1 (trace st ++ logs ++ [handler_log i x])
      | (data, logs, None) => mkLoop data l1 (trace st ++ logs)
      end
  end.

(** [for i, row in enumerate(result_rows)] with its [break]. *)
Fixpoint scrape_rows (inn : str) (max_results : Z) (i : nat)
         (rows : list Row) (st : loop_state) : loop_state :=
  match rows with
  | [] => st
  | r :: rest =>
      if (Z.of_nat (List.length (cases_data st)) >=? max_results)%Z then st
      else scrape_rows inn max_results (S i) rest (process_row inn i r st)
  end.

(** *** The call *)

(** Log lines written before step [st] is reached. *)
Definition logs_before (inn : str) (st : stage) : list event :=
  match st with
  | StNavigate => []
  | StWaitInput | StTypeInn => [Log INFO LogNavigated]
  | StWaitButton | StClick =>
      [Log INFO LogNavigated; Log INFO (LogInnEntered inn)]
  | StWaitResults =>
      [Log INFO LogNavigated; Log INFO (LogInnEntered inn);
       Log INFO LogSearchClicked]
  | StFindRows =>
      [Log INFO LogNavigated; Log INFO (LogInnEntered inn);
       Log INFO LogSearchClicked; Log INFO LogResultsLoaded]
  end.

(** The outer [except] clauses, in their order. *)
Definition outer_handler (f : fault) : event :=
  match f with
  | TimeoutException => Log ERROR LogTimeout
  | NoSuchElementException => Log ERROR LogElementNotFound
  | WebDriverException => Log ERROR LogWebDriverError
  | OtherException => Log ERROR LogUnexpectedError
  end.

(** What a command raises on a session that has been quit.  The class
    depends on the Selenium release (an error of the HTTP client, which
    no longer finds the driver process, or a WebDriverException); each
    of them is caught by one of the outer [except] clauses. *)
Definition closed_session_fault : fault := OtherException.

(** What the session answers: a session that has been quit answers no
    command, the first one ([driver.get]) already raises. *)
Definition response (w : browser) (sid : nat) (e : env) : site_response :=
  if is_live w sid then site e else SiteFault StNavigate closed_session_fault.

Definition get_event (sid : nat) (r : site_response) : event :=
  match r with
  | SiteFault StNavigate _ => Get sid false
  | _ => Get sid true
  end.

(** Lines 102-201, with [self.driver] bound to [sid]. *)
Definition scrape_with_driver (sid : nat) (w : browser) (e : env)
           (inn : str) (max_results : Z)
  : list case * browser * list event :=
  let r := response w sid e in
  let '(data, evs) :=
    match r with
    | SiteFault st f => ([], logs_before inn st ++ [outer_handler f])
    | SiteRows rows =>
        let st :=
          scrape_rows inn max_results 0 rows
                      (mkLoop [] (mkLocals None None)
                              (logs_before inn StFindRows)) in
        (cases_data st, trace st)
    end in
  (data, quit_session w sid,
   [get_event sid r] ++ evs ++ [Quit sid; Log INFO LogDriverClosed]).

(** [scrape_arbitr_cases(self, inn, max_results=10)] *)
Definition scrape_arbitr_cases (self : ArbitrScraper) (w : browser)
           (e : env) (inn : str) (max_results : Z)
  : list case * ArbitrScraper * browser * list event :=
  match driver self with
  | Some sid =>
      let '(data, w', evs) := scrape_with_driver sid w e inn max_results in
      (data, self, w', evs)
  | None =>
      let '(self1, w1, evs0) := _initialize_webdriver e w in
      match driver self1 with
      | None => ([], self1, w1, evs0)
      | Some sid =>
          let '(data, w', evs) :=
            scrape_with_driver sid w1 e inn max_results in
          (data, self1, w', evs0 ++ evs)
      end
  end.

Definition default_max_results : Z := 10.

End Scraper.
Import Scraper.

(* ===================================================================== *)
(** ** PostgreSQL pattern matching *)
(* ===================================================================== *)

Module Sql.

Definition percent : char := 37%N.
Definition underscore : char := 95%N.
Definition backslash : char := 92%N.

(** Does [f] hold of the text or of one of its suffixes. *)
Fixpoint any_suffix (f : str -> bool) (s : str) : bool :=
  f s || match s with
         | [] => false
         | _ :: s' => any_suffix f s'
         end.

(** [s LIKE p]: [%] stands for any run of characters, [_] for any one
    character, and a backslash makes the next pattern character
    literal.  (A pattern that ends in a lone backslash is an error on
    the server; it matches nothing here.) *)
Fixpoint like_match (p : str) (s : str) : bool :=
  match p with
  | [] => match s with [] => true | _ :: _ => false end
  | c :: p' =>
      if (c =? percent)%N then any_suffix (like_match p') s
      else if (c =? underscore)%N then
        match s with
        | _ :: s' => like_match p' s'
        | [] => false
        end
      else if (c =? backslash)%N then
        match p' with
        | e :: p'' =>
            match s with
            | x :: s' => (x =? e)%N && like_match p'' s'
            | [] => false
            end
        | [] => false
        end
      else
        match s with
        | x :: s' => (x =? c)%N && like_match p' s'
        | [] => false
        end
  end.

(** [s ILIKE p]: LIKE on the text and the pattern after both went
    through [lower()].  What [lower()] does to a character depends on
    the locale of the database; [lc] is that function. *)
Definition ilike (lc : char -> char) (s p : str) : bool :=
  like_match (List.map lc p) (List.map lc s).

(** The parameter [f"%{flt}%"]. *)
Definition contains_pattern (flt : str) : str :=
  percent :: flt ++ [percent].

End Sql.
Import Sql.

(* ===================================================================== *)
(** ** database/db_manager.py *)
(* ===================================================================== *)

Module DB.

(** A row of [arbitration_cases], as the driver hands it to a reader:
    [case_number] carries the unique constraint, [case_date] is a DATE
    and may be NULL. *)
Record db_row := mkDbRow {
  r_case_number : str;
  r_case_date : option date;
  r_inn : str
}.

(** The table, in the order a sequential scan returns its rows. *)
Definition table := list db_row.

Definition is_surrogate (c : char) : bool :=
  ((55296 <=? c) && (c <=? 57343))%N.

(** Text as a text column holds it: without U+0000 and without
    surrogate code points. *)
Definition server_text (s : str) : bool :=
  forallb (fun c => negb (c =? 0)%N && negb (is_surrogate c)) s.

(** The rows are rows as the server holds them and as the driver can
    hand them over: the text is text of the server and the dates are
    values of [datetime.date], years 1 to 9999.  (A date of the server
    outside that range is for the type casters of the driver to deal
    with; an exception of theirs is a [QueryFail] below.) *)
Definition well_formed (t : table) : bool :=
  forallb (fun r => server_text (r_case_number r) && server_text (r_inn r)
                    && match r_case_date r with
                       | Some d => valid_date d
                       | None => true
                       end) t.

(** The manager, by the database and the connection it is configured
    for.  The functions below depend on three things that the server
    and the connection decide, not the program:
    - [db_lower]: [lower()] in the locale of the database, which is
      what ILIKE compares;
    - [db_encodes]: whether the client encoding of the connection has
      the character;
    - [db_date_in]: the input conversion of the DATE type, [None] when
      the server rejects the text. *)
Record DBManager := mkDBManager {
  db_lower : char -> char;
  db_encodes : char -> bool;
  db_date_in : str -> option date
}.

(** What happens to one call, besides what the data decides:
    - [ConnectFail x]: [psycopg2.connect] raises [x];
    - [QueryFail x]: with the connection there, [x] is raised inside
      the [try] block, by [execute], [commit] or [fetchall] (a
      [psycopg2.Error] of the server, or the exception of a type
      caster that cannot build the Python value of a column), or by
      [open] on the SQL script. *)
Inductive db_fault :=
| NoFault
| ConnectFail (x : exception)
| QueryFail (x : exception).

(** *** Query parameters *)

(** What the driver raises when it adapts a [str] parameter, before
    anything is sent: the text is encoded in the client encoding
    (UnicodeEncodeError; no encoding has the surrogate code points),
    and text that holds U+0000 is refused (ValueError). *)
Definition adapt_error (self : DBManager) (s : str) : option exception :=
  if existsb (fun c => is_surrogate c || negb (db_encodes self c)) s
  then Some UnicodeEncodeError
  else if existsb (N.eqb 0) s then Some ValueError
  else None.

(** The parameters are adapted in their order. *)
Fixpoint params_error (self : DBManager) (params : list str)
  : option exception :=
  match params with
  | [] => None
  | p :: rest =>
      match adapt_error self p with
      | Some x => Some x
      | None => params_error self rest
      end
  end.

(** *** The [try] block shared by the methods *)

(** [isinstance(x, OperationalError)] and [isinstance(x, Error)], for
    the two names db_manager.py imports from psycopg2. *)
Definition is_operational_error (x : exception) : bool :=
  match x with
  | Psycopg2 OperationalError => true
  | _ => false
  end.

Definition is_error (x : exception) : bool :=
  match x with
  | Psycopg2 _ => true
  | _ => false
  end.

(** [_get_connection()]: whether it returns a connection ([false] is
    None, after [except OperationalError]), or the exception that
    leaves it. *)
Definition _get_connection (f : db_fault) : outcome bool :=
  match f with
  | ConnectFail x => if is_operational_error x then Returns false else Raises x
  | _ => Returns true
  end.

(** How the block
      [try: conn = self._get_connection(); if conn: ... execute ...]
      [except OperationalError ... except Error ... finally: close]
    ends:
    - [NotConnected]: [conn] is None, the [if] is skipped;
    - [Caught]: one of the two [except] clauses took the exception;
    - [Escapes x]: no clause takes [x], it leaves the method after
      [finally];
    - [Answered]: the server has taken the query. *)
Inductive reply :=
| NotConnected
| Caught
| Escapes (x : exception)
| Answered.

(** An exception raised inside the [try] block meets
    [except OperationalError], then [except Error]. *)
Definition raised_in_try (x : exception) : reply :=
  if is_operational_error x then Caught
  else if is_error x then Caught
  else Escapes x.

(** [perr] is the adaptation error of the parameters of the query;
    adaptation comes before the query is sent. *)
Definition execute (f : db_fault) (perr : option exception) : reply :=
  match _get_connection f with
  | Raises x => raised_in_try x
  | Returns false => NotConnected
  | Returns true =>
      match perr with
      | Some x => raised_in_try x
      | None =>
          match f with
          | QueryFail x => raised_in_try x
          | _ => Answered
          end
      end
  end.

Definition has_case (t : table) (cn : str) : bool :=
  existsb (fun r => str_eqb (r_case_number r) cn) t.

(** INSERT ... ON CONFLICT (case_number) DO NOTHING *)
Definition insert_on_conflict_do_nothing (t : table) (r : db_row) : table :=
  if has_case t (r_case_number r) then t else t ++ [r].

(** [create_table(sql_script_path)]: False when the script is not
    there; otherwise the script is read and run inside the [try]
    block.  It creates what is missing and leaves the rows alone. *)
Definition create_table (script_exists : bool) (f : db_fault)
  : outcome bool :=
  if script_exists then
    match execute f None with
    | NotConnected | Caught => Returns false
    | Escapes x => Raises x
    | Answered => Returns true
    end
  else Returns false.

(** The tuple [(case_number, case_date, inn)] of [insert_case]; None
    is sent as NULL. *)
Definition insert_params (cn : str) (cd : option str) (inn : str)
  : list str :=
  cn :: match cd with Some s => [s; inn] | None => [inn] end.

(** [insert_case(case_number, case_date, inn)]: what the call returns
    or raises, and the table after it. *)
Definition insert_case (self : DBManager) (f : db_fault) (t : table)
           (cn : str) (cd : option str) (inn : str)
  : outcome bool * table :=
  match execute f (params_error self (insert_params cn cd inn)) with
  | NotConnected | Caught => (Returns false, t)
  | Escapes x => (Raises x, t)
  | Answered =>
      match cd with
      | None =>
          (Returns true,
           insert_on_conflict_do_nothing t (mkDbRow cn None inn))
      | Some s =>
          match db_date_in self s with
          | Some d =>
              (Returns true,
               insert_on_conflict_do_nothing t (mkDbRow cn (Some d) inn))
          | None => (Returns false, t)   (* the text is no date: DataError, caught *)
          end
      end
  end.

(** [dict(zip(columns, row_list))] after the date column has been
    turned into ISO text. *)
Definition row_to_dict (r : db_row) : case :=
  mkCase (r_case_number r) (option_map isoformat (r_case_date r)) (r_inn r).

(** [get_all_cases_as_dicts()] *)
Definition get_all_cases_as_dicts (f : db_fault) (t : table)
  : outcome (list case) :=
  match execute f None with
  | NotConnected | Caught => Returns []
  | Escapes x => Raises x
  | Answered => Returns (List.map row_to_dict t)
  end.

(** [if flt:] on an optional string argument. *)
Definition present (x : option str) : option str :=
  match x with
  | Some s => if truthy s then Some s else None
  | None => None
  end.

(** A date bound: absent, a date, or text the server rejects. *)
Inductive bound := NoBound | Bound (d : date) | BadBound.

Definition parse_bound (self : DBManager) (x : option str) : bound :=
  match present x with
  | None => NoBound
  | Some s => match db_date_in self s with
              | Some d => Bound d
              | None => BadBound
              end
  end.

Definition cond_ilike (self : DBManager) (flt : option str) (v : str)
  : bool :=
  match present flt with
  | Some f => ilike (db_lower self) v (contains_pattern f)
  | None => true
  end.

(** [case_date >= lo]; a comparison with NULL is not true. *)
Definition cond_from (lo : bound) (v : option date) : bool :=
  match lo with
  | Bound d => match v with Some x => date_leb d x | None => false end
  | _ => true
  end.

(** [case_date <= hi] *)
Definition cond_until (hi : bound) (v : option date) : bool :=
  match hi with
  | Bound d => match v with Some x => date_leb x d | None => false end
  | _ => true
  end.

(** WHERE 1=1 AND ... AND ... *)
Definition where_clause (self : DBManager) (cnf innf : option str)
           (lo hi : bound) (r : db_row) : bool :=
  cond_ilike self cnf (r_case_number r) && cond_ilike self innf (r_inn r)
  && cond_from lo (r_case_date r) && cond_until hi (r_case_date r).

Definition is_bad (b : bound) : bool :=
  match b with BadBound => true | _ => false end.

Definition opt_list {A : Type} (x : option A) : list A :=
  match x with Some a => [a] | None => [] end.

(** The list [params] as the four [if] statements build it. *)
Definition filter_params (cnf innf sd ed : option str) : list str :=
  opt_list (option_map contains_pattern (present cnf))
    ++ opt_list (option_map contains_pattern (present innf))
    ++ opt_list (present sd) ++ opt_list (present ed).

(** [get_filtered_cases_as_dicts(case_number_filter, inn_filter,
    start_date, end_date)] *)
Definition get_filtered_cases_as_dicts (self : DBManager) (f : db_fault)
           (t : table)
           (case_number_filter inn_filter start_date end_date : option str)
  : outcome (list case) :=
  match execute f (params_error self
                     (filter_params case_number_filter inn_filter
                                    start_date end_date)) with
  | NotConnected | Caught => Returns []
  | Escapes x => Raises x
  | Answered =>
      let lo := parse_bound self start_date in
      let hi := parse_bound self end_date in
      if is_bad lo || is_bad hi then Returns []   (* DataError, caught *)
      else Returns
             (List.map row_to_dict
                (filter (where_clause self case_number_filter inn_filter lo hi) t))
  end.

(** [case_exists(case_number)]: SELECT 1 ... WHERE case_number = %s,
    [fetchone() is not None]; after a caught fault the function falls
    through to [return False]. *)
Definition case_exists (self : DBManager) (f : db_fault) (t : table)
           (cn : str) : outcome bool :=
  match execute f (params_error self [cn]) with
  | NotConnected | Caught => Returns false
  | Escapes x => Raises x
  | Answered => Returns (has_case t cn)
  end.

(** [get_all_cases()]: the rows as tuples, the date as the driver
    hands it over. *)
Definition get_all_cases (f : db_fault) (t : table)
  : outcome (list (str * option date * str)) :=
  match execute f None with
  | NotConnected | Caught => Returns []
  | Escapes x => Raises x
  | Answered =>
      Returns (List.map (fun r => (r_case_number r, r_case_date r, r_inn r)) t)
  end.

End DB.
Import DB.

(* ===================================================================== *)
(** ** The csv module, excel dialect *)
(* ===================================================================== *)

Module Csv.

Definition comma : char := 44%N.
Definition dquote : char := 34%N.
Definition cr : char := 13%N.
Definition lf : char := 10%N.

(** *** Writer: QUOTE_MINIMAL, doublequote, lineterminator CR LF *)

Definition needs_quote (c : char) : bool :=
  ((c =? comma) || (c =? dquote) || (c =? cr) || (c =? lf))%N.

Fixpoint double_quotes (s : str) : str :=
  match s with
  | [] => []
  | c :: rest =>
      if (c =? dquote)%N then dquote :: dquote :: double_quotes rest
      else c :: double_quotes rest
  end.

Definition write_field (s : str) : str :=
  if existsb needs_quote s then dquote :: double_quotes s ++ [dquote]
  else s.

Fixpoint join_fields (fs : list str) : str :=
  match fs with
  | [] => []
  | [f] => write_field f
  | f :: rest => write_field f ++ comma :: join_fields rest
  end.

(** [writer.writerow(fields)]; a lone empty field is written quoted. *)
Definition writerow (fs : list str) : str :=
  match fs with
  | [ [] ] => [dquote; dquote; cr; lf]
  | _ => join_fields fs ++ [cr; lf]
  end.

(** *** Reader *)

Inductive state :=
| START_RECORD
| START_FIELD
| IN_FIELD
| IN_QUOTED_FIELD
| QUOTE_IN_QUOTED_FIELD
| EAT_CRNL.

(** The reader is fed the lines of the file, character by character,
    and an end-of-line mark after each line. *)
Inductive token := Ch (c : char) | EOL.

(** Lines of a file opened with [newline='']: a line ends after LF,
    after CR LF, or after a CR that no LF follows; the ending stays in
    the line.  [mid] says that the current line has characters
    already. *)
Fixpoint tokens_from (mid : bool) (s : str) : list token :=
  match s with
  | [] => if mid then [EOL] else []
  | c :: rest =>
      if (c =? lf)%N then Ch c :: EOL :: tokens_from false rest
      else if (c =? cr)%N then
        match rest with
        | d :: _ =>
            if (d =? lf)%N then Ch c :: tokens_from true rest
            else Ch c :: EOL :: tokens_from false rest
        | [] => [Ch c; EOL]
        end
      else Ch c :: tokens_from true rest
  end.

Definition tokens (s : str) : list token := tokens_from false s.

Record reader := mkReader {
  st : state;
  field : str;           (* the field being collected *)
  fields : list str      (* the fields of the record so far *)
}.

Definition reset : reader := mkReader START_RECORD [] [].

Definition save_field (s : state) (r : reader) : reader :=
  mkReader s [] (fields r ++ [field r]).

Definition add_char (s : state) (c : char) (r : reader) : reader :=
  mkReader s (field r ++ [c]) (fields r).

Definition goto (s : state) (r : reader) : reader :=
  mkReader s (field r) (fields r).

Definition is_newline (c : char) : bool := ((c =? lf) || (c =? cr))%N.

Definition step_start_field (r : reader) (t : token) : reader :=
  match t with
  | EOL => save_field START_RECORD r
  | Ch c =>
      if is_newline c then save_field EAT_CRNL r
      else if (c =? dquote)%N then goto IN_QUOTED_FIELD r
      else if (c =? comma)%N then save_field START_FIELD r
      else add_char IN_FIELD c r
  end.

(** [parse_process_char]; [None] is the csv.Error of EAT_CRNL. *)
Definition step (r : reader) (t : token) : option reader :=
  match st r with
  | START_RECORD =>
      match t with
      | EOL => Some r
      | Ch c =>
          if is_newline c then Some (goto EAT_CRNL r)
          else Some (step_start_field r t)
      end
  | START_FIELD => Some (step_start_field r t)
  | IN_FIELD =>
      match t with
      | EOL => Some (save_field START_RECORD r)
      | Ch c =>
          if is_newline c then Some (save_field EAT_CRNL r)
          else if (c =? comma)%N then Some (save_field START_FIELD r)
          else Some (add_char IN_FIELD c r)
      end
  | IN_QUOTED_FIELD =>
      match t with
      | EOL => Some r
      | Ch c =>
          if (c =? dquote)%N then Some (goto QUOTE_IN_QUOTED_FIELD r)
          else Some (add_char IN_QUOTED_FIELD c r)
      end
  | QUOTE_IN_QUOTED_FIELD =>
      match t with
      | EOL => Some (save_field START_RECORD r)
      | Ch c =>
          if (c =? dquote)%N then Some (add_char IN_QUOTED_FIELD c r)
          else if (c =? comma)%N then Some (save_field START_FIELD r)
          else if is_newline c then Some (save_field EAT_CRNL r)
          else Some (add_char IN_FIELD c r)
      end
  | EAT_CRNL =>
      match t with
      | EOL => Some (goto START_RECORD r)
      | Ch c => if is_newline c then Some r else None
      end
  end.

Definition state_eqb (a b : state) : bool :=
  match a, b with
  | START_RECORD, START_RECORD | START_FIELD, START_FIELD
  | IN_FIELD, IN_FIELD | IN_QUOTED_FIELD, IN_QUOTED_FIELD
  | QUOTE_IN_QUOTED_FIELD, QUOTE_IN_QUOTED_FIELD
  | EAT_CRNL, EAT_CRNL => true
  | _, _ => false
  end.

(** The iteration of the reader: a record is handed out when the end
    of a line leaves the machine in START_RECORD; at the end of the
    input an unfinished quoted field is saved and handed out. *)
Fixpoint read_tokens (ts : list token) (r : reader)
         (rows : list (list str)) : option (list (list str)) :=
  match ts with
  | [] =>
      if state_eqb (st r) IN_QUOTED_FIELD || truthy (field r)
      then Some (rows ++ [fields r ++ [field r]])
      else Some rows
  | t :: ts' =>
      match step r t with
      | None => None
      | Some r' =>
          match t with
          | EOL =>
              if state_eqb (st r') START_RECORD
              then read_tokens ts' reset (rows ++ [fields r'])
              else read_tokens ts' r' rows
          | Ch _ => read_tokens ts' r' rows
          end
      end
  end.

(** [list(csv.reader(f))] *)
Definition reader_rows (text : str) : option (list (list str)) :=
  read_tokens (tokens text) reset [].

End Csv.
Import Csv.

(* ===================================================================== *)
(** ** core/application_logic.py *)
(* ===================================================================== *)

Module App.

(** The texts handed to [_update_status], by their format string. *)
Inductive status_msg :=
| MsgStarting (inn : str)            (* "Запускаю скрапинг для ИНН: {inn}..." *)
| MsgInvalidInn                      (* "Ошибка: Неверный ИНН. ..." *)
| MsgScrapingBegins                  (* "Начинаю процесс веб-скрапинга..." *)
| MsgNoneFoundOrError (inn : str)    (* "... Новые дела для ИНН {inn} не найдены или произошла ошибка." *)
| MsgFound (n : nat) (inn : str)     (* "... Найдено {len(scraped_cases)} дел для ИНН {inn}." *)
| MsgSiteUnavailable                 (* "Ошибка: Сайт недоступен или слишком долго отвечает. ..." *)
| MsgWebDriverError                  (* "Ошибка WebDriver: {e}. ..." *)
| MsgUnexpectedScrapeError           (* "Неожиданная ошибка во время скрапинга: {e}." *)
| MsgUpdatingTable                   (* "Обновляю таблицу результатов GUI..." *)
| MsgSaving                          (* "Сохраняю полученные дела в базу данных..." *)
| MsgInserted (n : nat)              (* "Успешно вставлено {inserted_count} новых дел ..." *)
| MsgNothingToSave (inn : str)       (* "Нет новых дел для сохранения для ИНН {inn}." *)
| MsgDone                            (* "Процесс скрапинга и обновления базы данных завершен." *)
| MsgFiltering                       (* "Применяю фильтры и обновляю таблицу..." *)
| MsgFilterFound (n : nat)           (* "Найдено {len(filtered_cases)} дел по заданным фильтрам." *)
| MsgFilterError                     (* "Ошибка при фильтрации дел: {e}." *)
| MsgExportingCsv (path : str)       (* "Экспортирую данные в CSV: {file_path}..." *)
| MsgNoDataCsv                       (* "Нет данных для экспорта в CSV." *)
| MsgExportedCsv (path : str)        (* "Данные успешно экспортированы в CSV: {file_path}" *)
| MsgExportCsvError.                 (* "Ошибка при экспорте в CSV: {e}" *)

Inductive app_event :=
| GuiStatus (m : status_msg)                 (* gui_status_updater(message) *)
| AppLog (lvl : level) (m : status_msg)      (* logger.info / warning / error *)
| GuiResults (cases : list case)             (* gui_results_updater(cases) *)
| ScrapeCall (inn : str) (evs : list Scraper.event)
                                             (* scraper.scrape_arbitr_cases(inn) *)
| DbCreateTable (result : outcome bool)      (* db_manager.create_table() *)
| DbInsert (c : case) (result : outcome bool)
                                             (* db_manager.insert_case(...) *)
| DbGetAll                                   (* db_manager.get_all_cases_as_dicts() *)
| DbGetFiltered                              (* db_manager.get_filtered_cases_as_dicts(...) *)
| FileWrite (path : str) (content : str)     (* the file at [path] afterwards *)
| Uncaught (x : exception).                  (* an exception leaves the method *)

(** The two callables the constructor receives; [false] is None. *)
Record ApplicationLogic := mkApp {
  gui_status_updater : bool;
  gui_results_updater : bool
}.

(** The objects the application holds and what they act on. *)
Record world := mkWorld {
  w_scraper : ArbitrScraper;
  w_browser : browser;
  w_db_manager : DBManager;
  w_db : table
}.

(** What the outside does during one [start_scraping]: the browser
    and the site, whether init_db.sql is there, and the fault, if any,
    of [create_table] and of each [insert_case] in turn. *)
Record run_env := mkRunEnv {
  scrape_env : Scraper.env;
  script_exists : bool;
  create_fault : db_fault;
  insert_faults : list db_fault
}.

(** [_update_status(message, level)] *)
Definition _update_status (app : ApplicationLogic) (m : status_msg)
           (lvl : level) : list app_event :=
  (if gui_status_updater app then [GuiStatus m] else []) ++ [AppLog lvl m].

(** The validation of [start_scraping]:
    [not inn or not inn.isdigit() or len(inn) not in [10, 12]] *)
Definition inn_rejected (inn : str) : bool :=
  negb (truthy inn) || negb (isdigit inn)
  || negb ((len inn =? 10) || (len inn =? 12)).

(** The [for case in scraped_cases] loop with its counter.  An
    exception out of [insert_case] ends the loop; the counter is lost
    with it. *)
Fixpoint insert_all (self : DBManager) (faults : list db_fault) (t : table)
         (cases : list case) (inserted_count : nat)
  : table * outcome nat * list app_event :=
  match cases with
  | [] => (t, Returns inserted_count, [])
  | c :: rest =>
      let '(res, t1) :=
        insert_case self (hd NoFault faults) t
                    (case_number c) (case_date c) (inn c) in
      match res with
      | Raises x => (t1, Raises x, [DbInsert c res])
      | Returns ok =>
          let '(t2, n, evs) :=
            insert_all self (tl faults) t1 rest
                       (if ok then S inserted_count else inserted_count) in
          (t2, n, DbInsert c res :: evs)
      end
  end.

(** The body of the [try] of step 4: [create_table()], then the
    loop. *)
Definition save_cases (self : DBManager) (e : run_env) (t : table)
           (cases : list case) : table * outcome nat * list app_event :=
  let created := create_table (script_exists e) (create_fault e) in
  match created with
  | Raises x => (t, Raises x, [DbCreateTable created])
  | Returns _ =>
      let '(t', n, ievs) := insert_all self (insert_faults e) t cases 0 in
      (t', n, DbCreateTable created :: ievs)
  end.

(** [start_scraping(inn)]: the objects afterwards and what happened.
    [scrape_arbitr_cases] catches every exception of the page
    interaction itself and returns a list, so the [except] clauses of
    step 2 are never entered.  In step 4 the database methods catch
    every [psycopg2.Error]; an exception they let through reaches the
    clause [except OperationalError as e], and application_logic.py
    never imports that name: looking it up raises NameError, which
    leaves [start_scraping] before the [except Exception] clause is
    tried and before the final status is reported. *)
Definition start_scraping (app : ApplicationLogic) (w : world)
           (e : run_env) (inn : str) : world * list app_event :=
  let ev0 := _update_status app (MsgStarting inn) INFO in
  if inn_rejected inn then
    (w, ev0 ++ _update_status app MsgInvalidInn ERROR)
  else
    let ev1 := _update_status app MsgScrapingBegins INFO in
    let '(scraped_cases, scraper', browser', sevs) :=
      scrape_arbitr_cases (w_scraper w) (w_browser w) (scrape_env e)
                          inn default_max_results in
    let ev2 := [ScrapeCall inn sevs] in
    let ev3 :=
      match scraped_cases with
      | [] => _update_status app (MsgNoneFoundOrError inn) INFO
      | _ :: _ =>
          _update_status app (MsgFound (List.length scraped_cases) inn) INFO
      end in
    let ev4 :=
      if gui_results_updater app then
        _update_status app MsgUpdatingTable INFO ++ [GuiResults scraped_cases]
      else [] in
    let '(db', ev5, finished) :=
      match scraped_cases with
      | _ :: _ =>
          let '(t, n, devs) :=
            save_cases (w_db_manager w) e (w_db w) scraped_cases in
          (t,
           _update_status app MsgSaving INFO ++ devs
             ++ match n with
                | Returns k => _update_status app (MsgInserted k) INFO
                | Raises _ => [Uncaught NameError]
                end,
           match n with Returns _ => true | Raises _ => false end)
      | [] =>
          (w_db w, _update_status app (MsgNothingToSave inn) INFO, true)
      end in
    (mkWorld scraper' browser' (w_db_manager w) db',
     ev0 ++ ev1 ++ ev2 ++ ev3 ++ ev4 ++ ev5
         ++ (if finished then _update_status app MsgDone INFO else [])).

(** [filter_cases(case_number_filter, inn_filter, start_date, end_date)]:
    an exception out of the reader is taken by [except Exception]. *)
Definition filter_cases (app : ApplicationLogic) (self : DBManager)
           (f : db_fault) (t : table)
           (case_number_filter inn_filter start_date end_date : option str)
  : list app_event :=
  _update_status app MsgFiltering INFO
    ++ [DbGetFiltered]
    ++ match get_filtered_cases_as_dicts self f t case_number_filter
                                         inn_filter start_date end_date with
       | Returns filtered_cases =>
           _update_status app (MsgFilterFound (List.length filtered_cases)) INFO
             ++ (if gui_results_updater app
                 then [GuiResults filtered_cases] else [])
       | Raises _ => _update_status app MsgFilterError ERROR
       end.

Definition fieldnames : list str :=
  [py "case_number"; py "case_date"; py "inn"].

(** [DictWriter._dict_to_list]: the values in the order of
    [fieldnames]; the writer renders None as the empty string. *)
Definition dict_to_list (c : case) : list str :=
  [case_number c;
   match case_date c with Some s => s | None => [] end;
   inn c].

(** [writer.writeheader()] then [writer.writerows(cases)] *)
Definition csv_text (cases : list case) : str :=
  writerow fieldnames ++ List.concat (List.map (fun c => writerow (dict_to_list c)) cases).

(** What the file system does to
      [with open(file_path, 'w', ...) as f: ... write ...]:
    - [FileOk]: the file is opened, written and closed;
    - [OpenFails]: [open] raises, no file is created or truncated;
    - [WriteFails remains]: [open] has created or truncated the file,
      and a write or the close raises; [remains] is what the file
      holds afterwards.  Nothing removes it. *)
Inductive file_io :=
| FileOk
| OpenFails
| WriteFails (remains : str).

(** [export_data_to_csv(file_path)].  The dates come out of
    [get_all_cases_as_dicts] as text already, so the [isinstance]
    loop changes nothing.  Every exception, of the reader or of the
    file, is taken by [except Exception].  Returns the flag and the
    events; the file, when one is there afterwards, is the
    [FileWrite] event. *)
Definition export_data_to_csv (app : ApplicationLogic) (f : db_fault)
           (t : table) (io : file_io) (file_path : str)
  : bool * list app_event :=
  let ev0 := _update_status app (MsgExportingCsv file_path) INFO ++ [DbGetAll] in
  match get_all_cases_as_dicts f t with
  | Raises _ => (false, ev0 ++ _update_status app MsgExportCsvError ERROR)
  | Returns [] => (false, ev0 ++ _update_status app MsgNoDataCsv WARNING)
  | Returns cases =>
      match io with
      | FileOk =>
          (true, ev0 ++ [FileWrite file_path (csv_text cases)]
                     ++ _update_status app (MsgExportedCsv file_path) INFO)
      | OpenFails => (false, ev0 ++ _update_status app MsgExportCsvError ERROR)
      | WriteFails remains =>
          (false, ev0 ++ [FileWrite file_path remains]
                      ++ _update_status app MsgExportCsvError ERROR)
      end
  end.

(** The content of the file an export left, if it left one. *)
Definition written_file (evs : list app_event) : option str :=
  match find (fun e => match e with FileWrite _ _ => true | _ => false end) evs with
  | Some (FileWrite _ content) => Some content
  | _ => None
  end.

(** Reading the exported file back, as [csv.DictReader] does: the
    first record is the header, each further record gives one tuple
    in the order of the columns. *)
Definition row_to_tuple (fs : list str) : option (str * str * str) :=
  match fs with
  | [a; b; c] => Some (a, b, c)
  | _ => None
  end.

Fixpoint rows_to_tuples (rows : list (list str))
  : option (list (str * str * str)) :=
  match rows with
  | [] => Some []
  | fs :: rest =>
      match row_to_tuple fs, rows_to_tuples rest with
      | Some tp, Some tps => Some (tp :: tps)
      | _, _ => None
      end
  end.

Definition parse_csv (text : str) : option (list (str * str * str)) :=
  match reader_rows text with
  | Some (header :: rows) =>
      if list_eq_dec (list_eq_dec N.eq_dec) header fieldnames
      then rows_to_tuples rows
      else None
  | _ => None
  end.

(** The tuple of a persisted record, as the readers return it. *)
Definition case_tuple (c : case) : str * option str * str :=
  (case_number c, case_date c, inn c).

Definition parsed_tuple (tp : str * str * str) : str * option str * str :=
  let '(a, b, c) := tp in (a, Some b, c).

End App.
Import App.

(* ===================================================================== *)
(** ** Definitions that follow the specification's wording *)
(* ===================================================================== *)

Module Spec.

(** "consists only of decimal digits and has length 10 or 12", the
    shape [^\d{10}$|^\d{12}$] asks for. *)
Definition taxpayer_id_shape (s : str) : bool :=
  forallb isdecimal_char s && ((len s =? 10) || (len s =? 12)).

(** [f] occurs in [s] as a run of consecutive characters. *)
Definition is_substring (f s : str) : Prop :=
  exists pre post, s = pre ++ f ++ post.

Fixpoint starts_with (f s : str) : bool :=
  match f, s with
  | [], _ => true
  | c :: f', x :: s' => (x =? c)%N && starts_with f' s'
  | _ :: _, [] => false
  end.

(** Boolean test for [is_substring]. *)
Definition contains (f s : str) : bool := any_suffix (starts_with f) s.

(** "case-insensitive substring match": [f] occurs in [s] once both
    are lower-cased, by the [lower()] of the database. *)
Definition contains_ci (lc : char -> char) (f s : str) : bool :=
  contains (List.map lc f) (List.map lc s).

Definition opt_contains_ci (lc : char -> char) (flt : option str) (s : str)
  : bool :=
  match present flt with
  | Some f => contains_ci lc f s
  | None => true
  end.

(** "inclusive date-range bound": the date is there and within. *)
Definition on_or_after (lo : option date) (v : option date) : bool :=
  match lo with
  | Some d => match v with Some x => date_leb d x | None => false end
  | None => true
  end.

Definition on_or_before (hi : option date) (v : option date) : bool :=
  match hi with
  | Some d => match v with Some x => date_leb x d | None => false end
  | None => true
  end.

(** "filters combine with logical AND" *)
Definition selected (lc : char -> char) (cnf innf : option str)
           (lo hi : option date) (r : db_row) : bool :=
  opt_contains_ci lc cnf (r_case_number r) && opt_contains_ci lc innf (r_inn r)
  && on_or_after lo (r_case_date r) && on_or_before hi (r_case_date r).

(** The date a filter argument stands for: [Some None] when the
    argument is absent, [Some (Some d)] for text the server reads as
    the date [d]. *)
Definition filter_date (self : DBManager) (x : option str)
  : option (option date) :=
  match present x with
  | None => Some None
  | Some s => option_map Some (db_date_in self s)
  end.

(** A filter text without the characters LIKE gives a meaning to. *)
Definition is_meta (c : char) : bool :=
  ((c =? percent) || (c =? underscore) || (c =? backslash))%N.

Definition plain (flt : option str) : bool :=
  match flt with
  | Some f => forallb (fun c => negb (is_meta c)) f
  | None => true
  end.

(** [lower()] leaves [%] alone and turns no other character into
    [%], [_] or a backslash. *)
Definition keeps_meta (lc : char -> char) : Prop :=
  lc percent = percent
  /\ forall c, is_meta c = false -> is_meta (lc c) = false.

(** The rows that carry a given case number. *)
Definition rows_with (cn : str) (t : table) : list db_row :=
  filter (fun r => str_eqb (r_case_number r) cn) t.

(** The unique constraint on [case_number]. *)
Definition unique_case_numbers (t : table) : Prop :=
  NoDup (List.map r_case_number t).

(** The date argument is one the DATE column takes: None, or text the
    server reads as a date. *)
Definition date_accepted (self : DBManager) (cd : option str) : bool :=
  match cd with
  | None => true
  | Some s => match db_date_in self s with Some _ => true | None => false end
  end.

(** The arguments of an [insert_case] that the server can store: the
    driver can send the three values and the DATE column takes the
    date. *)
Definition storable (self : DBManager) (cn : str) (cd : option str)
           (inn : str) : bool :=
  match params_error self (insert_params cn cd inn) with
  | None => date_accepted self cd
  | Some _ => false
  end.

(** A database fault occurs in a call: the connection fails with an
    error of the database driver, or the query that was sent fails
    with one.  ([perr] is the adaptation error of the parameters; with
    one, the driver raises while it prepares the query and no query is
    sent.) *)
Definition database_fault_occurs (f : db_fault) (perr : option exception)
  : bool :=
  match f with
  | ConnectFail x => is_error x
  | QueryFail x =>
      is_error x && match perr with None => true | Some _ => false end
  | NoFault => false
  end.

(** A report of the filter error, on screen or in the log. *)
Definition is_filter_error_report (e : app_event) : bool :=
  match e with
  | GuiStatus MsgFilterError | AppLog _ MsgFilterError => true
  | _ => false
  end.

(** A report of a count of filtered cases. *)
Definition is_filter_count_report (n : nat) (e : app_event) : bool :=
  match e with
  | GuiStatus (MsgFilterFound k) | AppLog _ (MsgFilterFound k) => Nat.eqb k n
  | _ => false
  end.

(** The parts of what [scrape_arbitr_cases] yields: the list it
    returns, the object and the browser after the call, and what
    happened during the call. *)
Definition scraped (x : list case * ArbitrScraper * browser * list Scraper.event)
  : list case := fst (fst (fst x)).

Definition scraper_after (x : list case * ArbitrScraper * browser * list Scraper.event)
  : ArbitrScraper := snd (fst (fst x)).

Definition browser_after (x : list case * ArbitrScraper * browser * list Scraper.event)
  : browser := snd (fst x).

Definition scrape_events (x : list case * ArbitrScraper * browser * list Scraper.event)
  : list Scraper.event := snd x.

(** A report of the source-unavailable message, on screen or in the log. *)
Definition is_site_unavailable_report (e : app_event) : bool :=
  match e with
  | GuiStatus MsgSiteUnavailable | AppLog _ MsgSiteUnavailable => true
  | _ => false
  end.

(** A report of a count of scraped cases. *)
Definition is_count_report (e : app_event) : bool :=
  match e with
  | GuiStatus (MsgFound _ _) | AppLog _ (MsgFound _ _) => true
  | _ => false
  end.

(** A report of the validation error. *)
Definition is_validation_report (e : app_event) : bool :=
  match e with
  | GuiStatus MsgInvalidInn | AppLog _ MsgInvalidInn => true
  | _ => false
  end.

(** The states a field can begin in. *)
Definition at_field_start (r : reader) : Prop :=
  (st r = START_RECORD \/ st r = START_FIELD) /\ field r = [].

(** Persistence operations among the events of the coordinator. *)
Definition is_persistence (e : app_event) : bool :=
  match e with
  | DbCreateTable _ | DbInsert _ _ => true
  | _ => false
  end.

Definition is_scrape (e : app_event) : bool :=
  match e with
  | ScrapeCall _ _ => true
  | _ => false
  end.

Definition is_db (e : app_event) : bool :=
  match e with
  | DbCreateTable _ | DbInsert _ _ | DbGetAll | DbGetFiltered => true
  | _ => false
  end.

Definition acquisitions (evs : list Scraper.event) : nat :=
  List.length (filter (fun e => match e with Acquire _ => true | _ => false end) evs).

Definition live_queries (evs : list Scraper.event) : nat :=
  List.length (filter (fun e => match e with Get _ true => true | _ => false end) evs).

End Spec.
Import Spec.

(* ===================================================================== *)
(** ** Sample data *)
(* ===================================================================== *)

Module Samples.

Definition inn10 : str := py "1234567890".

Definition row_15 : Row :=
  mkRow 4 (Some (py "15.03.2023")) (Some (py "A12-34/2023")).

Definition row_16 : Row :=
  mkRow 4 (Some (py "16.03.2023")) (Some (py "A56-78/2023")).

(** A row with three cells only. *)
Definition row_short : Row := mkRow 3 None None.

(** A row whose first cell has no case link. *)
Definition row_no_link : Row := mkRow 4 (Some (py "15.03.2023")) None.

(** A row whose date text is no calendar date. *)
Definition row_bad_date : Row :=
  mkRow 4 (Some (py "31.02.2023")) (Some (py "A12-34/2023")).

Definition case_15 : case :=
  mkCase (py "A12-34/2023") (Some (py "2023-03-15")) inn10.

Definition case_16 : case :=
  mkCase (py "A56-78/2023") (Some (py "2023-03-16")) inn10.

Definition page (rows : list Row) : Scraper.env := mkEnv true (SiteRows rows).

(** Ten times superscript two. *)
Definition superscript_inn : str := repeat 178%N 10.

Definition wired : ApplicationLogic := mkApp true true.

(** [lower()] on the Basic Latin and Cyrillic blocks, the alphabets
    case numbers are written in; other code points are left as they
    are. *)
Definition lower_char (c : char) : char :=
  if ((65 <=? c) && (c <=? 90))%N then (c + 32)%N
  else if ((1040 <=? c) && (c <=? 1071))%N then (c + 32)%N
  else if ((1024 <=? c) && (c <=? 1039))%N then (c + 80)%N
  else c.

(** A database for the samples: a UTF-8 connection, a locale whose
    [lower()] is [lower_char], and dates read from ISO text only. *)
Definition sample_db : DBManager :=
  mkDBManager lower_char (fun _ => true) date_in.

Definition new_world : world := mkWorld new_scraper fresh_browser sample_db [].

Definition calm (e : Scraper.env) : run_env := mkRunEnv e true NoFault [].

Definition jan_table : table :=
  [mkDbRow (py "A12-34/2023") (Some (mkDate 2023 1 15)) (py "1234567890");
   mkDbRow (py "A56-78/2023") (Some (mkDate 2023 2 1)) (py "1234567890");
   mkDbRow (py "B1/2022") (Some (mkDate 2022 12 31)) (py "0987654321");
   mkDbRow (py "C7/2023") None (py "1234567890");
   mkDbRow (py "a99/2023") (Some (mkDate 2023 1 31)) (py "1234567890")].

(** A case number with a comma, quotes and a line break in it. *)
Definition awkward_number : str :=
  py "Smith, J. v " ++ [dquote] ++ py "X" ++ [dquote; cr; lf] ++ py "(2)".

Definition dated_table : table :=
  [mkDbRow (py "A12-34/2023") (Some (mkDate 2023 1 15)) inn10;
   mkDbRow awkward_number (Some (mkDate 2023 2 1)) inn10].

End Samples.
Import Samples.

(* ===================================================================== *)
(** ** utils/logger.py *)
(* ===================================================================== *)

Module Logger.

(** Numeric levels of the logging module. *)
Definition DEBUG : N := 10%N.
Definition LEVEL_INFO : N := 20%N.

Inductive handler :=
| FileHandler (lvl : N)       (* writes app.log *)
| StreamHandler (lvl : N).    (* writes to the console *)

(** The logger named 'arbitration_checker', one per process. *)
Record logger := mkLogger {
  logger_level : option N;      (* None is NOTSET *)
  handlers : list handler
}.

Definition new_logger : logger := mkLogger None [].

(** [setup_logging(log_file_name='app.log', log_level=logging.INFO)] *)
Definition setup_logging (log_level : N) (lg : logger) : logger :=
  match handlers lg with
  | [] => mkLogger (Some DEBUG) [FileHandler DEBUG; StreamHandler log_level]
  | _ :: _ => mkLogger (Some DEBUG) (handlers lg)
  end.

(** Successive calls, each with its own [log_level]. *)
Definition setup_many (levels : list N) (lg : logger) : logger :=
  fold_left (fun l lvl => setup_logging lvl l) levels lg.

End Logger.

(* ===================================================================== *)
(** ** gui/main_window.py and the wiring of main.py *)
(* ===================================================================== *)

Module Gui.

(** The lines of the status display, by their format string. *)
Inductive display_line :=
| LineSearching (inn : str)       (* "Поиск дел для ИНН: {inn}..." *)
| LineEnterInn                    (* "Пожалуйста, введите ИНН для скрапинга." *)
| LineFilters (cn inn sd ed : str)  (* "Применение фильтров: ..." *)
| LineStatus (m : status_msg).    (* a message of the application logic *)

Record MainWindow := mkWindow {
  scrape_inn_input : str;
  case_num_filter_input : str;
  inn_filter_input : str;
  start_date_input : str;
  end_date_input : str;
  results_table : list (str * str * str);
  status_display : list display_line
}.

Definition set_table (rows : list (str * str * str)) (w : MainWindow)
  : MainWindow :=
  mkWindow (scrape_inn_input w) (case_num_filter_input w) (inn_filter_input w)
           (start_date_input w) (end_date_input w) rows (status_display w).

(** [status_display.append(line)] *)
Definition append_status (l : display_line) (w : MainWindow) : MainWindow :=
  mkWindow (scrape_inn_input w) (case_num_filter_input w) (inn_filter_input w)
           (start_date_input w) (end_date_input w) (results_table w)
           (status_display w ++ [l]).

(** [str(case_data['case_date'])] *)
Definition str_of_date (cd : option str) : str :=
  match cd with
  | Some s => s
  | None => py "None"
  end.

Definition table_row (c : case) : str * str * str :=
  (case_number c, str_of_date (case_date c), inn c).

(** [clear_results_table()] *)
Definition clear_results_table (w : MainWindow) : MainWindow := set_table [] w.

(** [add_case_to_table(case_data)]: a new row after the last one. *)
Definition add_case_to_table (w : MainWindow) (c : case) : MainWindow :=
  set_table (results_table w ++ [table_row c]) w.

(** [update_results_table(cases)] *)
Definition update_results_table (w : MainWindow) (cases : list case)
  : MainWindow :=
  fold_left add_case_to_table cases (clear_results_table w).

(** [_on_search_clicked()] *)
Definition _on_search_clicked (w : MainWindow) : MainWindow :=
  if truthy (scrape_inn_input w) then
    clear_results_table (append_status (LineSearching (scrape_inn_input w)) w)
  else append_status LineEnterInn w.

(** [_on_filter_clicked()] *)
Definition _on_filter_clicked (w : MainWindow) : MainWindow :=
  append_status (LineFilters (case_num_filter_input w) (inn_filter_input w)
                             (start_date_input w) (end_date_input w)) w.

(** The application logic as [main_app] builds it: the status updater
    is [status_display.append], the results updater is
    [update_results_table]. *)
Definition logic : ApplicationLogic := mkApp true true.

(** What a call of one of the two updaters does to the window. *)
Definition deliver (w : MainWindow) (ev : app_event) : MainWindow :=
  match ev with
  | GuiStatus m => append_status (LineStatus m) w
  | GuiResults cases => update_results_table w cases
  | _ => w
  end.

(** A click on the search button: the slot the window connected in
    [_init_ui] runs first, then the slot [main_app] connected, which is
    [start_scraping(scrape_inn_input.text())].  The window is the one
    the calls of the updaters leave; an exception that leaves
    [start_scraping] leaves the slot after them. *)
Definition click_search (w : MainWindow) (wd : world) (e : run_env)
  : MainWindow * world * list app_event :=
  let w1 := _on_search_clicked w in
  let '(wd', evs) := start_scraping logic wd e (scrape_inn_input w) in
  (fold_left deliver evs w1, wd', evs).

(** A click on the filter button: [_on_filter_clicked], then
    [filter_cases] with the texts of the four inputs. *)
Definition click_filter (w : MainWindow) (self : DBManager) (f : db_fault)
           (t : table) : MainWindow * list app_event :=
  let w1 := _on_filter_clicked w in
  let evs := filter_cases logic self f t
               (Some (case_num_filter_input w)) (Some (inn_filter_input w))
               (Some (start_date_input w)) (Some (end_date_input w)) in
  (fold_left deliver evs w1, evs).

End Gui.
Import Gui.

(* ===================================================================== *)
(** ** The json module as export_data_to_json uses it *)
(* ===================================================================== *)

Module Json.

Definition letter_u : char := 117%N.

(** A hexadecimal digit, lower case. *)
Definition hex_digit (d : N) : char :=
  if (d <? 10)%N then (48 + d)%N else (87 + d)%N.

(** [encode_basestring] on one character ([ensure_ascii=False]): the
    quote, the backslash and the control characters are escaped,
    everything else is written as it is. *)
Definition escape_char (c : char) : str :=
  if (c =? dquote)%N then [backslash; dquote]
  else if (c =? backslash)%N then [backslash; backslash]
  else if (c =? 10)%N then [backslash; 110%N]          (* \n *)
  else if (c =? 13)%N then [backslash; 114%N]          (* \r *)
  else if (c =? 9)%N then [backslash; 116%N]           (* \t *)
  else if (c =? 8)%N then [backslash; 98%N]            (* \b *)
  else if (c =? 12)%N then [backslash; 102%N]          (* \f *)
  else if (c <? 32)%N then
    [backslash; letter_u; 48%N; 48%N; hex_digit (c / 16); hex_digit (c mod 16)]
  else [c].

Definition json_escape (s : str) : str := List.concat (List.map escape_char s).

Definition encode_basestring (s : str) : str :=
  dquote :: json_escape s ++ [dquote].

(** A value of a record: a string, or None. *)
Definition json_value (v : option str) : str :=
  match v with
  | Some s => encode_basestring s
  | None => py "null"
  end.

Definition newline_indent (level : nat) : str :=
  10%N :: repeat 32%N (4 * level).

(** One dictionary at nesting level 1 with [indent=4]: the keys in the
    order of the columns. *)
Definition json_object (c : case) : str :=
  py "{" ++ newline_indent 2
    ++ encode_basestring (py "case_number") ++ py ": "
    ++ json_value (Some (case_number c))
    ++ py "," ++ newline_indent 2
    ++ encode_basestring (py "case_date") ++ py ": "
    ++ json_value (case_date c)
    ++ py "," ++ newline_indent 2
    ++ encode_basestring (py "inn") ++ py ": "
    ++ json_value (Some (inn c))
    ++ newline_indent 1 ++ py "}".

Fixpoint json_items (cases : list case) : str :=
  match cases with
  | [] => []
  | [c] => json_object c
  | c :: rest => json_object c ++ py "," ++ newline_indent 1 ++ json_items rest
  end.

(** [json.dump(cases, f, ensure_ascii=False, indent=4)] *)
Definition json_text (cases : list case) : str :=
  match cases with
  | [] => py "[]"
  | _ :: _ => py "[" ++ newline_indent 1 ++ json_items cases
                   ++ newline_indent 0 ++ py "]"
  end.

(** Reading a string literal: [scanstring] of the decoder, strict. *)

Definition hex_value (c : char) : option N :=
  if ((48 <=? c) && (c <=? 57))%N then Some (c - 48)%N
  else if ((97 <=? c) && (c <=? 102))%N then Some (c - 87)%N
  else if ((65 <=? c) && (c <=? 70))%N then Some (c - 55)%N
  else None.

Definition decode_uXXXX (a b c d : char) : option N :=
  match hex_value a, hex_value b, hex_value c, hex_value d with
  | Some x, Some y, Some z, Some w => Some (4096 * x + 256 * y + 16 * z + w)%N
  | _, _, _, _ => None
  end.

Definition unescape (e : char) : option char :=
  if (e =? dquote)%N then Some dquote
  else if (e =? backslash)%N then Some backslash
  else if (e =? 47)%N then Some 47%N
  else if (e =? 98)%N then Some 8%N
  else if (e =? 102)%N then Some 12%N
  else if (e =? 110)%N then Some 10%N
  else if (e =? 114)%N then Some 13%N
  else if (e =? 116)%N then Some 9%N
  else None.

Definition is_high_surrogate (u : N) : bool := ((55296 <=? u) && (u <=? 56319))%N.
Definition is_low_surrogate (u : N) : bool := ((56320 <=? u) && (u <=? 57343))%N.

Definition cons_char (c : char) (r : option (str * str)) : option (str * str) :=
  match r with
  | Some (s, rest) => Some (c :: s, rest)
  | None => None
  end.

(** [scanstring(s, end)] from just after the opening quote: the text
    of the literal and what follows its closing quote; [None] is a
    JSONDecodeError. *)
Fixpoint scanstring (s : str) : option (str * str) :=
  match s with
  | [] => None
  | c :: rest =>
      if (c =? dquote)%N then Some ([], rest)
      else if (c =? backslash)%N then
        match rest with
        | [] => None
        | e :: rest1 =>
            if (e =? letter_u)%N then
              match rest1 with
              | h1 :: h2 :: h3 :: h4 :: rest2 =>
                  match decode_uXXXX h1 h2 h3 h4 with
                  | None => None
                  | Some uni =>
                      match rest2 with
                      | b :: u :: l1 :: l2 :: l3 :: l4 :: ((x :: rest4) as rest3) =>
                          if is_high_surrogate uni && (b =? backslash)%N
                             && (u =? letter_u)%N
                          then
                            match decode_uXXXX l1 l2 l3 l4 with
                            | None => None
                            | Some uni2 =>
                                if is_low_surrogate uni2 then
                                  cons_char (65536 + 1024 * (uni - 55296)
                                             + (uni2 - 56320))%N
                                            (scanstring rest3)
                                else cons_char uni (scanstring rest2)
                            end
                          else cons_char uni (scanstring rest2)
                      | _ => cons_char uni (scanstring rest2)
                      end
                  end
              | _ => None
              end
            else
              match unescape e with
              | Some ch => cons_char ch (scanstring rest1)
              | None => None
              end
        end
      else if (c <? 32)%N then None
      else cons_char c (scanstring rest)
  end.

End Json.
Import Json.

(* ===================================================================== *)
(** ** core/application_logic.py: the JSON export *)
(* ===================================================================== *)

Module AppJson.

(** The texts of [export_data_to_json]. *)
Inductive json_msg :=
| MsgExportingJson (path : str)  (* "Экспортирую данные в JSON: {file_path}..." *)
| MsgNoDataJson                  (* "Нет данных для экспорта в JSON." *)
| MsgExportedJson (path : str)   (* "Данные успешно экспортированы в JSON: {file_path}" *)
| MsgExportJsonError.            (* "Ошибка при экспорте в JSON: {e}" *)

(** [export_data_to_json(file_path)]: the flag it returns, the file
    that is there afterwards, if the call made one, and the messages
    it reports.  Every exception is taken by [except Exception]. *)
Definition export_data_to_json (f : db_fault) (t : table) (io : file_io)
           (file_path : str) : bool * option str * list (level * json_msg) :=
  match get_all_cases_as_dicts f t with
  | Raises _ =>
      (false, None,
       [(INFO, MsgExportingJson file_path); (ERROR, MsgExportJsonError)])
  | Returns [] =>
      (false, None,
       [(INFO, MsgExportingJson file_path); (WARNING, MsgNoDataJson)])
  | Returns cases =>
      match io with
      | FileOk =>
          (true, Some (json_text cases),
           [(INFO, MsgExportingJson file_path); (INFO, MsgExportedJson file_path)])
      | OpenFails =>
          (false, None,
           [(INFO, MsgExportingJson file_path); (ERROR, MsgExportJsonError)])
      | WriteFails remains =>
          (false, Some remains,
           [(INFO, MsgExportingJson file_path); (ERROR, MsgExportJsonError)])
      end
  end.

End AppJson.
Import AppJson.

(* ===================================================================== *)
(** ** Further definitions for stating properties *)
(* ===================================================================== *)

Module Facts.

(** The record a result row stands for when it has its four cells, its
    date element and its link, a date that parses and a case number
    that is not empty. *)
Definition row_record (inn : str) (r : Row) : option case :=
  if 4 <=? cells r then
    match date_text r, link_text r with
    | Some t, Some n =>
        match strptime_dmY (strip t) with
        | Some d =>
            if truthy (strip n)
            then Some (mkCase (strip n) (Some (strftime_Ymd d)) inn)
            else None
        | None => None
        end
    | _, _ => None
    end
  else None.

Definition is_complete (inn : str) (r : Row) : bool :=
  match row_record inn r with Some _ => true | None => false end.

Fixpoint row_records (inn : str) (rows : list Row) : list case :=
  match rows with
  | [] => []
  | r :: rest =>
      match row_record inn r with
      | Some c => c :: row_records inn rest
      | None => row_records inn rest
      end
  end.

(** What every record of the scraper looks like: the taxpayer ID of
    the query, a case number that is not empty, and the text
    [strftime] gives for a calendar date, which is its ISO text from
    the year 1000 on. *)
Definition scraped_record (query : str) (c : case) : Prop :=
  inn c = query
  /\ case_number c <> []
  /\ exists d, valid_date d = true
               /\ case_date c = Some (strftime_Ymd d)
               /\ ((1000 <= year d)%N -> strftime_Ymd d = isoformat d).

(** The date the server stores for the date argument of
    [insert_case]: NULL for None, the date it reads from the text. *)
Definition stored_date (self : DBManager) (cd : option str)
  : option (option date) :=
  match cd with
  | None => Some None
  | Some s => option_map Some (db_date_in self s)
  end.



(** The end of [start_scraping] after step 4: what it reports after [create_table] and the inserts: the
    number of inserts that returned True, or nothing, when an
    exception left a database method: it meets the clause
    [except OperationalError], whose name is not bound, and the
    NameError of the lookup leaves [start_scraping]. *)
Definition after_saving (app : ApplicationLogic) (n : outcome nat)
  : list app_event :=
  match n with
  | Returns k =>
      _update_status app (MsgInserted k) INFO
        ++ _update_status app MsgDone INFO
  | Raises _ => [Uncaught NameError]
  end.



(** *** Reading the layout of [json_text] *)

(** [s] without the prefix [p], if it begins with it. *)
Fixpoint strip_prefix (p s : str) : option str :=
  match p, s with
  | [], _ => Some s
  | c :: p', x :: s' => if (x =? c)%N then strip_prefix p' s' else None
  | _ :: _, [] => None
  end.

(** A value: a string literal, or [null]. *)
Definition read_value (s : str) : option (option str * str) :=
  match s with
  | c :: rest =>
      if (c =? dquote)%N then
        match scanstring rest with
        | Some (v, r) => Some (Some v, r)
        | None => None
        end
      else
        match strip_prefix (py "null") s with
        | Some r => Some (None, r)
        | None => None
        end
  | [] => None
  end.

(** A member of an object at nesting level 1: the key on a line of its
    own, the colon, the value. *)
Definition read_member (key : str) (s : str) : option (option str * str) :=
  match strip_prefix (newline_indent 2 ++ encode_basestring key ++ py ": ") s with
  | Some r => read_value r
  | None => None
  end.

(** One object with the three keys in the order of the columns. *)
Definition read_object (s : str) : option (case * str) :=
  match strip_prefix (py "{") s with
  | None => None
  | Some s1 =>
      match read_member (py "case_number") s1 with
      | Some (Some cn, s2) =>
          match strip_prefix (py ",") s2 with
          | None => None
          | Some s3 =>
              match read_member (py "case_date") s3 with
              | Some (cd, s4) =>
                  match strip_prefix (py ",") s4 with
                  | None => None
                  | Some s5 =>
                      match read_member (py "inn") s5 with
                      | Some (Some i, s6) =>
                          match strip_prefix (newline_indent 1 ++ py "}") s6 with
                          | Some s7 => Some (mkCase cn cd i, s7)
                          | None => None
                          end
                      | _ => None
                      end
                  end
              | None => None
              end
          end
      | _ => None
      end
  end.

(** The objects of the list up to the closing bracket; [fuel] bounds
    their number. *)
Fixpoint read_items (fuel : nat) (s : str) : option (list case) :=
  match fuel with
  | O => None
  | S k =>
      match read_object s with
      | None => None
      | Some (c, r) =>
          match strip_prefix (py "," ++ newline_indent 1) r with
          | Some r' =>
              match read_items k r' with
              | Some cs => Some (c :: cs)
              | None => None
              end
          | None =>
              match strip_prefix (newline_indent 0 ++ py "]") r with
              | Some [] => Some [c]
              | _ => None
              end
          end
      end
  end.

(** The records of a file in the layout of [json_text]. *)
Definition read_json_text (s : str) : option (list case) :=
  match strip_prefix (py "[" ++ newline_indent 1) s with
  | Some r => read_items (List.length s) r
  | None =>
      match strip_prefix (py "[]") s with
      | Some [] => Some []
      | _ => None
      end
  end.

(** The list the results updater was last called with, if it was
    called. *)
Fixpoint last_results (evs : list app_event) : option (list case) :=
  match evs with
  | [] => None
  | ev :: rest =>
      match last_results rest with
      | Some cases => Some cases
      | None => match ev with
                | GuiResults cases => Some cases
                | _ => None
                end
      end
  end.

(** A row whose case link holds U+0000. *)
Definition row_nul : Row :=
  mkRow 4 (Some (py "15.03.2023")) (Some [65%N; 0%N; 49%N]).

Definition sample_window : MainWindow :=
  mkWindow (py "12345") [] [] [] []
           [(py "A12-34/2023", py "2023-03-15", py "1234567890")] [].

End Facts.
Import Facts.

(* ===================================================================== *)
(** ** Properties *)
(* ===================================================================== *)

(** *** Worked examples of the runtime functions *)

Example strptime_ok :
  option_map strftime_Ymd (strptime_dmY (py "15.03.2023")) = Some (py "2023-03-15").
Proof. reflexivity. Qed.

Example strptime_short : strptime_dmY (py "5.3.2023") = Some (mkDate 2023 3 5).
Proof. reflexivity. Qed.

Example strptime_bad_day : strptime_dmY (py "31.02.2023") = None.
Proof. reflexivity. Qed.

Example strptime_trailing : strptime_dmY (py "15.03.20234") = None.
Proof. reflexivity. Qed.

Example date_in_ok : date_in (py "2023-01-31") = Some (mkDate 2023 1 31).
Proof. reflexivity. Qed.

Example strip_ok : strip (py "  15.03.2023 ") = py "15.03.2023".
Proof. reflexivity. Qed.

Example isdigit_superscript : isdigit superscript_inn = true.
Proof. reflexivity. Qed.

Example like_underscore :
  ilike lower_char (py "A12") (contains_pattern (py "_")) = true.
Proof. reflexivity. Qed.

(** A date before the year 1000: [strftime] leaves the year as it is,
    [isoformat] pads it. *)
Example strftime_year_999 :
  option_map strftime_Ymd (strptime_dmY (py "01.01.0999")) = Some (py "999-01-01")
  /\ option_map isoformat (strptime_dmY (py "01.01.0999")) = Some (py "0999-01-01").
Proof. split; reflexivity. Qed.

(** The text of [strftime] is never empty. *)
Lemma strftime_truthy (d : date) : truthy (strftime_Ymd d) = true.
Proof.
  unfold strftime_Ymd. destruct (decimal (year d)); reflexivity.
Qed.

(** *** The row loop of the scraper *)

Section RowLoop.

Variable inn : str.

(** A row with fewer than four cells leaves the locals alone. *)
Lemma extract_cells_short (r : Row) (l : locals) :
  cells r < 4 -> extract_cells r l = (l, None).
Proof.
  intros H. unfold extract_cells.
  destruct (Nat.leb_spec 4 (cells r)); [lia | reflexivity].
Qed.

(** A row with its date element and its link binds both locals. *)
Lemma extract_cells_full (r : Row) (l : locals) (t n : str) :
  4 <= cells r -> date_text r = Some t -> link_text r = Some n ->
  extract_cells r l = (mkLocals (Some (strip t)) (Some (strip n)), None).
Proof.
  intros H Ht Hn. unfold extract_cells.
  destruct (Nat.leb_spec 4 (cells r)); [ | lia].
  now rewrite Ht, Hn.
Qed.

(** A row with a missing element is skipped: nothing is appended and
    the row's handler logs a warning. *)
Lemma process_row_missing_element (i : nat) (r : Row) (st : loop_state) :
  4 <= cells r -> date_text r = None \/ link_text r = None ->
  cases_data (process_row inn i r st) = cases_data st.
Proof.
  intros H Hm. unfold process_row, extract_cells.
  destruct (Nat.leb_spec 4 (cells r)); [ | lia].
  destruct (date_text r) as [t|]; [ | reflexivity].
  destruct (link_text r) as [n|]; [ | reflexivity].
  destruct Hm; discriminate.
Qed.

(** A short row that comes first is skipped: the locals are not bound
    yet. *)
Lemma process_row_short_first (i : nat) (r : Row) (data : list case)
      (tr : list Scraper.event) :
  cells r < 4 ->
  cases_data (process_row inn i r (mkLoop data (mkLocals None None) tr)) = data.
Proof.
  intros H. unfold process_row. rewrite extract_cells_short by assumption.
  reflexivity.
Qed.

(** A short row that comes after a row that was read in full takes
    that row's date text and case number: the record is appended a
    second time. *)
Lemma process_row_short_after_full (i : nat) (r : Row) (data : list case)
      (tr : list Scraper.event) (ds cn : str) (d : date) :
  cells r < 4 -> strptime_dmY ds = Some d -> cn <> [] ->
  cases_data (process_row inn i r (mkLoop data (mkLocals (Some ds) (Some cn)) tr))
  = data ++ [mkCase cn (Some (strftime_Ymd d)) inn].
Proof.
  intros H Hd Hcn. unfold process_row. rewrite extract_cells_short by assumption.
  cbn [vars cases_data]. unfold parse_and_append. cbn [v_case_date_str v_case_number].
  rewrite Hd, strftime_truthy.
  destruct cn as [|c cn']; [congruence | ].
  reflexivity.
Qed.

End RowLoop.

(** *** C1: a row whose date text does not parse *)

(** C1, as the code has it.  For every row of at least four cells whose
    date element and case link are found and whose date text does not
    parse as day.month.year, the loop body logs the warning and goes on
    to the next row, and it appends no record for the row: the append is
    guarded by [if case_number and case_date] and [case_date] is None. *)
Theorem unparsable_date_row_logged_and_not_appended
        (inn : str) (max_results : Z) (i : nat) (r : Row) (rest : list Row)
        (st : loop_state) (t n : str) :
  4 <= cells r ->
  date_text r = Some t ->
  link_text r = Some n ->
  strptime_dmY (strip t) = None ->
  (Z.of_nat (List.length (cases_data st)) < max_results)%Z ->
  cases_data (process_row inn i r st) = cases_data st
  /\ trace (process_row inn i r st)
     = trace st ++ [Log WARNING (LogDateUnparsable (strip t) (strip n))]
  /\ scrape_rows inn max_results i (r :: rest) st
     = scrape_rows inn max_results (S i) rest (process_row inn i r st).
Proof.
  intros Hc Ht Hn Hp Hmax.
  assert (Hrow : process_row inn i r st
                 = mkLoop (cases_data st)
                          (mkLocals (Some (strip t)) (Some (strip n)))
                          (trace st ++ [Log WARNING (LogDateUnparsable (strip t) (strip n))])).
  { unfold process_row. rewrite (extract_cells_full r (vars st) t n Hc Ht Hn).
    unfold parse_and_append. cbn [v_case_date_str v_case_number].
    now rewrite Hp. }
  rewrite Hrow. cbn [cases_data trace]. repeat split.
  cbn [scrape_rows].
  destruct (Z.geb_spec (Z.of_nat (List.length (cases_data st))) max_results);
    [lia | now rewrite Hrow].
Qed.

Lemma unparsable_date_row_witness :
  cases_data (process_row inn10 0 row_bad_date (mkLoop [] (mkLocals None None) [])) = []
  /\ trace (process_row inn10 0 row_bad_date (mkLoop [] (mkLocals None None) []))
     = [] ++ [Log WARNING (LogDateUnparsable (strip (py "31.02.2023"))
                                             (strip (py "A12-34/2023")))]
  /\ scrape_rows inn10 10 0 (row_bad_date :: [row_16]) (mkLoop [] (mkLocals None None) [])
     = scrape_rows inn10 10 1 [row_16]
         (process_row inn10 0 row_bad_date (mkLoop [] (mkLocals None None) [])).
Proof.
  apply (unparsable_date_row_logged_and_not_appended
           inn10 10%Z 0 row_bad_date [row_16]
           (mkLoop [] (mkLocals None None) [])
           (py "31.02.2023") (py "A12-34/2023")).
  - simpl. lia.
  - reflexivity.
  - reflexivity.
  - reflexivity.
  - simpl. lia.
Defined.

(** C1 as stated fails: on a page whose only row carries the date text
    31.02.2023 the call returns the empty list, not a record with a null
    date. *)
Lemma unparsable_date_record_not_retained :
  strptime_dmY (strip (py "31.02.2023")) = None
  /\ scraped (scrape_arbitr_cases new_scraper fresh_browser (page [row_bad_date])
                                  inn10 default_max_results) = []
  /\ ~ In (mkCase (py "A12-34/2023") None inn10)
          (scraped (scrape_arbitr_cases new_scraper fresh_browser
                                        (page [row_bad_date]) inn10
                                        default_max_results)).
Proof.
  split; [reflexivity | ].
  assert (H : scraped (scrape_arbitr_cases new_scraper fresh_browser
                         (page [row_bad_date]) inn10 default_max_results) = [])
    by reflexivity.
  split; [exact H | ]. rewrite H. intros [].
Qed.

(** *** C4: rows that are not data rows *)

(** C4 at the page of the scenario, the row in the middle having three
    cells: the call returns three records, the first one twice.  The
    date parsing and the append stand after the [if len(cells) >= 4]
    block, not inside it, and read the locals the first row left. *)
Theorem short_row_repeats_previous_record :
  scraped (scrape_arbitr_cases new_scraper fresh_browser
                               (page [row_15; row_short; row_16]) inn10
                               default_max_results)
  = [case_15; case_15; case_16].
Proof. reflexivity. Qed.

(** The same page with a middle row that lacks its case link gives the
    two records of the scenario. *)
Example missing_link_row_skipped :
  scraped (scrape_arbitr_cases new_scraper fresh_browser
                               (page [row_15; row_no_link; row_16]) inn10
                               default_max_results)
  = [case_15; case_16].
Proof. reflexivity. Qed.

(** *** C6: one session per call *)

Lemma not_live_after_quit (w : browser) (sid : nat) :
  is_live (quit_session w sid) sid = false.
Proof.
  unfold is_live, quit_session. cbn [live_sessions].
  induction (live_sessions w) as [|s l IH]; [reflexivity | ].
  cbn [filter]. destruct (Nat.eqb_spec sid s) as [->|Hne]; cbn [negb].
  - exact IH.
  - cbn [existsb]. destruct (Nat.eqb_spec sid s); [contradiction | exact IH].
Qed.

Lemma scrape_with_driver_browser (sid : nat) (w : browser) (e : Scraper.env)
      (inn : str) (m : Z) :
  snd (fst (scrape_with_driver sid w e inn m)) = quit_session w sid.
Proof.
  unfold scrape_with_driver.
  destruct (response w sid e) as [stg f | rows]; reflexivity.
Qed.

(** On a session that is not live the call returns the empty list after
    the failed [driver.get]. *)
Lemma scrape_with_dead_driver (sid : nat) (w : browser) (e : Scraper.env)
      (inn : str) (m : Z) :
  is_live w sid = false ->
  scrape_with_driver sid w e inn m
  = ([], quit_session w sid,
     [Get sid false; outer_handler closed_session_fault; Quit sid;
      Log INFO LogDriverClosed]).
Proof.
  intros H. unfold scrape_with_driver, response. rewrite H. reflexivity.
Qed.

(** The row loop starts no session. *)
Lemma scrape_rows_starts_no_session (inn : str) (m : Z) (rows : list Row) :
  forall (i : nat) (st : loop_state),
    acquisitions (trace st) = 0 ->
    acquisitions (trace (scrape_rows inn m i rows st)) = 0.
Proof.
  induction rows as [|r rows IH]; intros i st H; cbn [scrape_rows]; [exact H | ].
  destruct (Z.of_nat (List.length (cases_data st)) >=? m)%Z; [exact H | ].
  apply IH. unfold process_row.
  destruct (extract_cells r (vars st)) as [l1 [x|]].
  - cbn [trace]. unfold acquisitions in *. rewrite filter_app, length_app, H.
    destruct x; reflexivity.
  - destruct (parse_and_append inn l1 (cases_data st)) as [[d logs] ox] eqn:Ep.
    assert (Hl : acquisitions logs = 0).
    { unfold parse_and_append in Ep.
      destruct (v_case_date_str l1) as [ds|]; [ | inversion Ep; reflexivity].
      destruct (strptime_dmY ds) as [dt|]; destruct (v_case_number l1) as [cn|];
        try (inversion Ep; reflexivity).
      destruct (truthy cn && truthy (strftime_Ymd dt)); inversion Ep; reflexivity. }
    unfold acquisitions in *.
    destruct ox as [x|]; cbn [trace];
      rewrite ?filter_app, ?length_app, H, Hl; [destruct x | ]; reflexivity.
Qed.

(** Sessions are started by [_initialize_webdriver] only: the page
    interaction starts none. *)
Lemma scrape_with_driver_starts_no_session (sid : nat) (w : browser)
      (e : Scraper.env) (inn : str) (m : Z) :
  acquisitions (snd (scrape_with_driver sid w e inn m)) = 0.
Proof.
  unfold scrape_with_driver.
  destruct (response w sid e) as [stg f | rows]; cbn [snd].
  - destruct stg, f; reflexivity.
  - unfold acquisitions. cbn [get_event app filter].
    rewrite filter_app, length_app. cbn [filter List.length]. rewrite Nat.add_0_r.
    now apply scrape_rows_starts_no_session.
Qed.

(** The first call on a new object, the browser starting. *)
Lemma first_call_on_new_scraper (w : browser) (site1 : site_response)
      (inn : str) (m : Z) :
  scrape_arbitr_cases new_scraper w (mkEnv true site1) inn m
  = (let '(data, w', evs) :=
         scrape_with_driver (next_session w) (snd (start_session w))
                            (mkEnv true site1) inn m in
     (data, mkScraper (Some (next_session w)), w',
      [Acquire (next_session w); Log INFO LogDriverInitialised] ++ evs)).
Proof. reflexivity. Qed.

(** C6 at two calls in a row on one instance, whatever the site would
    answer and with a browser that starts both times.  The first call
    starts a session and quits it, and leaves [self.driver] set to it:
    [quit()] is not followed by [self.driver = None].  The second call
    finds [self.driver] set, starts no session, fails at [driver.get]
    on the session that was quit, returns the empty list and queries
    nothing. *)
Theorem second_call_reuses_closed_session
        (w : browser) (site1 site2 : site_response) (inn : str) (m : Z) :
  let first := scrape_arbitr_cases new_scraper w (mkEnv true site1) inn m in
  let self1 := scraper_after first in
  let w1 := browser_after first in
  let second := scrape_arbitr_cases self1 w1 (mkEnv true site2) inn m in
  acquisitions (scrape_events first) = 1
  /\ driver self1 = Some (next_session w)
  /\ is_live w1 (next_session w) = false
  /\ scraped second = []
  /\ acquisitions (scrape_events second) = 0
  /\ live_queries (scrape_events second) = 0
  /\ scrape_events second
     = [Get (next_session w) false; outer_handler closed_session_fault;
        Quit (next_session w); Log INFO LogDriverClosed].
Proof.
  cbv zeta.
  rewrite (first_call_on_new_scraper w site1 inn m).
  pose proof (scrape_with_driver_browser (next_session w) (snd (start_session w))
                                         (mkEnv true site1) inn m) as Hw.
  pose proof (scrape_with_driver_starts_no_session
                (next_session w) (snd (start_session w))
                (mkEnv true site1) inn m) as Hacq.
  destruct (scrape_with_driver (next_session w) (snd (start_session w))
                               (mkEnv true site1) inn m)
    as [[data w'] evs].
  cbn [fst snd] in Hw, Hacq. subst w'.
  unfold scraped, scraper_after, browser_after, scrape_events. cbn [fst snd].
  assert (Hdead := not_live_after_quit (snd (start_session w)) (next_session w)).
  unfold scrape_arbitr_cases. cbn [driver].
  rewrite (scrape_with_dead_driver _ _ _ _ _ Hdead). cbn [fst snd].
  repeat split; try reflexivity; try assumption.
  unfold acquisitions in *. cbn [app filter List.length]. now rewrite Hacq.
Qed.

(** *** C5: inserting a case number twice *)

Lemma str_eqb_eq (a b : str) : str_eqb a b = true <-> a = b.
Proof.
  unfold str_eqb. destruct (list_eq_dec N.eq_dec a b); split; congruence.
Qed.

Lemma str_eqb_refl (a : str) : str_eqb a a = true.
Proof. now apply str_eqb_eq. Qed.

Lemma has_case_In (t : table) (cn : str) :
  has_case t cn = true <-> In cn (List.map r_case_number t).
Proof.
  unfold has_case. rewrite existsb_exists, in_map_iff. split.
  - intros [r [Hr He]]. exists r. apply str_eqb_eq in He. now split.
  - intros [r [He Hr]]. exists r. split; [assumption | now apply str_eqb_eq].
Qed.

Lemma rows_with_absent (t : table) (cn : str) :
  has_case t cn = false -> rows_with cn t = [].
Proof.
  unfold has_case, rows_with. induction t as [|r t IH]; [reflexivity | ].
  cbn [existsb filter]. intros H. apply orb_false_iff in H as [H1 H2].
  rewrite H1. now apply IH.
Qed.

Lemma rows_with_unique (t : table) (cn : str) :
  unique_case_numbers t -> has_case t cn = true ->
  List.length (rows_with cn t) = 1.
Proof.
  unfold unique_case_numbers. induction t as [|r t IH]; [discriminate | ].
  cbn [List.map]. intros Hnd Hin. inversion Hnd as [|x l Hnotin Hnd']. subst.
  unfold rows_with. cbn [filter].
  destruct (str_eqb (r_case_number r) cn) eqn:E.
  - apply str_eqb_eq in E. subst cn. cbn [List.length]. f_equal.
    assert (Hno : has_case t (r_case_number r) = false).
    { destruct (has_case t (r_case_number r)) eqn:Hc; [ | reflexivity].
      apply has_case_In in Hc. contradiction. }
    apply rows_with_absent in Hno. unfold rows_with in Hno. now rewrite Hno.
  - apply IH; [assumption | ].
    unfold has_case in *. cbn [existsb] in Hin. now rewrite E in Hin.
Qed.

Lemma insert_keeps_unique (t : table) (r : db_row) :
  unique_case_numbers t ->
  unique_case_numbers (insert_on_conflict_do_nothing t r).
Proof.
  unfold insert_on_conflict_do_nothing, unique_case_numbers. intros H.
  destruct (has_case t (r_case_number r)) eqn:E; [assumption | ].
  rewrite map_app. cbn [List.map].
  assert (Hn : ~ In (r_case_number r) (List.map r_case_number t)).
  { intros Hin. apply has_case_In in Hin. congruence. }
  clear E. induction (List.map r_case_number t) as [|x l IH].
  - constructor; [intros [] | constructor].
  - inversion H; subst. cbn [app]. constructor.
    + rewrite in_app_iff. intros [Hx | [Hx | []]]; [contradiction | ].
      apply Hn. left. congruence.
    + apply IH; [assumption | ]. intros Hin. apply Hn. now right.
Qed.

Lemma insert_has_case (t : table) (r : db_row) :
  has_case (insert_on_conflict_do_nothing t r) (r_case_number r) = true.
Proof.
  unfold insert_on_conflict_do_nothing.
  destruct (has_case t (r_case_number r)) eqn:E; [assumption | ].
  unfold has_case. rewrite existsb_app. cbn [existsb].
  rewrite str_eqb_refl. now rewrite orb_true_r.
Qed.

(** The server takes the query exactly when nothing fails and the
    driver can send the parameters. *)
Lemma raised_in_try_not_answered (x : exception) : raised_in_try x <> Answered.
Proof.
  unfold raised_in_try.
  destruct (is_operational_error x), (is_error x); discriminate.
Qed.

Lemma execute_answered (f : db_fault) (perr : option exception) :
  execute f perr = Answered <-> f = NoFault /\ perr = None.
Proof.
  split.
  - unfold execute, _get_connection. destruct f as [|x|x].
    + destruct perr as [y|]; [ | now split].
      intros H. now apply raised_in_try_not_answered in H.
    + destruct (is_operational_error x); [discriminate | ].
      intros H. now apply raised_in_try_not_answered in H.
    + destruct perr as [y|]; intros H;
        now apply raised_in_try_not_answered in H.
  - intros [-> ->]. reflexivity.
Qed.

(** What [insert_case] does when the server answers and can store the
    arguments. *)
Lemma insert_case_answered (self : DBManager) (t : table) (cn : str)
      (cd : option str) (q : str) :
  storable self cn cd q = true ->
  exists d, stored_date self cd = Some d
            /\ insert_case self NoFault t cn cd q
               = (Returns true, insert_on_conflict_do_nothing t (mkDbRow cn d q)).
Proof.
  unfold storable, date_accepted, insert_case, stored_date, execute.
  destruct (params_error self (insert_params cn cd q)); [discriminate | ].
  destruct cd as [s|].
  - destruct (db_date_in self s) as [d|]; [ | discriminate].
    intros _. now exists (Some d).
  - intros _. now exists None.
Qed.

(** C5, as the code has it.  On a table that respects the unique
    constraint, when the server answers both calls and both calls carry
    values it can store (text the driver can send and a date argument
    that is None or text the DATE column takes), two [insert_case]
    calls with one case number, whatever the other two values of the
    second call, leave exactly one row with that case number; both
    calls return True and the second changes nothing. *)
Theorem insert_case_twice_one_row
        (self : DBManager) (t : table) (cn : str) (cd1 cd2 : option str)
        (inn1 inn2 : str) :
  unique_case_numbers t ->
  storable self cn cd1 inn1 = true ->
  storable self cn cd2 inn2 = true ->
  let first := insert_case self NoFault t cn cd1 inn1 in
  let second := insert_case self NoFault (snd first) cn cd2 inn2 in
  fst first = Returns true
  /\ fst second = Returns true
  /\ snd second = snd first
  /\ List.length (rows_with cn (snd second)) = 1
  /\ unique_case_numbers (snd second).
Proof.
  intros Hu H1 H2. cbv zeta.
  destruct (insert_case_answered self t cn cd1 inn1 H1) as [d1 [_ E1]]. rewrite E1.
  cbn [fst snd].
  set (t1 := insert_on_conflict_do_nothing t (mkDbRow cn d1 inn1)).
  destruct (insert_case_answered self t1 cn cd2 inn2 H2) as [d2 [_ E2]]. rewrite E2.
  cbn [fst snd].
  assert (Hhas : has_case t1 cn = true)
    by exact (insert_has_case t (mkDbRow cn d1 inn1)).
  assert (Hsame : insert_on_conflict_do_nothing t1 (mkDbRow cn d2 inn2) = t1).
  { unfold insert_on_conflict_do_nothing at 1. cbn [r_case_number]. now rewrite Hhas. }
  rewrite Hsame.
  assert (Hu1 : unique_case_numbers t1) by now apply insert_keeps_unique.
  repeat split; try assumption.
  now apply rows_with_unique.
Qed.

Lemma insert_case_twice_witness :
  let first := insert_case sample_db NoFault [] (py "CASE-001")
                           (Some (py "2023-01-15")) (py "1234567890") in
  let second := insert_case sample_db NoFault (snd first) (py "CASE-001")
                            (Some (py "2024-02-29")) (py "0987654321") in
  fst first = Returns true
  /\ fst second = Returns true
  /\ snd second = snd first
  /\ List.length (rows_with (py "CASE-001") (snd second)) = 1
  /\ unique_case_numbers (snd second).
Proof.
  apply (insert_case_twice_one_row sample_db [] (py "CASE-001")
           (Some (py "2023-01-15")) (Some (py "2024-02-29"))
           (py "1234567890") (py "0987654321")).
  - constructor.
  - reflexivity.
  - reflexivity.
Defined.

(** C5 as stated fails in three places.  With a date text the server
    does not read as a date both calls return False and no row with
    the case number is there.  When the connection fails at the second
    call, that call returns False.  And with U+0000 in a value the
    driver raises ValueError, which [insert_case] does not catch. *)
Lemma insert_case_twice_can_fail :
  (let first := insert_case sample_db NoFault [] (py "CASE-001")
                            (Some (py "not a date")) (py "1234567890") in
   let second := insert_case sample_db NoFault (snd first) (py "CASE-001")
                             (Some (py "not a date")) (py "1234567890") in
   fst second = Returns false /\ rows_with (py "CASE-001") (snd second) = [])
  /\ (let first := insert_case sample_db NoFault [] (py "CASE-001")
                               (Some (py "2023-01-15")) (py "1234567890") in
      fst first = Returns true
      /\ fst (insert_case sample_db (ConnectFail (Psycopg2 OperationalError))
                          (snd first) (py "CASE-001")
                          (Some (py "2023-01-15")) (py "1234567890"))
         = Returns false)
  /\ insert_case sample_db NoFault [] (py "CASE-001") None [0%N]
     = (Raises ValueError, []).
Proof. repeat split; reflexivity. Qed.

(** *** C10: database faults in the readers *)

(** An error of the database driver is taken by the [except] clauses
    of a method. *)
Lemma error_is_caught (x : exception) :
  is_error x = true -> raised_in_try x = Caught.
Proof.
  intros H. unfold raised_in_try. rewrite H.
  now destruct (is_operational_error x).
Qed.

(** When a database fault occurs, the [try] block of a method ends
    without a connection or in one of its [except] clauses. *)
Lemma fault_occurs_cases (f : db_fault) (perr : option exception) :
  database_fault_occurs f perr = true ->
  execute f perr = NotConnected \/ execute f perr = Caught.
Proof.
  unfold database_fault_occurs, execute, _get_connection.
  destruct f as [|x|x]; [discriminate | | ].
  - intros H. destruct (is_operational_error x); [now left | right].
    now apply error_is_caught.
  - intros H. apply andb_true_iff in H as [Hx Hp].
    destruct perr; [discriminate | right]. now apply error_is_caught.
Qed.

(** If a database fault occurs in a query with parameters, it occurs
    in a query without them as well. *)
Lemma fault_occurs_without_parameters (f : db_fault) (perr : option exception) :
  database_fault_occurs f perr = true -> database_fault_occurs f None = true.
Proof.
  unfold database_fault_occurs. destruct f as [|x|x]; try tauto.
  intros H. apply andb_true_iff in H as [-> _]. reflexivity.
Qed.

(** The events of [filter_cases] when the reader returns the empty
    list. *)
Lemma filter_cases_nothing_found (app : ApplicationLogic) (self : DBManager)
      (f : db_fault) (t : table) (cnf innf sd ed : option str) :
  get_filtered_cases_as_dicts self f t cnf innf sd ed = Returns [] ->
  filter_cases app self f t cnf innf sd ed
  = _update_status app MsgFiltering INFO
      ++ [DbGetFiltered]
      ++ _update_status app (MsgFilterFound 0) INFO
      ++ (if gui_results_updater app then [GuiResults []] else []).
Proof. intros E. unfold filter_cases. now rewrite E. Qed.

(** C10.  When a database fault occurs in a reader, a connection
    failure or the failure of the query that was sent, each with an
    exception of the classes below [psycopg2.Error], the [except]
    clauses of [_get_connection] and of the reader take it and the
    reader returns the empty list, which is what it returns for an
    empty table;
    [filter_cases] then does exactly what it does for an empty table:
    it reports that 0 cases were found, hands the empty list to the
    results table, and its own [except Exception] clause with the
    filter-error message is not entered. *)
Theorem reader_fault_looks_like_empty_table
        (app : ApplicationLogic) (self : DBManager) (f : db_fault) (t : table)
        (cnf innf sd ed : option str) :
  database_fault_occurs f (params_error self (filter_params cnf innf sd ed))
  = true ->
  let evs := filter_cases app self f t cnf innf sd ed in
  get_all_cases_as_dicts f t = Returns []
  /\ get_all_cases_as_dicts NoFault [] = Returns []
  /\ get_filtered_cases_as_dicts self f t cnf innf sd ed = Returns []
  /\ (params_error self (filter_params cnf innf sd ed) = None ->
      get_filtered_cases_as_dicts self NoFault [] cnf innf sd ed = Returns []
      /\ filter_cases app self NoFault [] cnf innf sd ed = evs)
  /\ In (AppLog INFO (MsgFilterFound 0)) evs
  /\ (gui_status_updater app = true -> In (GuiStatus (MsgFilterFound 0)) evs)
  /\ (gui_results_updater app = true -> In (GuiResults []) evs)
  /\ existsb is_filter_error_report evs = false.
Proof.
  intros Hf. cbv zeta.
  assert (Hall : get_all_cases_as_dicts f t = Returns []).
  { unfold get_all_cases_as_dicts.
    destruct (fault_occurs_cases f None
                (fault_occurs_without_parameters f _ Hf)) as [-> | ->];
      reflexivity. }
  assert (Hflt : get_filtered_cases_as_dicts self f t cnf innf sd ed = Returns []).
  { unfold get_filtered_cases_as_dicts.
    destruct (fault_occurs_cases f _ Hf) as [-> | ->]; reflexivity. }
  rewrite (filter_cases_nothing_found app self f t cnf innf sd ed Hflt).
  split; [exact Hall | ]. split; [reflexivity | ]. split; [exact Hflt | ].
  split; [ | unfold _update_status;
             destruct (gui_status_updater app), (gui_results_updater app);
             cbn; repeat split; intros; try discriminate; tauto].
  intros Hp.
  assert (Hemp : get_filtered_cases_as_dicts self NoFault [] cnf innf sd ed
                 = Returns []).
  { unfold get_filtered_cases_as_dicts, execute. rewrite Hp. cbn.
    destruct (is_bad (parse_bound self sd) || is_bad (parse_bound self ed));
      reflexivity. }
  split; [exact Hemp | ].
  exact (filter_cases_nothing_found app self NoFault [] cnf innf sd ed Hemp).
Qed.

Lemma reader_fault_witness :
  let evs := filter_cases wired sample_db (QueryFail (Psycopg2 ProgrammingError))
                          jan_table (Some (py "A12")) None None None in
  get_all_cases_as_dicts (QueryFail (Psycopg2 ProgrammingError)) jan_table
  = Returns []
  /\ get_all_cases_as_dicts NoFault [] = Returns []
  /\ get_filtered_cases_as_dicts sample_db (QueryFail (Psycopg2 ProgrammingError))
                                 jan_table (Some (py "A12")) None None None
     = Returns []
  /\ (params_error sample_db (filter_params (Some (py "A12")) None None None) = None ->
      get_filtered_cases_as_dicts sample_db NoFault []
                                  (Some (py "A12")) None None None = Returns []
      /\ filter_cases wired sample_db NoFault [] (Some (py "A12")) None None None
         = evs)
  /\ In (AppLog INFO (MsgFilterFound 0)) evs
  /\ (gui_status_updater wired = true -> In (GuiStatus (MsgFilterFound 0)) evs)
  /\ (gui_results_updater wired = true -> In (GuiResults []) evs)
  /\ existsb is_filter_error_report evs = false.
Proof.
  apply (reader_fault_looks_like_empty_table wired sample_db
           (QueryFail (Psycopg2 ProgrammingError)) jan_table
           (Some (py "A12")) None None None).
  reflexivity.
Defined.

(** The server cannot be reached: [_get_connection] catches the
    OperationalError and returns None, and the readers return the
    empty list. *)
Example readers_without_connection :
  _get_connection (ConnectFail (Psycopg2 OperationalError)) = Returns false
  /\ get_all_cases_as_dicts (ConnectFail (Psycopg2 OperationalError)) jan_table
     = Returns []
  /\ get_filtered_cases_as_dicts sample_db (ConnectFail (Psycopg2 OperationalError))
                                 jan_table None None None None
     = Returns [].
Proof. repeat split; reflexivity. Qed.

(** What the [except] clauses of the readers do not take, an exception
    that is no [psycopg2.Error] (of a type caster, say) or a filter
    text the driver cannot send, leaves the reader, and [filter_cases]
    reports the filter error instead of a count. *)
Example reader_exception_is_a_filter_error :
  get_all_cases_as_dicts (QueryFail ValueError) jan_table = Raises ValueError
  /\ get_filtered_cases_as_dicts sample_db NoFault jan_table
                                 (Some [65%N; 0%N]) None None None
     = Raises ValueError
  /\ filter_cases wired sample_db NoFault jan_table (Some [65%N; 0%N]) None None None
     = [GuiStatus MsgFiltering; AppLog INFO MsgFiltering; DbGetFiltered;
        GuiStatus MsgFilterError; AppLog ERROR MsgFilterError].
Proof. repeat split; reflexivity. Qed.

(** *** The coordinator: shared facts *)

Lemma update_status_no_persistence (app : ApplicationLogic) (m : status_msg)
      (lvl : level) :
  existsb is_persistence (_update_status app m lvl) = false.
Proof. unfold _update_status. now destruct (gui_status_updater app). Qed.

Lemma update_status_no_scrape_no_db (app : ApplicationLogic) (m : status_msg)
      (lvl : level) :
  existsb (fun ev => is_scrape ev || is_db ev) (_update_status app m lvl) = false.
Proof. unfold _update_status. now destruct (gui_status_updater app). Qed.

(** Whatever step of the page interaction raises, and whatever it
    raises, the call returns the empty list. *)
Lemma scrape_fault_returns_empty (self : ArbitrScraper) (w : browser)
      (cs : bool) (stg : stage) (f : fault) (inn : str) (m : Z) :
  scraped (scrape_arbitr_cases self w (mkEnv cs (SiteFault stg f)) inn m) = [].
Proof.
  unfold scrape_arbitr_cases, scraped.
  assert (H : forall sid w0,
             fst (fst (scrape_with_driver sid w0 (mkEnv cs (SiteFault stg f)) inn m)) = []).
  { intros sid w0. unfold scrape_with_driver, response. cbn [site].
    destruct (is_live w0 sid); reflexivity. }
  destruct (driver self) as [sid|].
  - specialize (H sid w).
    destruct (scrape_with_driver sid w (mkEnv cs (SiteFault stg f)) inn m) as [[d w'] evs].
    exact H.
  - unfold _initialize_webdriver. cbn [chrome_starts].
    destruct cs; [ | reflexivity].
    cbn [start_session driver].
    specialize (H (next_session w)
                  (mkBrowser (S (next_session w)) (next_session w :: live_sessions w))).
    destruct (scrape_with_driver (next_session w) _ _ inn m) as [[d w'] evs].
    exact H.
Qed.

(** A page without result rows gives the empty list as well. *)
Lemma scrape_no_rows_returns_empty (self : ArbitrScraper) (w : browser)
      (cs : bool) (inn : str) (m : Z) :
  scraped (scrape_arbitr_cases self w (mkEnv cs (SiteRows [])) inn m) = [].
Proof.
  unfold scrape_arbitr_cases, scraped.
  assert (H : forall sid w0,
             fst (fst (scrape_with_driver sid w0 (mkEnv cs (SiteRows [])) inn m)) = []).
  { intros sid w0. unfold scrape_with_driver, response. cbn [site].
    destruct (is_live w0 sid); reflexivity. }
  destruct (driver self) as [sid|].
  - specialize (H sid w).
    destruct (scrape_with_driver sid w (mkEnv cs (SiteRows [])) inn m) as [[d w'] evs].
    exact H.
  - unfold _initialize_webdriver. cbn [chrome_starts].
    destruct cs; [ | reflexivity].
    cbn [start_session driver].
    specialize (H (next_session w)
                  (mkBrowser (S (next_session w)) (next_session w :: live_sessions w))).
    destruct (scrape_with_driver (next_session w) _ _ inn m) as [[d w'] evs].
    exact H.
Qed.

(** [start_scraping] on an accepted ID when the scraper returns the
    empty list. *)
Lemma start_scraping_nothing_scraped (app : ApplicationLogic) (w : world)
      (e : run_env) (inn : str) :
  inn_rejected inn = false ->
  scraped (scrape_arbitr_cases (w_scraper w) (w_browser w) (scrape_env e)
                               inn default_max_results) = [] ->
  let call := scrape_arbitr_cases (w_scraper w) (w_browser w) (scrape_env e)
                                  inn default_max_results in
  start_scraping app w e inn
  = (mkWorld (scraper_after call) (browser_after call) (w_db_manager w) (w_db w),
     (_update_status app (MsgStarting inn) INFO
        ++ _update_status app MsgScrapingBegins INFO
        ++ [ScrapeCall inn (scrape_events call)])
       ++ _update_status app (MsgNoneFoundOrError inn) INFO
       ++ ((if gui_results_updater app
            then _update_status app MsgUpdatingTable INFO ++ [GuiResults []]
            else [])
           ++ _update_status app (MsgNothingToSave inn) INFO
           ++ _update_status app MsgDone INFO)).
Proof.
  intros Hv Hs. cbv zeta. unfold start_scraping. rewrite Hv.
  destruct (scrape_arbitr_cases (w_scraper w) (w_browser w) (scrape_env e)
                                inn default_max_results)
    as [[[cases s'] b'] sevs].
  unfold scraped in Hs. cbn [fst snd] in Hs. subst cases.
  unfold scraper_after, browser_after, scrape_events. cbn [fst snd].
  f_equal. now rewrite <- !app_assoc.
Qed.

(** [start_scraping] on an accepted ID when the scraper returns
    records. *)
Lemma start_scraping_some_scraped (app : ApplicationLogic) (w : world)
      (e : run_env) (inn : str) :
  inn_rejected inn = false ->
  scraped (scrape_arbitr_cases (w_scraper w) (w_browser w) (scrape_env e)
                               inn default_max_results) <> [] ->
  let call := scrape_arbitr_cases (w_scraper w) (w_browser w) (scrape_env e)
                                  inn default_max_results in
  let saved := save_cases (w_db_manager w) e (w_db w) (scraped call) in
  start_scraping app w e inn
  = (mkWorld (scraper_after call) (browser_after call) (w_db_manager w)
             (fst (fst saved)),
     (_update_status app (MsgStarting inn) INFO
        ++ _update_status app MsgScrapingBegins INFO
        ++ [ScrapeCall inn (scrape_events call)])
       ++ _update_status app (MsgFound (List.length (scraped call)) inn) INFO
       ++ ((if gui_results_updater app
            then _update_status app MsgUpdatingTable INFO
                   ++ [GuiResults (scraped call)]
            else [])
           ++ (_update_status app MsgSaving INFO ++ snd saved)
           ++ after_saving app (snd (fst saved)))).
Proof.
  intros Hv Hs. cbv zeta. unfold start_scraping. rewrite Hv.
  destruct (scrape_arbitr_cases (w_scraper w) (w_browser w) (scrape_env e)
                                inn default_max_results)
    as [[[cases s'] b'] sevs].
  unfold scraped, scraper_after, browser_after, scrape_events in *.
  cbn [fst snd] in *.
  destruct cases as [|c cases]; [congruence | ].
  destruct (save_cases (w_db_manager w) e (w_db w) (c :: cases)) as [[t n] devs].
  cbn [fst snd]. f_equal. unfold after_saving.
  destruct n; now rewrite <- !app_assoc, ?app_nil_r.
Qed.

(** Step 4 begins with [create_table]. *)
Lemma save_cases_begins (self : DBManager) (e : run_env) (t : table)
      (cases : list case) :
  exists r rest, snd (save_cases self e t cases) = DbCreateTable r :: rest.
Proof.
  unfold save_cases.
  destruct (create_table (script_exists e) (create_fault e)) as [b|x].
  - destruct (insert_all self (insert_faults e) t cases 0) as [[t' n] ievs].
    now eexists _, _.
  - now eexists _, _.
Qed.

(** *** C3: validation of the taxpayer ID *)

Lemma inn_rejected_cases (inn : str) :
  inn = []
  \/ (exists c, In c inn /\ isdigit_char c = false)
  \/ (len inn <> 10 /\ len inn <> 12) ->
  inn_rejected inn = true.
Proof.
  unfold inn_rejected. intros [H | [[c [Hin Hc]] | [H10 H12]]].
  - now subst inn.
  - assert (Hd : isdigit inn = false).
    { unfold isdigit. destruct inn as [|x inn']; [reflexivity | ].
      apply not_true_is_false. intros Hall.
      rewrite forallb_forall in Hall. specialize (Hall c Hin). congruence. }
    rewrite Hd. cbn [negb]. now rewrite orb_true_r.
  - destruct (Nat.eqb_spec (len inn) 10); [contradiction | ].
    destruct (Nat.eqb_spec (len inn) 12); [contradiction | ].
    cbn [orb negb]. now rewrite !orb_true_r.
Qed.

(** C3, as the code has it.  For every input that is empty, or has a
    character that [str.isdigit] does not take, or whose length is
    neither 10 nor 12, [start_scraping] reports the validation error
    and returns: the scraper is not called, no database operation is
    made, nothing changes. *)
Theorem invalid_inn_stops_before_scraping
        (app : ApplicationLogic) (w : world) (e : run_env) (inn : str) :
  inn = []
  \/ (exists c, In c inn /\ isdigit_char c = false)
  \/ (len inn <> 10 /\ len inn <> 12) ->
  start_scraping app w e inn
  = (w, _update_status app (MsgStarting inn) INFO
          ++ _update_status app MsgInvalidInn ERROR)
  /\ existsb (fun ev => is_scrape ev || is_db ev)
             (snd (start_scraping app w e inn)) = false.
Proof.
  intros H. apply inn_rejected_cases in H.
  assert (E : start_scraping app w e inn
              = (w, _update_status app (MsgStarting inn) INFO
                      ++ _update_status app MsgInvalidInn ERROR)).
  { unfold start_scraping. now rewrite H. }
  split; [exact E | ]. rewrite E. cbn [snd].
  now rewrite existsb_app, !update_status_no_scrape_no_db.
Qed.

Lemma invalid_inn_witness :
  start_scraping wired new_world (calm (page [row_15])) (py "12345")
  = (new_world, _update_status wired (MsgStarting (py "12345")) INFO
                  ++ _update_status wired MsgInvalidInn ERROR)
  /\ existsb (fun ev => is_scrape ev || is_db ev)
             (snd (start_scraping wired new_world (calm (page [row_15])) (py "12345")))
     = false.
Proof.
  apply (invalid_inn_stops_before_scraping wired new_world
           (calm (page [row_15])) (py "12345")).
  right. right. simpl. lia.
Defined.

(** C3 as stated fails: ten times the character superscript two is no
    string of decimal digits, and [isdigit] takes it; the validation
    lets it through and the scraper is called with it. *)
Lemma superscript_digits_reach_the_scraper :
  taxpayer_id_shape superscript_inn = false
  /\ forallb (fun c => negb (isdecimal_char c)) superscript_inn = true
  /\ inn_rejected superscript_inn = false
  /\ existsb is_validation_report
             (snd (start_scraping wired new_world (calm (page [row_15])) superscript_inn))
     = false
  /\ existsb is_scrape
             (snd (start_scraping wired new_world (calm (page [row_15])) superscript_inn))
     = true
  /\ existsb is_persistence
             (snd (start_scraping wired new_world (calm (page [row_15])) superscript_inn))
     = true.
Proof. repeat split; vm_compute; reflexivity. Qed.

(** *** C9: the count is reported before anything is saved *)

(** C9, as the code has it.  On an accepted ID, when the scraper
    returns N >= 1 records the count N is reported and no persistence
    operation comes before that report; when it returns none, the
    message is the one without a count ("no new cases found or an error
    occurred"), no count is reported and no persistence operation is
    made at all. *)
Theorem count_reported_before_persistence
        (app : ApplicationLogic) (w : world) (e : run_env) (inn : str) :
  inn_rejected inn = false ->
  let call := scrape_arbitr_cases (w_scraper w) (w_browser w) (scrape_env e)
                                  inn default_max_results in
  let evs := snd (start_scraping app w e inn) in
  match scraped call with
  | _ :: _ =>
      exists pre post,
        evs = pre ++ _update_status app (MsgFound (List.length (scraped call)) inn) INFO
                  ++ post
        /\ existsb is_persistence pre = false
        /\ existsb is_persistence post = true
  | [] =>
      existsb is_count_report evs = false
      /\ existsb is_persistence evs = false
      /\ exists pre post,
          evs = pre ++ _update_status app (MsgNoneFoundOrError inn) INFO ++ post
  end.
Proof.
  intros Hv. cbv zeta.
  destruct (scraped (scrape_arbitr_cases (w_scraper w) (w_browser w) (scrape_env e)
                                         inn default_max_results)) as [|c cases] eqn:Es.
  - rewrite (start_scraping_nothing_scraped app w e inn Hv Es). cbn [snd].
    repeat split.
    + unfold _update_status.
      destruct (gui_status_updater app), (gui_results_updater app); reflexivity.
    + unfold _update_status.
      destruct (gui_status_updater app), (gui_results_updater app); reflexivity.
    + eexists _, _. reflexivity.
  - assert (Hne : scraped (scrape_arbitr_cases (w_scraper w) (w_browser w)
                             (scrape_env e) inn default_max_results) <> [])
      by (rewrite Es; discriminate).
    rewrite (start_scraping_some_scraped app w e inn Hv Hne). cbn [snd].
    rewrite Es.
    eexists _, _. split; [reflexivity | ]. split.
    + rewrite !existsb_app, !update_status_no_persistence. reflexivity.
    + destruct (save_cases_begins (w_db_manager w) e (w_db w) (c :: cases))
        as [r [rest Eb]].
      rewrite Eb, !existsb_app. cbn [existsb is_persistence orb].
      now rewrite !orb_true_r.
Qed.

Lemma count_reported_witness :
  let call := scrape_arbitr_cases (w_scraper new_world) (w_browser new_world)
                (scrape_env (calm (page [row_15; row_16]))) inn10 default_max_results in
  let evs := snd (start_scraping wired new_world (calm (page [row_15; row_16])) inn10) in
  match scraped call with
  | _ :: _ =>
      exists pre post,
        evs = pre ++ _update_status wired (MsgFound (List.length (scraped call)) inn10) INFO
                  ++ post
        /\ existsb is_persistence pre = false
        /\ existsb is_persistence post = true
  | [] =>
      existsb is_count_report evs = false
      /\ existsb is_persistence evs = false
      /\ exists pre post,
          evs = pre ++ _update_status wired (MsgNoneFoundOrError inn10) INFO ++ post
  end.
Proof.
  apply (count_reported_before_persistence wired new_world
           (calm (page [row_15; row_16])) inn10).
  reflexivity.
Defined.

(** C9 as stated fails for N = 0: the site answers with a page that
    lists no rows, the scraper returns zero records, and no count is
    reported, neither on screen nor in the log. *)
Lemma zero_records_no_count_reported :
  scraped (scrape_arbitr_cases new_scraper fresh_browser (page [])
                               inn10 default_max_results) = []
  /\ live_queries (scrape_events
                     (scrape_arbitr_cases new_scraper fresh_browser (page [])
                                          inn10 default_max_results)) = 1
  /\ existsb is_count_report
             (snd (start_scraping wired new_world (calm (page [])) inn10)) = false
  /\ ~ In (GuiStatus (MsgFound 0 inn10))
          (snd (start_scraping wired new_world (calm (page [])) inn10)).
Proof.
  repeat split; try reflexivity.
  vm_compute. intuition discriminate.
Qed.

(** *** C2: a timeout during scraping *)

(** C2 at every timeout.  Whatever bounded wait (or other step) raises
    TimeoutException, [scrape_arbitr_cases] catches it and returns the
    empty list, the same value it returns for a page without rows; so
    [start_scraping] goes down the path of an empty result: it reports
    "no new cases found or an error occurred", never the
    source-unavailable message of its [except TimeoutException] clause,
    and makes no persistence operation. *)
Theorem timeout_is_reported_as_nothing_found
        (app : ApplicationLogic) (w : world) (cs : bool) (stg : stage)
        (se : bool) (cf : db_fault) (ifs : list db_fault) (inn : str) :
  inn_rejected inn = false ->
  let timed_out := mkEnv cs (SiteFault stg TimeoutException) in
  let no_rows := mkEnv cs (SiteRows []) in
  let run := start_scraping app w (mkRunEnv timed_out se cf ifs) inn in
  scraped (scrape_arbitr_cases (w_scraper w) (w_browser w) timed_out
                               inn default_max_results)
  = scraped (scrape_arbitr_cases (w_scraper w) (w_browser w) no_rows
                                 inn default_max_results)
  /\ scraped (scrape_arbitr_cases (w_scraper w) (w_browser w) timed_out
                                  inn default_max_results) = []
  /\ (exists pre post,
         snd run = pre ++ _update_status app (MsgNoneFoundOrError inn) INFO ++ post)
  /\ existsb is_site_unavailable_report (snd run) = false
  /\ existsb is_persistence (snd run) = false
  /\ w_db (fst run) = w_db w.
Proof.
  intros Hv. cbv zeta.
  pose proof (scrape_fault_returns_empty (w_scraper w) (w_browser w) cs stg
                TimeoutException inn default_max_results) as Hf.
  pose proof (scrape_no_rows_returns_empty (w_scraper w) (w_browser w) cs
                inn default_max_results) as Hn.
  split; [now rewrite Hf, Hn | ]. split; [exact Hf | ].
  rewrite (start_scraping_nothing_scraped app w
             (mkRunEnv (mkEnv cs (SiteFault stg TimeoutException)) se cf ifs)
             inn Hv Hf).
  cbn [fst snd w_db]. repeat split.
  - eexists _, _. reflexivity.
  - unfold _update_status.
    destruct (gui_status_updater app), (gui_results_updater app); reflexivity.
  - unfold _update_status.
    destruct (gui_status_updater app), (gui_results_updater app); reflexivity.
Qed.

Lemma timeout_witness :
  let timed_out := mkEnv true (SiteFault StWaitResults TimeoutException) in
  let no_rows := mkEnv true (SiteRows []) in
  let run := start_scraping wired new_world (mkRunEnv timed_out true NoFault []) inn10 in
  scraped (scrape_arbitr_cases (w_scraper new_world) (w_browser new_world) timed_out
                               inn10 default_max_results)
  = scraped (scrape_arbitr_cases (w_scraper new_world) (w_browser new_world) no_rows
                                 inn10 default_max_results)
  /\ scraped (scrape_arbitr_cases (w_scraper new_world) (w_browser new_world) timed_out
                                  inn10 default_max_results) = []
  /\ (exists pre post,
         snd run = pre ++ _update_status wired (MsgNoneFoundOrError inn10) INFO ++ post)
  /\ existsb is_site_unavailable_report (snd run) = false
  /\ existsb is_persistence (snd run) = false
  /\ w_db (fst run) = w_db new_world.
Proof.
  apply (timeout_is_reported_as_nothing_found wired new_world true StWaitResults
           true NoFault [] inn10).
  reflexivity.
Defined.

(** *** C7: the filters of [get_filtered_cases_as_dicts] *)

Lemma starts_with_prefix (f s : str) :
  starts_with f s = true <-> exists post, s = f ++ post.
Proof.
  revert s. induction f as [|c f IH]; intros s.
  - split; [intros _; now exists s | reflexivity].
  - destruct s as [|x s]; cbn [starts_with].
    + split; [discriminate | intros [post H]; discriminate].
    + rewrite andb_true_iff, IH, N.eqb_eq. split.
      * intros [-> [post ->]]. now exists post.
      * intros [post H]. injection H as -> ->. split; [reflexivity | now exists post].
Qed.

Lemma any_suffix_split (P : str -> bool) (s : str) :
  any_suffix P s = true <-> exists pre suf, s = pre ++ suf /\ P suf = true.
Proof.
  induction s as [|x s IH]; cbn [any_suffix].
  - rewrite orb_false_r. split.
    + intros H. now exists [], [].
    + intros [pre [suf [H HP]]]. symmetry in H.
      apply app_eq_nil in H as [_ ->]. exact HP.
  - rewrite orb_true_iff, IH. split.
    + intros [H | [pre [suf [-> HP]]]].
      * now exists [], (x :: s).
      * now exists (x :: pre), suf.
    + intros [pre [suf [H HP]]]. destruct pre as [|y pre].
      * left. cbn [app] in H. now subst suf.
      * right. injection H as -> ->. now exists pre, suf.
Qed.

Lemma any_suffix_ext (P Q : str -> bool) (s : str) :
  (forall x, P x = Q x) -> any_suffix P s = any_suffix Q s.
Proof.
  intros H. induction s as [|x s IH]; cbn [any_suffix]; rewrite H; [reflexivity | ].
  now rewrite IH.
Qed.

(** [contains] decides [is_substring]. *)
Lemma contains_iff_substring (f s : str) :
  contains f s = true <-> is_substring f s.
Proof.
  unfold contains, is_substring. rewrite any_suffix_split. split.
  - intros [pre [suf [-> H]]]. apply starts_with_prefix in H as [post ->].
    now exists pre, post.
  - intros [pre [post ->]]. exists pre, (f ++ post). split; [reflexivity | ].
    apply starts_with_prefix. now exists post.
Qed.

Lemma like_only_percent (s : str) : like_match [percent] s = true.
Proof.
  cbn [like_match]. replace (percent =? percent)%N with true by reflexivity.
  induction s as [|x s IH]; [reflexivity | ].
  cbn [any_suffix]. rewrite IH. now rewrite orb_true_r.
Qed.

Lemma not_meta (c : char) :
  is_meta c = false ->
  (c =? percent)%N = false /\ (c =? underscore)%N = false
  /\ (c =? backslash)%N = false.
Proof.
  unfold is_meta. intros H.
  apply orb_false_iff in H as [H H3]. apply orb_false_iff in H as [H1 H2].
  now repeat split.
Qed.

(** A pattern that begins with plain text asks the text to begin with
    it; the trailing [%] takes whatever follows. *)
Lemma like_plain_then_percent (f s : str) :
  forallb (fun c => negb (is_meta c)) f = true ->
  like_match (f ++ [percent]) s = starts_with f s.
Proof.
  revert s. induction f as [|c f IH]; intros s Hp.
  - cbn [app starts_with]. apply like_only_percent.
  - cbn [forallb] in Hp. apply andb_true_iff in Hp as [Hc Hp].
    apply negb_true_iff in Hc. destruct (not_meta c Hc) as [H1 [H2 H3]].
    cbn [app like_match starts_with]. rewrite H1, H2, H3.
    destruct s as [|x s]; [reflexivity | ]. now rewrite IH.
Qed.

Lemma like_contains_pattern (f s : str) :
  forallb (fun c => negb (is_meta c)) f = true ->
  like_match (contains_pattern f) s = contains f s.
Proof.
  intros Hp. unfold contains_pattern, contains. cbn [like_match].
  replace (percent =? percent)%N with true by reflexivity.
  apply any_suffix_ext. intros x. now apply like_plain_then_percent.
Qed.

Lemma lower_char_meta (c : char) : is_meta (lower_char c) = is_meta c.
Proof.
  unfold lower_char, is_meta, percent, underscore, backslash.
  destruct (N.leb_spec 65 c); destruct (N.leb_spec c 90); cbn [andb];
    try (destruct (N.leb_spec 1040 c); destruct (N.leb_spec c 1071); cbn [andb]);
    try (destruct (N.leb_spec 1024 c); destruct (N.leb_spec c 1039); cbn [andb]);
    try reflexivity;
    repeat match goal with
           | |- context [(?a =? ?b)%N] => destruct (N.eqb_spec a b); try lia
           end; reflexivity.
Qed.

Lemma lower_char_keeps_meta : keeps_meta lower_char.
Proof.
  split; [reflexivity | ]. intros c H. now rewrite lower_char_meta.
Qed.

Lemma lower_plain (lc : char -> char) (f : str) :
  keeps_meta lc ->
  forallb (fun c => negb (is_meta c)) f = true ->
  forallb (fun c => negb (is_meta c)) (List.map lc f) = true.
Proof.
  intros [_ Hk]. induction f as [|c f IH]; [reflexivity | ].
  cbn [forallb List.map]. intros H. apply andb_true_iff in H as [Hc H].
  apply negb_true_iff in Hc. now rewrite (Hk c Hc), IH.
Qed.

(** For a filter text without [%], [_] and backslash, the ILIKE
    condition is the case-insensitive substring test. *)
Lemma ilike_plain_is_contains_ci (lc : char -> char) (f v : str) :
  keeps_meta lc ->
  forallb (fun c => negb (is_meta c)) f = true ->
  ilike lc v (contains_pattern f) = contains_ci lc f v.
Proof.
  intros Hk Hp. unfold ilike, contains_ci.
  replace (List.map lc (contains_pattern f))
    with (contains_pattern (List.map lc f)).
  - apply like_contains_pattern. now apply lower_plain.
  - unfold contains_pattern. cbn [List.map]. rewrite map_app. cbn [List.map].
    destruct Hk as [-> _]. reflexivity.
Qed.

Lemma cond_ilike_plain (self : DBManager) (flt : option str) (v : str) :
  keeps_meta (db_lower self) ->
  plain flt = true ->
  cond_ilike self flt v = opt_contains_ci (db_lower self) flt v.
Proof.
  unfold cond_ilike, opt_contains_ci, plain, present.
  destruct flt as [f|]; [ | reflexivity]. intros Hk Hp.
  destruct (truthy f); [ | reflexivity]. now apply ilike_plain_is_contains_ci.
Qed.

Lemma parse_bound_filter_date (self : DBManager) (x : option str)
      (d : option date) :
  filter_date self x = Some d ->
  is_bad (parse_bound self x) = false
  /\ (forall v, cond_from (parse_bound self x) v = on_or_after d v)
  /\ (forall v, cond_until (parse_bound self x) v = on_or_before d v).
Proof.
  unfold filter_date, parse_bound. destruct (present x) as [s|].
  - destruct (db_date_in self s) as [d0|]; [ | discriminate].
    cbn [option_map]. intros H. injection H as <-. now repeat split.
  - intros H. injection H as <-. now repeat split.
Qed.

(** C7, as the code has it.  For rows as the server holds them, when
    the server answers, the driver can send the filter values, the
    filter texts contain none of [%], [_] and backslash, and the date
    arguments are absent or text the server reads as a date, the
    result is, in table order, the rows that pass every filter that is
    present: the case number contains the case-number filter and the
    taxpayer ID contains the taxpayer-ID filter, both compared after
    the [lower()] of the database, and the date is not null and lies
    within the inclusive bounds. *)
Theorem filters_combine_conjunctively
        (self : DBManager) (t : table) (cnf innf sd ed : option str)
        (lo hi : option date) :
  well_formed t = true ->
  keeps_meta (db_lower self) ->
  params_error self (filter_params cnf innf sd ed) = None ->
  plain cnf = true ->
  plain innf = true ->
  filter_date self sd = Some lo ->
  filter_date self ed = Some hi ->
  get_filtered_cases_as_dicts self NoFault t cnf innf sd ed
  = Returns (List.map row_to_dict
               (filter (selected (db_lower self) cnf innf lo hi) t)).
Proof.
  intros _ Hk Hp Hc Hi Hlo Hhi. unfold get_filtered_cases_as_dicts, execute.
  rewrite Hp. cbn [_get_connection].
  destruct (parse_bound_filter_date self sd lo Hlo) as [Hb1 [Hf1 _]].
  destruct (parse_bound_filter_date self ed hi Hhi) as [Hb2 [_ Hu2]].
  rewrite Hb1, Hb2. cbn [orb]. do 2 f_equal.
  apply filter_ext. intros r. unfold where_clause, selected.
  now rewrite !cond_ilike_plain, Hf1, Hu2 by assumption.
Qed.

Lemma filters_january_witness :
  get_filtered_cases_as_dicts sample_db NoFault jan_table
                              (Some (py "A")) (Some (py "123"))
                              (Some (py "2023-01-01")) (Some (py "2023-01-31"))
  = Returns (List.map row_to_dict
               (filter (selected (db_lower sample_db) (Some (py "A")) (Some (py "123"))
                                 (Some (mkDate 2023 1 1)) (Some (mkDate 2023 1 31)))
                       jan_table)).
Proof.
  apply (filters_combine_conjunctively sample_db jan_table
           (Some (py "A")) (Some (py "123"))
           (Some (py "2023-01-01")) (Some (py "2023-01-31"))
           (Some (mkDate 2023 1 1)) (Some (mkDate 2023 1 31)));
    try reflexivity.
  exact lower_char_keeps_meta.
Defined.

(** January 2023 on the sample table: the rows dated 2023-01-15 and
    2023-01-31 stay; the rows dated 2022-12-31 and 2023-02-01 and the
    row without a date go. *)
Example january_rows :
  get_filtered_cases_as_dicts sample_db NoFault jan_table None None
                              (Some (py "2023-01-01")) (Some (py "2023-01-31"))
  = Returns [mkCase (py "A12-34/2023") (Some (py "2023-01-15")) (py "1234567890");
             mkCase (py "a99/2023") (Some (py "2023-01-31")) (py "1234567890")].
Proof. reflexivity. Qed.

(** C7 as stated fails in three places.  The filter text [_] is no
    part of the case number A12-34/2023, and the row is returned: the
    text goes into the ILIKE pattern as it is and [_] stands for any
    character there.  A filter text with U+0000 in it gives no list at
    all: the driver raises ValueError, which the reader does not
    catch.  And for a date argument that the server does not read as
    a date the reader returns the empty list, whatever the table
    holds. *)
Lemma underscore_filter_matches_everything :
  (~ is_substring (List.map lower_char (py "_"))
                  (List.map lower_char (py "A12-34/2023"))
   /\ get_filtered_cases_as_dicts sample_db NoFault
        [mkDbRow (py "A12-34/2023") (Some (mkDate 2023 1 15)) (py "1234567890")]
        (Some (py "_")) None None None
      = Returns [mkCase (py "A12-34/2023") (Some (py "2023-01-15"))
                        (py "1234567890")])
  /\ get_filtered_cases_as_dicts sample_db NoFault
       [mkDbRow (py "A12-34/2023") (Some (mkDate 2023 1 15)) (py "1234567890")]
       (Some [65%N; 0%N]) None None None
     = Raises ValueError
  /\ get_filtered_cases_as_dicts sample_db NoFault
       [mkDbRow (py "A12-34/2023") (Some (mkDate 2023 1 15)) (py "1234567890")]
       None None (Some (py "January")) None
     = Returns [].
Proof.
  repeat split; try reflexivity.
  intros H. apply contains_iff_substring in H. vm_compute in H. discriminate.
Qed.

(** *** C8: the exported CSV read back *)

Lemma not_quoted_char (c : char) :
  needs_quote c = false ->
  (c =? comma)%N = false /\ (c =? dquote)%N = false /\ is_newline c = false.
Proof.
  unfold needs_quote, is_newline. intros H.
  apply orb_false_iff in H as [H H4]. apply orb_false_iff in H as [H H3].
  apply orb_false_iff in H as [H1 H2]. rewrite H3, H4. now repeat split.
Qed.

Lemma tokens_plain (m : bool) (c : char) (X : str) :
  is_newline c = false ->
  tokens_from m (c :: X) = Ch c :: tokens_from true X.
Proof.
  unfold is_newline. intros H. apply orb_false_iff in H as [H1 H2].
  cbn [tokens_from]. now rewrite H1, H2.
Qed.

Lemma tokens_crlf (m : bool) (X : str) :
  tokens_from m (cr :: lf :: X) = Ch cr :: Ch lf :: EOL :: tokens_from false X.
Proof. reflexivity. Qed.

(** Inside a quoted field every character but the quote is added to the
    field; the end-of-line marks that line endings inside the field
    bring are passed over. *)
Lemma quoted_char (m : bool) (c : char) (Y : str) (r : reader)
      (acc : list (list str)) :
  st r = IN_QUOTED_FIELD -> (c =? dquote)%N = false -> Y <> [] ->
  exists m',
    read_tokens (tokens_from m (c :: Y)) r acc
    = read_tokens (tokens_from m' Y) (add_char IN_QUOTED_FIELD c r) acc.
Proof.
  intros Hst Hq HY. destruct Y as [|d Y]; [congruence | ].
  cbn [tokens_from].
  destruct (N.eqb_spec c lf) as [->|Hlf].
  - exists false. cbn [read_tokens]. unfold step. rewrite Hst, Hq.
    cbn [read_tokens step add_char st state_eqb]. reflexivity.
  - destruct (N.eqb_spec c cr) as [->|Hcr].
    + destruct (d =? lf)%N.
      * exists true. cbn [read_tokens]. unfold step. rewrite Hst, Hq. reflexivity.
      * exists false. cbn [read_tokens]. unfold step. rewrite Hst, Hq.
        cbn [read_tokens step add_char st state_eqb]. reflexivity.
    + exists true. cbn [read_tokens]. unfold step. rewrite Hst, Hq. reflexivity.
Qed.

Lemma double_quotes_closing_nonempty (f X : str) :
  double_quotes f ++ dquote :: X <> [].
Proof.
  destruct f as [|c f]; cbn [double_quotes app]; [discriminate | ].
  destruct (c =? dquote)%N; discriminate.
Qed.

(** The content of a quoted field up to its closing quote. *)
Lemma quoted_content (f : str) :
  forall (m : bool) (X : str) (r : reader) (acc : list (list str)),
    st r = IN_QUOTED_FIELD ->
    read_tokens (tokens_from m (double_quotes f ++ dquote :: X)) r acc
    = read_tokens (tokens_from true X)
                  (mkReader QUOTE_IN_QUOTED_FIELD (field r ++ f) (fields r)) acc.
Proof.
  induction f as [|c f IH]; intros m X r acc Hst.
  - cbn [double_quotes app]. rewrite tokens_plain by reflexivity.
    cbn [read_tokens]. unfold step. rewrite Hst.
    replace (dquote =? dquote)%N with true by reflexivity.
    unfold goto. now rewrite app_nil_r.
  - cbn [double_quotes]. destruct (N.eqb_spec c dquote) as [->|Hne].
    + cbn [app]. rewrite !tokens_plain by reflexivity.
      cbn [read_tokens]. unfold step at 1. rewrite Hst.
      replace (dquote =? dquote)%N with true by reflexivity.
      unfold step at 1. cbn [goto st].
      replace (dquote =? dquote)%N with true by reflexivity.
      rewrite IH by reflexivity.
      cbn [add_char field fields]. now rewrite <- app_assoc.
    + cbn [app].
      destruct (quoted_char m c (double_quotes f ++ dquote :: X) r acc Hst)
        as [m' E].
      * now apply N.eqb_neq.
      * apply double_quotes_closing_nonempty.
      * rewrite E, IH by reflexivity.
        cbn [add_char field fields]. now rewrite <- app_assoc.
Qed.

(** The content of an unquoted field. *)
Lemma unquoted_content (f : str) :
  forall (m : bool) (X : str) (r : reader) (acc : list (list str)),
    existsb needs_quote f = false ->
    st r = IN_FIELD ->
    exists m',
      read_tokens (tokens_from m (f ++ X)) r acc
      = read_tokens (tokens_from m' X)
                    (mkReader IN_FIELD (field r ++ f) (fields r)) acc.
Proof.
  induction f as [|c f IH]; intros m X r acc Hf Hst.
  - exists m. cbn [app]. rewrite app_nil_r. destruct r as [s fl fs].
    cbn [st] in Hst. now subst s.
  - cbn [existsb] in Hf. apply orb_false_iff in Hf as [Hc Hf].
    destruct (not_quoted_char c Hc) as [H1 [H2 H3]].
    cbn [app]. rewrite tokens_plain by assumption.
    cbn [read_tokens]. unfold step. rewrite Hst, H3, H1.
    destruct (IH true X (add_char IN_FIELD c r) acc Hf eq_refl) as [m' E].
    exists m'. rewrite E. cbn [add_char field fields]. now rewrite <- app_assoc.
Qed.

(** A written field, then what the reader is in when the separator
    comes: the field is collected in full. *)
Lemma field_collected (f : str) (m : bool) (X : str) (r : reader)
      (acc : list (list str)) :
  at_field_start r ->
  (existsb needs_quote f = false -> f = [] -> st r = START_FIELD) ->
  exists m' s,
    read_tokens (tokens_from m (write_field f ++ X)) r acc
    = read_tokens (tokens_from m' X) (mkReader s f (fields r)) acc
    /\ (s = START_FIELD \/ s = IN_FIELD \/ s = QUOTE_IN_QUOTED_FIELD)
    /\ (s = START_FIELD -> f = []).
Proof.
  intros [Hst Hfl] Hempty. unfold write_field.
  destruct (existsb needs_quote f) eqn:Hq.
  - (* quoted *)
    exists true, QUOTE_IN_QUOTED_FIELD.
    split; [ | split; [now right; right | discriminate]].
    cbn [app]. rewrite <- app_assoc. cbn [app].
    rewrite tokens_plain by reflexivity. cbn [read_tokens].
    assert (Hs : step r (Ch dquote) = Some (goto IN_QUOTED_FIELD r)).
    { unfold step. destruct Hst as [-> | ->]; reflexivity. }
    rewrite Hs. rewrite quoted_content by reflexivity.
    cbn [goto field fields]. now rewrite Hfl.
  - (* unquoted *)
    destruct f as [|c f].
    + exists m, START_FIELD. cbn [app].
      split; [ | split; [now left | reflexivity]].
      destruct r as [s fl fs]. cbn [st field fields] in *. subst fl.
      now rewrite (Hempty eq_refl eq_refl).
    + cbn [existsb] in Hq. apply orb_false_iff in Hq as [Hc Hq].
      destruct (not_quoted_char c Hc) as [H1 [H2 H3]].
      cbn [app]. rewrite tokens_plain by assumption. cbn [read_tokens].
      assert (Hs : step r (Ch c) = Some (add_char IN_FIELD c r)).
      { unfold step, step_start_field.
        destruct Hst as [-> | ->]; now rewrite H3, H2, H1. }
      rewrite Hs.
      destruct (unquoted_content f true X (add_char IN_FIELD c r) acc Hq eq_refl)
        as [m' E].
      exists m', IN_FIELD. split; [ | split; [now right; left | discriminate]].
      rewrite E. cbn [add_char field fields]. now rewrite Hfl.
Qed.

(** A field followed by a comma. *)
Lemma field_then_comma (f : str) (m : bool) (X : str) (r : reader)
      (acc : list (list str)) :
  at_field_start r ->
  read_tokens (tokens_from m (write_field f ++ comma :: X)) r acc
  = read_tokens (tokens_from true X)
                (mkReader START_FIELD [] (fields r ++ [f])) acc.
Proof.
  intros Hr.
  destruct f as [|c f].
  - (* the empty field is the comma alone *)
    destruct Hr as [Hst Hfl]. cbn [write_field existsb app].
    rewrite tokens_plain by reflexivity. cbn [read_tokens].
    assert (Hs : step r (Ch comma) = Some (save_field START_FIELD r)).
    { unfold step. destruct Hst as [-> | ->]; reflexivity. }
    rewrite Hs. unfold save_field. now rewrite Hfl.
  - destruct (field_collected (c :: f) m (comma :: X) r acc Hr) as [m' [s [E [Hs Hs0]]]].
    + discriminate.
    + rewrite E. rewrite tokens_plain by reflexivity. cbn [read_tokens].
      destruct Hs as [-> | [-> | ->]].
      * now specialize (Hs0 eq_refl).
      * reflexivity.
      * reflexivity.
Qed.

(** The last field of a record, followed by CR LF: the record is handed
    out. *)
Lemma field_then_crlf (f : str) (m : bool) (X : str) (r : reader)
      (acc : list (list str)) :
  st r = START_FIELD -> field r = [] ->
  read_tokens (tokens_from m (write_field f ++ cr :: lf :: X)) r acc
  = read_tokens (tokens_from false X) reset (acc ++ [fields r ++ [f]]).
Proof.
  intros Hst Hfl.
  destruct (field_collected f m (cr :: lf :: X) r acc) as [m' [s [E [Hs Hs0]]]].
  - split; [now right | assumption].
  - intros _ _. assumption.
  - rewrite E, tokens_crlf. cbn [read_tokens].
    destruct Hs as [-> | [-> | ->]]; reflexivity.
Qed.

(** A record of three fields. *)
Lemma record_read_back (a b c : str) (m : bool) (X : str)
      (acc : list (list str)) :
  read_tokens (tokens_from m (writerow [a; b; c] ++ X)) reset acc
  = read_tokens (tokens_from false X) reset (acc ++ [[a; b; c]]).
Proof.
  assert (E : writerow [a; b; c] ++ X
              = write_field a ++ comma :: (write_field b ++ comma ::
                  (write_field c ++ cr :: lf :: X))).
  { unfold writerow. destruct a; cbn [join_fields]; rewrite <- !app_assoc;
      cbn [app]; rewrite <- ?app_assoc; reflexivity. }
  rewrite E.
  rewrite field_then_comma by (split; [now left | reflexivity]).
  rewrite field_then_comma by (split; [now right | reflexivity]).
  now rewrite field_then_crlf.
Qed.


(** The whole file: the header and one record per case. *)
Lemma records_read_back (l : list (list str)) (acc : list (list str)) :
  (forall fs, In fs l -> exists a b c, fs = [a; b; c]) ->
  read_tokens (tokens_from false (List.concat (List.map writerow l))) reset acc
  = Some (acc ++ l).
Proof.
  revert acc. induction l as [|fs l IH]; intros acc H.
  - cbn. now rewrite app_nil_r.
  - destruct (H fs (or_introl eq_refl)) as [a [b [c ->]]].
    cbn [List.map List.concat]. rewrite record_read_back.
    rewrite IH by (intros fs Hin; apply H; now right).
    now rewrite <- app_assoc.
Qed.

Lemma reader_rows_csv_text (cases : list case) :
  reader_rows (csv_text cases) = Some (fieldnames :: List.map dict_to_list cases).
Proof.
  unfold reader_rows, tokens, csv_text.
  change fieldnames with [py "case_number"; py "case_date"; py "inn"].
  rewrite record_read_back.
  rewrite <- (map_map dict_to_list writerow).
  rewrite records_read_back; [reflexivity | ].
  intros fs Hin. apply in_map_iff in Hin as [c [<- _]].
  unfold dict_to_list. now eexists _, _, _.
Qed.

(** The tuples that reading the file back gives: the case number, the
    date text (empty for None) and the taxpayer ID of each case. *)
Lemma parse_csv_csv_text (cases : list case) :
  parse_csv (csv_text cases)
  = Some (List.map (fun c => (case_number c,
                              match case_date c with Some s => s | None => [] end,
                              inn c)) cases).
Proof.
  unfold parse_csv. rewrite reader_rows_csv_text.
  destruct (list_eq_dec (list_eq_dec N.eq_dec) fieldnames fieldnames);
    [ | congruence].
  induction cases as [|c cases IH]; [reflexivity | ].
  cbn [List.map rows_to_tuples]. rewrite IH. reflexivity.
Qed.

Lemma written_file_of_export (app : ApplicationLogic) (path : str)
      (cases : list case) :
  written_file ((_update_status app (MsgExportingCsv path) INFO ++ [DbGetAll])
                  ++ [FileWrite path (csv_text cases)]
                  ++ _update_status app (MsgExportedCsv path) INFO)
  = Some (csv_text cases).
Proof.
  unfold written_file, _update_status.
  destruct (gui_status_updater app); reflexivity.
Qed.

(** C8, as the code has it.  For every table that is not empty and has
    no row with a null date, with the database and the file system
    answering, [export_data_to_csv] returns True and writes a file that
    a csv reader turns back into the tuples of the records, in their
    order. *)
Theorem exported_csv_reads_back
        (app : ApplicationLogic) (t : table) (path : str) :
  t <> [] ->
  forallb (fun r => match r_case_date r with Some _ => true | None => false end) t
  = true ->
  let out := export_data_to_csv app NoFault t FileOk path in
  fst out = true
  /\ exists text tuples cases,
      written_file (snd out) = Some text
      /\ parse_csv text = Some tuples
      /\ get_all_cases_as_dicts NoFault t = Returns cases
      /\ List.map parsed_tuple tuples = List.map case_tuple cases.
Proof.
  intros Hne Hd. cbv zeta. unfold export_data_to_csv.
  change (get_all_cases_as_dicts NoFault t) with (Returns (List.map row_to_dict t)).
  destruct (List.map row_to_dict t) as [|c cases] eqn:E.
  - destruct t; [congruence | discriminate E].
  - cbn [fst snd]. split; [reflexivity | ].
    exists (csv_text (c :: cases)). eexists. exists (c :: cases).
    split; [ | split; [ | split]].
    + apply written_file_of_export.
    + apply parse_csv_csv_text.
    + reflexivity.
    + rewrite <- E. rewrite !map_map.
      apply map_ext_in. intros r Hin.
      rewrite forallb_forall in Hd. specialize (Hd r Hin).
      unfold row_to_dict, case_tuple, parsed_tuple. cbn [case_number case_date inn].
      destruct (r_case_date r); [reflexivity | discriminate].
Qed.

Lemma exported_csv_witness :
  let out := export_data_to_csv wired NoFault dated_table FileOk (py "cases.csv") in
  fst out = true
  /\ exists text tuples cases,
      written_file (snd out) = Some text
      /\ parse_csv text = Some tuples
      /\ get_all_cases_as_dicts NoFault dated_table = Returns cases
      /\ List.map parsed_tuple tuples = List.map case_tuple cases.
Proof.
  apply (exported_csv_reads_back wired dated_table (py "cases.csv")).
  - discriminate.
  - reflexivity.
Defined.

(** The sample table, whose second case number needs quoting, written
    and read back. *)
Example awkward_number_read_back :
  parse_csv (csv_text (List.map row_to_dict dated_table))
  = Some [(py "A12-34/2023", py "2023-01-15", inn10);
          (awkward_number, py "2023-02-01", inn10)].
Proof. reflexivity. Qed.

(** C8 as stated fails in two places.  With no persisted record the
    export returns False and writes no file, so there is nothing to read
    back.  And a record whose date is null is written with an empty
    date column, which reads back as the empty string, not as None. *)
Lemma export_of_nothing_or_null_date_differs :
  fst (export_data_to_csv wired NoFault [] FileOk (py "cases.csv")) = false
  /\ written_file (snd (export_data_to_csv wired NoFault [] FileOk (py "cases.csv")))
     = None
  /\ written_file
       (snd (export_data_to_csv wired NoFault
               [mkDbRow (py "A12-34/2023") None inn10] FileOk (py "cases.csv")))
     = Some (py "case_number,case_date,inn" ++ [cr; lf]
               ++ py "A12-34/2023,,1234567890" ++ [cr; lf])
  /\ parse_csv (py "case_number,case_date,inn" ++ [cr; lf]
                  ++ py "A12-34/2023,,1234567890" ++ [cr; lf])
     = Some [(py "A12-34/2023", [], inn10)]
  /\ get_all_cases_as_dicts NoFault [mkDbRow (py "A12-34/2023") None inn10]
     = Returns [mkCase (py "A12-34/2023") None inn10]
  /\ List.map parsed_tuple [(py "A12-34/2023", [], inn10)]
     <> List.map case_tuple [mkCase (py "A12-34/2023") None inn10].
Proof.
  repeat split; try reflexivity. discriminate.
Qed.

(** *** Dates as text *)

Ltac divmod10 t :=
  pose proof (N.div_mod' t 10);
  pose proof (N.mod_lt t 10 ltac:(discriminate));
  pose proof (N.le_0_l (t / 10));
  pose proof (N.le_0_l (t mod 10)).

Lemma ascii_digit_of_value (k : N) :
  (k <= 9)%N -> ascii_digit_in 0 9 (48 + k)%N = Some k.
Proof.
  intros H. unfold ascii_digit_in.
  destruct (N.leb_spec (48 + 0) (48 + k)); [ | lia].
  destruct (N.leb_spec (48 + k) (48 + 9)); [ | lia].
  cbn [andb]. f_equal. lia.
Qed.

Lemma ascii_digit_value (c v : N) :
  ascii_digit_in 0 9 c = Some v -> c = (48 + v)%N /\ (v <= 9)%N.
Proof.
  unfold ascii_digit_in.
  destruct (N.leb_spec (48 + 0) c); destruct (N.leb_spec c (48 + 9));
    cbn [andb]; intros E; inversion E; lia.
Qed.

Lemma zero_pad_2 (n : N) :
  zero_pad 2 n = [digit_char (n / 10 mod 10); digit_char (n mod 10)].
Proof. reflexivity. Qed.

Lemma zero_pad_4 (n : N) :
  zero_pad 4 n = [digit_char (n / 10 / 10 / 10 mod 10);
                  digit_char (n / 10 / 10 mod 10);
                  digit_char (n / 10 mod 10); digit_char (n mod 10)].
Proof. reflexivity. Qed.

Lemma days_in_month_le_31 (y m : N) : (days_in_month y m <= 31)%N.
Proof.
  unfold days_in_month.
  destruct m as [|p]; [lia | ].
  do 4 (try destruct p as [p|p|]); try lia; destruct (is_leap y); lia.
Qed.

Lemma valid_date_bounds (d : date) :
  valid_date d = true ->
  (1 <= year d <= 9999 /\ 1 <= month d <= 12 /\ 1 <= day d <= 31)%N.
Proof.
  unfold valid_date. rewrite !andb_true_iff, !N.leb_le.
  pose proof (days_in_month_le_31 (year d) (month d)). lia.
Qed.

(** The ISO text of a date is text the DATE column takes, and it is
    taken as that date. *)
Lemma date_in_isoformat (d : date) :
  valid_date d = true -> date_in (isoformat d) = Some d.
Proof.
  intros Hv. pose proof (valid_date_bounds d Hv) as [Hy [Hm Hd]].
  destruct d as [y m dd]. cbn [year month day] in *.
  unfold isoformat. cbn [year month day]. rewrite zero_pad_4, !zero_pad_2.
  cbn [app]. unfold date_in, digit_char.
  divmod10 y. divmod10 (y / 10)%N. divmod10 (y / 10 / 10)%N.
  divmod10 (y / 10 / 10 / 10)%N. divmod10 m. divmod10 (m / 10)%N.
  divmod10 dd. divmod10 (dd / 10)%N.
  rewrite !ascii_digit_of_value by lia.
  replace (hyphen =? hyphen)%N with true by reflexivity. cbn [andb].
  replace (1000 * (y / 10 / 10 / 10 mod 10) + 100 * (y / 10 / 10 mod 10)
           + 10 * (y / 10 mod 10) + y mod 10)%N with y by lia.
  replace (10 * (m / 10 mod 10) + m mod 10)%N with m by lia.
  replace (10 * (dd / 10 mod 10) + dd mod 10)%N with dd by lia.
  now rewrite Hv.
Qed.

(** Text the DATE column takes is the ISO text of the date it is taken
    as. *)
Lemma isoformat_date_in (s : str) (d : date) :
  date_in s = Some d -> valid_date d = true /\ isoformat d = s.
Proof.
  unfold date_in.
  destruct s as [|y1 [|y2 [|y3 [|y4 [|h1 [|m1 [|m2 [|h2 [|d1 [|d2 [|x s]]]]]]]]]]];
    try discriminate.
  destruct (ascii_digit_in 0 9 y1) as [a|] eqn:E1; [ | discriminate].
  destruct (ascii_digit_in 0 9 y2) as [b|] eqn:E2; [ | discriminate].
  destruct (ascii_digit_in 0 9 y3) as [c|] eqn:E3; [ | discriminate].
  destruct (ascii_digit_in 0 9 y4) as [e|] eqn:E4; [ | discriminate].
  destruct (ascii_digit_in 0 9 m1) as [f|] eqn:E5; [ | discriminate].
  destruct (ascii_digit_in 0 9 m2) as [g|] eqn:E6; [ | discriminate].
  destruct (ascii_digit_in 0 9 d1) as [i|] eqn:E7; [ | discriminate].
  destruct (ascii_digit_in 0 9 d2) as [j|] eqn:E8; [ | discriminate].
  apply ascii_digit_value in E1 as [-> ?], E2 as [-> ?], E3 as [-> ?], E4 as [-> ?],
      E5 as [-> ?], E6 as [-> ?], E7 as [-> ?], E8 as [-> ?].
  destruct (N.eqb_spec h1 hyphen) as [->|]; [ | discriminate].
  destruct (N.eqb_spec h2 hyphen) as [->|]; [ | discriminate].
  remember (1000 * a + 100 * b + 10 * c + e)%N as y eqn:Hy.
  remember (10 * f + g)%N as m eqn:Hm.
  remember (10 * i + j)%N as dd eqn:Hd.
  cbv beta iota zeta. change (true && true) with true. cbv iota.
  destruct (valid_date (mkDate y m dd)) eqn:Hv; [ | discriminate].
  intros E. injection E as <-. split; [exact Hv | ].
  unfold isoformat. cbn [year month day]. rewrite zero_pad_4, !zero_pad_2.
  cbn [app]. unfold digit_char. clear Hv.
  divmod10 y. divmod10 (y / 10)%N. divmod10 (y / 10 / 10)%N.
  divmod10 (y / 10 / 10 / 10)%N. divmod10 m. divmod10 (m / 10)%N.
  divmod10 dd. divmod10 (dd / 10)%N.
  repeat f_equal; lia.
Qed.

(** From the year 1000 on the year has its four digits, and the text
    of [strftime] is the ISO text. *)
Lemma decimal_four_digits (y : N) :
  (1000 <= y <= 9999)%N -> decimal y = zero_pad 4 y.
Proof.
  intros Hy. unfold decimal.
  assert (Hl : (9 <= N.log2 y)%N).
  { change 9%N with (N.log2 512). apply N.log2_le_mono. lia. }
  destruct (N.to_nat (N.log2 y)) as [|[|[|k]]] eqn:En; try lia.
  rewrite zero_pad_4. cbn [decimal_digits].
  divmod10 y. divmod10 (y / 10)%N. divmod10 (y / 10 / 10)%N.
  divmod10 (y / 10 / 10 / 10)%N.
  destruct (N.ltb_spec y 10); [lia | ].
  destruct (N.ltb_spec (y / 10) 10); [lia | ].
  destruct (N.ltb_spec (y / 10 / 10) 10); [lia | ].
  destruct (N.ltb_spec (y / 10 / 10 / 10) 10); [ | lia].
  rewrite (N.mod_small (y / 10 / 10 / 10) 10) by assumption.
  reflexivity.
Qed.

Lemma strftime_iso (d : date) :
  valid_date d = true -> (1000 <= year d)%N -> strftime_Ymd d = isoformat d.
Proof.
  intros Hv Hy. pose proof (valid_date_bounds d Hv) as [Hb _].
  unfold strftime_Ymd, isoformat. now rewrite decimal_four_digits by lia.
Qed.

Lemma strptime_valid (s : str) (d : date) :
  strptime_dmY s = Some d -> valid_date d = true.
Proof.
  unfold strptime_dmY.
  destruct (parse_day s) as [[dd s1]|]; [ | discriminate].
  destruct (parse_month s1) as [[m s2]|]; [ | discriminate].
  destruct (parse_year s2) as [y|]; [ | discriminate].
  destruct (valid_date (mkDate y m dd)) eqn:E; [ | discriminate].
  intros H. now injection H as <-.
Qed.

(** *** What [scrape_arbitr_cases] returns *)

(** The list returned is empty, or it is the list the row loop built. *)
Lemma scraped_is_loop_result (self : ArbitrScraper) (w : browser)
      (e : Scraper.env) (inn : str) (m : Z) :
  scraped (scrape_arbitr_cases self w e inn m) = []
  \/ exists rows tr,
      scraped (scrape_arbitr_cases self w e inn m)
      = cases_data (scrape_rows inn m 0 rows (mkLoop [] (mkLocals None None) tr)).
Proof.
  assert (H : forall sid w0,
             fst (fst (scrape_with_driver sid w0 e inn m)) = []
             \/ exists rows tr,
                 fst (fst (scrape_with_driver sid w0 e inn m))
                 = cases_data (scrape_rows inn m 0 rows
                                 (mkLoop [] (mkLocals None None) tr))).
  { intros sid w0. unfold scrape_with_driver.
    destruct (response w0 sid e) as [stg f | rows]; [now left | right].
    now eexists _, _. }
  unfold scrape_arbitr_cases, scraped.
  destruct (driver self) as [sid|].
  - specialize (H sid w).
    destruct (scrape_with_driver sid w e inn m) as [[d w'] evs]. exact H.
  - destruct (_initialize_webdriver e w) as [[self1 w1] evs0].
    destruct (driver self1) as [sid|]; [ | now left].
    specialize (H sid w1).
    destruct (scrape_with_driver sid w1 e inn m) as [[d w'] evs]. exact H.
Qed.

(** One pass of the loop body leaves the list as it is or appends one
    record, which carries the queried ID, a case number that is not
    empty and the [strftime] text of a calendar date. *)
Lemma process_row_appends (q : str) (i : nat) (r : Row) (st : loop_state) :
  cases_data (process_row q i r st) = cases_data st
  \/ exists c, scraped_record q c
               /\ cases_data (process_row q i r st) = cases_data st ++ [c].
Proof.
  unfold process_row.
  destruct (extract_cells r (vars st)) as [l1 [x|]]; [now left | ].
  unfold parse_and_append.
  destruct (v_case_date_str l1) as [ds|]; [ | now left].
  destruct (strptime_dmY ds) as [d|] eqn:Ed.
  - destruct (v_case_number l1) as [cn|]; [ | now left].
    destruct (truthy cn && truthy (strftime_Ymd d)) eqn:Et; [ | now left].
    right. exists (mkCase cn (Some (strftime_Ymd d)) q). split; [ | reflexivity].
    apply andb_true_iff in Et as [Hcn _].
    repeat split; cbn [inn case_number case_date].
    + destruct cn; [discriminate | discriminate].
    + exists d. pose proof (strptime_valid ds d Ed) as Hv.
      split; [exact Hv | ]. split; [reflexivity | ]. now apply strftime_iso.
  - destruct (v_case_number l1); now left.
Qed.

(** The row loop keeps two things true of the list it builds: it never
    grows past [max_results], and every record in it is complete. *)
Lemma scrape_rows_invariant (q : str) (m : Z) (rows : list Row) :
  forall (i : nat) (st : loop_state),
    (Z.of_nat (List.length (cases_data st)) <= Z.max 0 m)%Z ->
    Forall (scraped_record q) (cases_data st) ->
    (Z.of_nat (List.length (cases_data (scrape_rows q m i rows st))) <= Z.max 0 m)%Z
    /\ Forall (scraped_record q) (cases_data (scrape_rows q m i rows st)).
Proof.
  induction rows as [|r rows IH]; intros i st Hlen Hall; cbn [scrape_rows].
  - now split.
  - destruct (Z.geb_spec (Z.of_nat (List.length (cases_data st))) m) as [Hge|Hlt].
    + now split.
    + apply IH.
      * destruct (process_row_appends q i r st) as [E | [c [_ E]]]; rewrite E;
          [lia | ]. rewrite length_app. cbn [List.length]. lia.
      * destruct (process_row_appends q i r st) as [E | [c [Hc E]]]; rewrite E;
          [assumption | ].
        apply Forall_app. split; [assumption | now constructor].
Qed.

(** The call never returns more than [max_results] records, and none at
    all when [max_results] is zero or negative: the loop stops as soon
    as the list has that many. *)
Theorem scraped_length_bounded (self : ArbitrScraper) (w : browser)
        (e : Scraper.env) (q : str) (m : Z) :
  (Z.of_nat (List.length (scraped (scrape_arbitr_cases self w e q m)))
   <= Z.max 0 m)%Z.
Proof.
  destruct (scraped_is_loop_result self w e q m) as [E | [rows [tr E]]]; rewrite E.
  - cbn [List.length]. lia.
  - apply scrape_rows_invariant; [cbn [cases_data List.length]; lia | constructor].
Qed.

(** Every record the call returns carries the taxpayer ID of the query,
    a case number that is not empty, and as its date the text that
    [strftime('%Y-%m-%d')] gives for a calendar date, never None; from
    the year 1000 on that text is the ISO text YYYY-MM-DD of the date,
    before that the year has fewer than four digits. *)
Theorem scraped_records_complete (self : ArbitrScraper) (w : browser)
        (e : Scraper.env) (q : str) (m : Z) :
  Forall (scraped_record q) (scraped (scrape_arbitr_cases self w e q m)).
Proof.
  destruct (scraped_is_loop_result self w e q m) as [E | [rows [tr E]]]; rewrite E.
  - constructor.
  - apply scrape_rows_invariant; [cbn [cases_data List.length]; lia | constructor].
Qed.

(** *** A page of complete rows *)

Lemma process_row_complete (q : str) (i : nat) (r : Row) (st : loop_state)
      (c : case) :
  row_record q r = Some c ->
  cases_data (process_row q i r st) = cases_data st ++ [c].
Proof.
  unfold row_record, process_row, extract_cells.
  destruct (4 <=? cells r); [ | discriminate].
  destruct (date_text r) as [t|]; [ | discriminate].
  destruct (link_text r) as [n|]; [ | discriminate].
  unfold parse_and_append. cbn [v_case_date_str v_case_number].
  destruct (strptime_dmY (strip t)) as [d|]; [ | discriminate].
  destruct (truthy (strip n)) eqn:Hn; [ | discriminate].
  intros E. injection E as <-. cbn [andb].
  now rewrite strftime_truthy.
Qed.

Lemma geb_to_nat (n : nat) (m : Z) :
  (Z.of_nat n >=? m)%Z = (Z.to_nat m <=? n).
Proof.
  destruct (Z.geb_spec (Z.of_nat n) m); destruct (Nat.leb_spec (Z.to_nat m) n);
    try reflexivity; lia.
Qed.

Lemma scrape_rows_complete (q : str) (m : Z) (rows : list Row) :
  forall (i : nat) (st : loop_state),
    forallb (is_complete q) rows = true ->
    List.length (cases_data st) <= Z.to_nat m ->
    cases_data (scrape_rows q m i rows st)
    = firstn (Z.to_nat m) (cases_data st ++ row_records q rows).
Proof.
  induction rows as [|r rows IH]; intros i st Hall Hlen; cbn [scrape_rows row_records].
  - rewrite app_nil_r. symmetry. now apply firstn_all2.
  - cbn [forallb] in Hall. apply andb_true_iff in Hall as [Hr Hall].
    unfold is_complete in Hr.
    destruct (row_record q r) as [c|] eqn:Ec; [ | discriminate].
    rewrite geb_to_nat.
    destruct (Nat.leb_spec (Z.to_nat m) (List.length (cases_data st))) as [Hfull|Hroom].
    + assert (El : List.length (cases_data st) = Z.to_nat m) by lia.
      rewrite firstn_app, <- El, Nat.sub_diag, firstn_all. cbn [firstn].
      now rewrite app_nil_r.
    + rewrite IH; [ | assumption | ].
      * rewrite (process_row_complete q i r st c Ec), <- app_assoc. reflexivity.
      * rewrite (process_row_complete q i r st c Ec), length_app.
        cbn [List.length]. lia.
Qed.

(** When the browser starts, the site answers and every row of the
    page is complete, the call returns the records of the first
    [max_results] rows, in the order of the page, each with its date
    turned from day.month.year into YYYY-MM-DD. *)
Theorem complete_page_scraped_in_order
        (w : browser) (rows : list Row) (q : str) (m : Z) :
  forallb (is_complete q) rows = true ->
  scraped (scrape_arbitr_cases new_scraper w (mkEnv true (SiteRows rows)) q m)
  = firstn (Z.to_nat m) (row_records q rows).
Proof.
  intros Hall.
  assert (E : scraped (scrape_arbitr_cases new_scraper w
                         (mkEnv true (SiteRows rows)) q m)
              = cases_data (scrape_rows q m 0 rows
                              (mkLoop [] (mkLocals None None)
                                      (logs_before q StFindRows)))).
  { unfold scrape_arbitr_cases, scraped. cbn [driver new_scraper].
    unfold _initialize_webdriver. cbn [chrome_starts start_session driver].
    unfold scrape_with_driver, response, is_live.
    cbn [live_sessions existsb]. rewrite Nat.eqb_refl. reflexivity. }
  rewrite E, scrape_rows_complete; [reflexivity | assumption | ].
  cbn [cases_data List.length]. lia.
Qed.

Lemma complete_page_witness :
  scraped (scrape_arbitr_cases new_scraper fresh_browser
             (mkEnv true (SiteRows [row_15; row_16; row_15])) inn10 2)
  = firstn (Z.to_nat 2) (row_records inn10 [row_15; row_16; row_15]).
Proof.
  apply (complete_page_scraped_in_order fresh_browser
           [row_15; row_16; row_15] inn10 2).
  reflexivity.
Defined.

(** *** Sessions *)



(** *** The table under [insert_case] and the readers *)

(** What [insert_case] does: it leaves the table alone and does not
    return True, or it returns True and the table has gone through
    the INSERT for the date the server read. *)
Lemma insert_case_effect (self : DBManager) (f : db_fault) (t : table)
      (cn : str) (cd : option str) (q : str) :
  (snd (insert_case self f t cn cd q) = t
   /\ fst (insert_case self f t cn cd q) <> Returns true)
  \/ (exists d, stored_date self cd = Some d
                /\ insert_case self f t cn cd q
                   = (Returns true,
                      insert_on_conflict_do_nothing t (mkDbRow cn d q))).
Proof.
  unfold insert_case, stored_date.
  destruct (execute f (params_error self (insert_params cn cd q)));
    try (left; split; [reflexivity | discriminate]).
  destruct cd as [s|].
  - destruct (db_date_in self s) as [d|];
      [ | left; split; [reflexivity | discriminate]].
    right. now exists (Some d).
  - right. now exists None.
Qed.

(** A record stored under a new case number is read back.  For rows
    as the server holds them, when the server answers, the driver can
    send the values, and the date argument is None or text the server
    reads as a date of [datetime.date], the call returns True, the
    table gains one row at its end, [get_all_cases_as_dicts] returns
    what it returned before and then the case number and the taxpayer
    ID that were inserted with the ISO text of the date the server
    read (None for None), and [case_exists] answers True. *)
Theorem inserted_case_read_back (self : DBManager) (t : table) (cn : str)
        (cd : option str) (q : str) (d : option date) :
  well_formed t = true ->
  has_case t cn = false ->
  params_error self (insert_params cn cd q) = None ->
  stored_date self cd = Some d ->
  match d with Some x => valid_date x | None => true end = true ->
  let t' := snd (insert_case self NoFault t cn cd q) in
  fst (insert_case self NoFault t cn cd q) = Returns true
  /\ t' = t ++ [mkDbRow cn d q]
  /\ get_all_cases_as_dicts NoFault t'
     = Returns (List.map row_to_dict t ++ [mkCase cn (option_map isoformat d) q])
  /\ case_exists self NoFault t' cn = Returns true.
Proof.
  intros _ Hnew Hp Hd _. cbv zeta.
  assert (Hs : storable self cn cd q = true).
  { unfold storable, date_accepted. rewrite Hp. unfold stored_date in Hd.
    destruct cd as [s|]; [ | reflexivity].
    destruct (db_date_in self s); [reflexivity | discriminate]. }
  destruct (insert_case_answered self t cn cd q Hs) as [d' [Hd' E]].
  rewrite E. cbn [fst snd]. assert (d' = d) by congruence. subst d'.
  unfold insert_on_conflict_do_nothing. cbn [r_case_number]. rewrite Hnew.
  split; [reflexivity | ]. split; [reflexivity | ]. split.
  - unfold get_all_cases_as_dicts, execute. now rewrite map_app.
  - unfold case_exists, execute.
    assert (Hcn : params_error self [cn] = None).
    { unfold insert_params in Hp. cbn [params_error] in *.
      destruct (adapt_error self cn); [discriminate | reflexivity]. }
    rewrite Hcn. f_equal. unfold has_case. rewrite existsb_app. cbn [existsb].
    cbn [r_case_number]. rewrite str_eqb_refl. now rewrite orb_true_r.
Qed.

Lemma inserted_case_witness :
  let t' := snd (insert_case sample_db NoFault jan_table (py "D5/2024")
                             (Some (py "2024-02-29")) inn10) in
  fst (insert_case sample_db NoFault jan_table (py "D5/2024")
                   (Some (py "2024-02-29")) inn10) = Returns true
  /\ t' = jan_table ++ [mkDbRow (py "D5/2024") (Some (mkDate 2024 2 29)) inn10]
  /\ get_all_cases_as_dicts NoFault t'
     = Returns (List.map row_to_dict jan_table
                  ++ [mkCase (py "D5/2024")
                             (option_map isoformat (Some (mkDate 2024 2 29))) inn10])
  /\ case_exists sample_db NoFault t' (py "D5/2024") = Returns true.
Proof.
  apply (inserted_case_read_back sample_db jan_table (py "D5/2024")
           (Some (py "2024-02-29")) inn10 (Some (mkDate 2024 2 29)));
    reflexivity.
Defined.

(** [insert_case] never changes or removes a row.  Whatever the server
    does and whatever the arguments are, the table afterwards is the
    table before, or the table before with one row for the given case
    number at its end; the second only when the call returns True and
    the case number was not there. *)
Theorem insert_case_only_appends (self : DBManager) (f : db_fault) (t : table)
        (cn : str) (cd : option str) (q : str) :
  snd (insert_case self f t cn cd q) = t
  \/ (fst (insert_case self f t cn cd q) = Returns true
      /\ has_case t cn = false
      /\ exists d, snd (insert_case self f t cn cd q) = t ++ [mkDbRow cn d q]).
Proof.
  destruct (insert_case_effect self f t cn cd q) as [[E _] | [d [_ E]]].
  - now left.
  - rewrite E. cbn [fst snd]. unfold insert_on_conflict_do_nothing.
    cbn [r_case_number].
    destruct (has_case t cn); [now left | right].
    repeat split. now exists d.
Qed.

(** [insert_case] keeps case numbers unique, whatever the server does
    and whatever the arguments are. *)
Theorem insert_case_keeps_unique (self : DBManager) (f : db_fault) (t : table)
        (cn : str) (cd : option str) (q : str) :
  unique_case_numbers t ->
  unique_case_numbers (snd (insert_case self f t cn cd q)).
Proof.
  intros Hu.
  destruct (insert_case_effect self f t cn cd q) as [[E _] | [d [_ E]]];
    rewrite E; cbn [snd]; [assumption | now apply insert_keeps_unique].
Qed.

Lemma insert_case_keeps_unique_witness :
  unique_case_numbers
    (snd (insert_case sample_db NoFault
            [mkDbRow (py "A1") None inn10; mkDbRow (py "B2") None inn10]
            (py "A1") (Some (py "2023-01-15")) inn10)).
Proof.
  apply (insert_case_keeps_unique sample_db NoFault
           [mkDbRow (py "A1") None inn10; mkDbRow (py "B2") None inn10]
           (py "A1") (Some (py "2023-01-15")) inn10).
  unfold unique_case_numbers. cbn [List.map r_case_number].
  constructor; [ | constructor; [intros [] | constructor]].
  intros [H | []]. vm_compute in H. discriminate.
Defined.


(** Without a filter [get_filtered_cases_as_dicts] returns what
    [get_all_cases_as_dicts] returns, in the same order; a filter
    argument that is None or the empty string is no filter. *)
Theorem no_filter_returns_all (self : DBManager) (f : db_fault) (t : table)
        (cnf innf sd ed : option str) :
  present cnf = None -> present innf = None ->
  present sd = None -> present ed = None ->
  get_filtered_cases_as_dicts self f t cnf innf sd ed
  = get_all_cases_as_dicts f t.
Proof.
  intros H1 H2 H3 H4. unfold get_filtered_cases_as_dicts, get_all_cases_as_dicts.
  unfold filter_params. rewrite H1, H2, H3, H4. cbn [option_map opt_list app params_error].
  destruct (execute f None); try reflexivity.
  unfold parse_bound. rewrite H3, H4. cbn [is_bad orb]. do 2 f_equal.
  rewrite <- (filter_ext (fun _ => true)).
  - induction t as [|r t IH]; [reflexivity | ]. cbn [filter]. now rewrite IH.
  - intros r. unfold where_clause, cond_ilike. now rewrite H1, H2.
Qed.

Lemma no_filter_witness :
  get_filtered_cases_as_dicts sample_db NoFault jan_table
                              (Some []) (Some []) (Some []) None
  = get_all_cases_as_dicts NoFault jan_table.
Proof.
  apply (no_filter_returns_all sample_db NoFault jan_table
           (Some []) (Some []) (Some []) None);
    reflexivity.
Defined.

(** Filtering only leaves records out: whatever the filters and
    whatever the server does, every record the call returns is the
    record of a row of the table, which [get_all_cases_as_dicts]
    returns when the server answers, and there are no more of them
    than rows. *)
Theorem filtered_among_all (self : DBManager) (f : db_fault) (t : table)
        (cnf innf sd ed : option str) :
  get_all_cases_as_dicts NoFault t = Returns (List.map row_to_dict t)
  /\ match get_filtered_cases_as_dicts self f t cnf innf sd ed with
     | Returns found =>
         incl found (List.map row_to_dict t)
         /\ List.length found <= List.length t
     | Raises _ => True
     end.
Proof.
  split; [reflexivity | ]. unfold get_filtered_cases_as_dicts.
  assert (Hnil : incl (@nil case) (List.map row_to_dict t)
                 /\ List.length (@nil case) <= List.length t)
    by (split; [intros x [] | cbn; lia]).
  destruct (execute f _); try exact Hnil; [exact I | ].
  destruct (is_bad (parse_bound self sd) || is_bad (parse_bound self ed));
    [exact Hnil | ].
  split.
  - intros c Hc. apply in_map_iff in Hc as [r [E Hr]].
    apply filter_In in Hr as [Hr _]. apply in_map_iff. now exists r.
  - rewrite length_map. apply filter_length_le.
Qed.

(** *** What a search does to the table *)

Lemma has_case_after_insert (self : DBManager) (f : db_fault) (t : table)
      (cn : str) (cd : option str) (q : str) (x : str) :
  has_case t x = true ->
  has_case (snd (insert_case self f t cn cd q)) x = true.
Proof.
  intros H.
  destruct (insert_case_effect self f t cn cd q) as [[E _] | [d [_ E]]];
    rewrite E; cbn [snd]; [assumption | ].
  unfold insert_on_conflict_do_nothing.
  destruct (has_case t (r_case_number (mkDbRow cn d q))); [assumption | ].
  unfold has_case in *. rewrite existsb_app, H. reflexivity.
Qed.

(** One call adds at most one row, at the end. *)
Lemma insert_case_only_appends_step (self : DBManager) (f : db_fault)
      (t : table) (cn : str) (cd : option str) (q : str) :
  exists tail, snd (insert_case self f t cn cd q) = t ++ tail
               /\ List.length tail <= 1.
Proof.
  destruct (insert_case_effect self f t cn cd q) as [[E _] | [d [_ E]]];
    rewrite E; cbn [snd].
  - exists []. rewrite app_nil_r. split; [reflexivity | cbn; lia].
  - unfold insert_on_conflict_do_nothing.
    destruct (has_case t (r_case_number (mkDbRow cn d q))).
    + exists []. rewrite app_nil_r. split; [reflexivity | cbn; lia].
    + exists [mkDbRow cn d q]. split; [reflexivity | cbn; lia].
Qed.

(** The insert loop only appends, at most one row per record, and keeps
    case numbers unique, also when an insert raises and ends it. *)
Lemma insert_all_appends (self : DBManager) (cases : list case) :
  forall (faults : list db_fault) (t : table) (n : nat),
    (exists tail,
        fst (fst (insert_all self faults t cases n)) = t ++ tail
        /\ List.length tail <= List.length cases)
    /\ (unique_case_numbers t ->
        unique_case_numbers (fst (fst (insert_all self faults t cases n))))
    /\ (forall x, has_case t x = true ->
                  has_case (fst (fst (insert_all self faults t cases n))) x = true).
Proof.
  induction cases as [|c cases IH]; intros faults t n; cbn [insert_all].
  - repeat split; [ | tauto | tauto]. exists []. rewrite app_nil_r.
    split; [reflexivity | cbn; lia].
  - pose proof (insert_case_only_appends_step self (hd NoFault faults) t
                  (case_number c) (case_date c) (inn c)) as Hstep.
    pose proof (insert_keeps_unique t) as Hkeep.
    pose proof (insert_case_effect self (hd NoFault faults) t
                  (case_number c) (case_date c) (inn c)) as Heff.
    pose proof (fun x => has_case_after_insert self (hd NoFault faults) t
                  (case_number c) (case_date c) (inn c) x) as Hmono.
    destruct (insert_case self (hd NoFault faults) t
                          (case_number c) (case_date c) (inn c))
      as [res t1] eqn:E1.
    cbn [fst snd] in Hstep, Hmono, Heff.
    assert (Hu1 : unique_case_numbers t -> unique_case_numbers t1).
    { intros Hut. destruct Heff as [[-> _] | [d [_ Ef]]]; [assumption | ].
      injection Ef as _ ->. now apply Hkeep. }
    destruct res as [ok|x].
    + destruct (IH (tl faults) t1 (if ok then S n else n)) as [[tail [Et Hl]] [Hu Hm]].
      destruct (insert_all self (tl faults) t1 cases (if ok then S n else n))
        as [[t2 k] evs].
      cbn [fst snd] in *. repeat split.
      * destruct Hstep as [tail1 [-> Hl1]]. exists (tail1 ++ tail).
        rewrite Et, <- app_assoc, length_app.
        split; [reflexivity | cbn [List.length]; lia].
      * intros Hut. now apply Hu, Hu1.
      * intros y Hy. apply Hm, Hmono, Hy.
    + cbn [fst snd]. repeat split.
      * destruct Hstep as [tail1 [-> Hl1]]. exists tail1.
        split; [reflexivity | cbn [List.length]; lia].
      * exact Hu1.
      * exact Hmono.
Qed.

(** The same of step 4 as a whole. *)
Lemma save_cases_appends (self : DBManager) (e : run_env) (t : table)
      (cases : list case) :
  (exists tail,
      fst (fst (save_cases self e t cases)) = t ++ tail
      /\ List.length tail <= List.length cases)
  /\ (unique_case_numbers t ->
      unique_case_numbers (fst (fst (save_cases self e t cases)))).
Proof.
  unfold save_cases.
  destruct (create_table (script_exists e) (create_fault e)) as [b|x].
  - destruct (insert_all_appends self cases (insert_faults e) t 0) as [H1 [H2 _]].
    destruct (insert_all self (insert_faults e) t cases 0) as [[t' n] ievs].
    cbn [fst snd] in *. now split.
  - cbn [fst snd]. split; [ | tauto]. exists []. rewrite app_nil_r.
    split; [reflexivity | cbn; lia].
Qed.

Lemma save_cases_nil (self : DBManager) (e : run_env) (t : table) :
  fst (fst (save_cases self e t [])) = t.
Proof.
  unfold save_cases.
  now destruct (create_table (script_exists e) (create_fault e)).
Qed.

(** The world after [start_scraping] on an accepted ID. *)
Lemma start_scraping_world (app : ApplicationLogic) (w : world)
      (e : run_env) (q : str) :
  inn_rejected q = false ->
  let call := scrape_arbitr_cases (w_scraper w) (w_browser w) (scrape_env e)
                                  q default_max_results in
  fst (start_scraping app w e q)
  = mkWorld (scraper_after call) (browser_after call) (w_db_manager w)
            (fst (fst (save_cases (w_db_manager w) e (w_db w) (scraped call)))).
Proof.
  intros Hv. cbv zeta.
  destruct (scraped (scrape_arbitr_cases (w_scraper w) (w_browser w) (scrape_env e)
                                         q default_max_results)) as [|c cs] eqn:Es.
  - rewrite (start_scraping_nothing_scraped app w e q Hv Es). cbn [fst].
    now rewrite save_cases_nil.
  - assert (Hne : scraped (scrape_arbitr_cases (w_scraper w) (w_browser w)
                             (scrape_env e) q default_max_results) <> [])
      by (rewrite Es; discriminate).
    rewrite (start_scraping_some_scraped app w e q Hv Hne). cbn [fst].
    now rewrite Es.
Qed.

(** A search never changes or removes a stored row.  Whatever the
    input, the site and the server do, the table after [start_scraping]
    is the table before with rows added at its end, at most one per
    record the scraper returned. *)
Theorem search_only_appends (app : ApplicationLogic) (w : world)
        (e : run_env) (q : str) :
  exists tail,
    w_db (fst (start_scraping app w e q)) = w_db w ++ tail
    /\ List.length tail
       <= List.length (scraped (scrape_arbitr_cases (w_scraper w) (w_browser w)
                                  (scrape_env e) q default_max_results)).
Proof.
  destruct (inn_rejected q) eqn:Hv.
  - exists []. unfold start_scraping. rewrite Hv. cbn [fst].
    rewrite app_nil_r. split; [reflexivity | cbn; lia].
  - rewrite (start_scraping_world app w e q Hv). cbn [w_db].
    apply save_cases_appends.
Qed.

(** A search keeps case numbers unique in the table. *)
Theorem search_keeps_unique (app : ApplicationLogic) (w : world)
        (e : run_env) (q : str) :
  unique_case_numbers (w_db w) ->
  unique_case_numbers (w_db (fst (start_scraping app w e q))).
Proof.
  intros Hu. destruct (inn_rejected q) eqn:Hv.
  - unfold start_scraping. now rewrite Hv.
  - rewrite (start_scraping_world app w e q Hv). cbn [w_db].
    now apply save_cases_appends.
Qed.

Lemma search_keeps_unique_witness :
  unique_case_numbers
    (w_db (fst (start_scraping wired
                  (mkWorld new_scraper fresh_browser sample_db
                           [mkDbRow (py "A12-34/2023") None inn10])
                  (calm (page [row_15; row_16])) inn10))).
Proof.
  apply (search_keeps_unique wired
           (mkWorld new_scraper fresh_browser sample_db
                    [mkDbRow (py "A12-34/2023") None inn10])
           (calm (page [row_15; row_16])) inn10).
  unfold unique_case_numbers. cbn [w_db List.map r_case_number].
  constructor; [intros [] | constructor].
Defined.







(** The same record twice on the page: three records scraped, "3
    inserted" reported, two rows stored. *)
Example duplicate_counts_as_inserted :
  let run := start_scraping wired new_world (calm (page [row_15; row_15; row_16])) inn10 in
  existsb (fun ev => match ev with GuiStatus (MsgInserted 3) => true | _ => false end)
          (snd run) = true
  /\ List.length (w_db (fst run)) = 2.
Proof. split; reflexivity. Qed.

(** A case number with U+0000 in it on the page: the record before it
    is stored, the driver raises ValueError at the insert of the
    record, [insert_case] lets it through, the lookup of
    [OperationalError] in [start_scraping] raises NameError, and the
    call ends there: no count of inserts and no final status are
    reported, and the record after it is not stored. *)
Example unsendable_case_number_ends_the_search :
  let run := start_scraping wired new_world (calm (page [row_15; row_nul; row_16])) inn10 in
  List.map r_case_number (w_db (fst run)) = [py "A12-34/2023"]
  /\ skipn (List.length (snd run) - 2) (snd run)
     = [DbInsert (mkCase [65%N; 0%N; 49%N] (Some (py "2023-03-15")) inn10)
                 (Raises ValueError);
        Uncaught NameError]
  /\ existsb (fun ev => match ev with
                        | GuiStatus (MsgInserted _) | GuiStatus MsgDone => true
                        | _ => false
                        end) (snd run) = false.
Proof. repeat split; reflexivity. Qed.

(** *** A second search with the same scraper *)




(** *** What the CSV export writes *)

(** Unless the server answers, [get_all_cases_as_dicts] returns the
    empty list or raises. *)
Lemma reader_not_answered (f : db_fault) (t : table) :
  f <> NoFault ->
  get_all_cases_as_dicts f t = Returns []
  \/ exists x, get_all_cases_as_dicts f t = Raises x.
Proof.
  intros Hf. unfold get_all_cases_as_dicts.
  destruct (execute f None) eqn:E; try (now left); [right; now eexists | ].
  apply execute_answered in E as [E _]. contradiction.
Qed.

Lemma written_file_after_reader (app : ApplicationLogic) (path content : str)
      (rest : list app_event) :
  written_file ((_update_status app (MsgExportingCsv path) INFO ++ [DbGetAll])
                  ++ [FileWrite path content] ++ rest)
  = Some content.
Proof.
  unfold written_file, _update_status.
  destruct (gui_status_updater app); reflexivity.
Qed.

Lemma no_file_written (app : ApplicationLogic) (path : str) (m : status_msg)
      (lvl : level) :
  written_file ((_update_status app (MsgExportingCsv path) INFO ++ [DbGetAll])
                  ++ _update_status app m lvl)
  = None.
Proof.
  unfold written_file, _update_status.
  destruct (gui_status_updater app); reflexivity.
Qed.

(** For rows as the server holds them,
    [export_data_to_csv] returns True exactly when the server answered,
    the table is not empty and the file was opened, written and closed.
    The file then holds the header and one record per stored row, in
    table order, and reads back as the case number, the date text and
    the taxpayer ID of each row, with the empty string where the date
    is null.  When the table is empty, the reader gives nothing or
    raises, or the file cannot be opened, the call returns False and
    leaves no file.  When the file was opened and a write fails, the
    call returns False as well, and the file stays as the failure left
    it: nothing removes it. *)
Theorem csv_export_flag_and_file (app : ApplicationLogic) (f : db_fault)
        (t : table) (io : file_io) (path : str) :
  well_formed t = true ->
  let out := export_data_to_csv app f t io path in
  (fst out = true <-> f = NoFault /\ t <> [] /\ io = FileOk)
  /\ match written_file (snd out) with
     | Some text =>
         f = NoFault /\ t <> []
         /\ ((io = FileOk
              /\ parse_csv text
                 = Some (List.map (fun r => (r_case_number r,
                                             match r_case_date r with
                                             | Some d => isoformat d
                                             | None => []
                                             end,
                                             r_inn r)) t))
             \/ (io = WriteFails text /\ fst out = false))
     | None => fst out = false /\ (f <> NoFault \/ t = [] \/ io = OpenFails)
     end.
Proof.
  intros _. cbv zeta. unfold export_data_to_csv.
  assert (Hno : forall m lvl,
             (false = true <-> f = NoFault /\ t <> [] /\ io = FileOk) ->
             (f <> NoFault \/ t = [] \/ io = OpenFails) ->
             (fst (false, (_update_status app (MsgExportingCsv path) INFO ++ [DbGetAll])
                            ++ _update_status app m lvl) = true
              <-> f = NoFault /\ t <> [] /\ io = FileOk)
             /\ match written_file
                        (snd (false,
                              (_update_status app (MsgExportingCsv path) INFO ++ [DbGetAll])
                                ++ _update_status app m lvl)) with
                | Some text =>
                    f = NoFault /\ t <> []
                    /\ ((io = FileOk
                         /\ parse_csv text
                            = Some (List.map (fun r => (r_case_number r,
                                                        match r_case_date r with
                                                        | Some d => isoformat d
                                                        | None => []
                                                        end,
                                                        r_inn r)) t))
                        \/ (io = WriteFails text
                            /\ fst (false,
                                    (_update_status app (MsgExportingCsv path) INFO
                                       ++ [DbGetAll])
                                      ++ _update_status app m lvl) = false))
                | None =>
                    fst (false,
                         (_update_status app (MsgExportingCsv path) INFO ++ [DbGetAll])
                           ++ _update_status app m lvl) = false
                    /\ (f <> NoFault \/ t = [] \/ io = OpenFails)
                end).
  { intros m lvl Hiff Hwhy. cbn [fst snd]. rewrite no_file_written.
    split; [exact Hiff | now split]. }
  assert (Hfalse : forall P : Prop, ~ P -> (false = true <-> P))
    by (intros P HP; split; [discriminate | intros H; now elim HP]).
  destruct f as [ |x|x].
  - (* the server answers *)
    change (get_all_cases_as_dicts NoFault t) with (Returns (List.map row_to_dict t)).
    destruct t as [|r t'].
    + cbn [List.map]. apply Hno; [ | now right; left].
      apply Hfalse. intros [_ [H _]]. now apply H.
    + assert (Hne : r :: t' <> []) by discriminate.
      assert (Hm : List.map row_to_dict (r :: t')
                   = row_to_dict r :: List.map row_to_dict t') by reflexivity.
      revert Hno Hne Hm. generalize (r :: t'). intros t Hno Hne Hm.
      rewrite Hm. destruct io as [ | |remains].
      * cbn [fst snd]. rewrite written_file_after_reader.
        split; [split; [intros _ | reflexivity]; now repeat split | ].
        split; [reflexivity | ]. split; [exact Hne | left].
        split; [reflexivity | ].
        rewrite <- Hm, parse_csv_csv_text, map_map. f_equal. apply map_ext.
        intros r0. unfold row_to_dict. cbn [case_number case_date inn].
        now destruct (r_case_date r0).
      * apply Hno; [ | now right; right].
        apply Hfalse. intros [_ [_ H]]. discriminate H.
      * cbn [fst snd]. rewrite written_file_after_reader.
        split; [apply Hfalse; intros [_ [_ H]]; discriminate H | ].
        split; [reflexivity | ]. split; [exact Hne | now right].
  - destruct (reader_not_answered (ConnectFail x) t) as [E | [y E]];
      [discriminate | | ]; rewrite E;
      (apply Hno; [ | left; discriminate]);
      apply Hfalse; intros [H _]; discriminate H.
  - destruct (reader_not_answered (QueryFail x) t) as [E | [y E]];
      [discriminate | | ]; rewrite E;
      (apply Hno; [ | left; discriminate]);
      apply Hfalse; intros [H _]; discriminate H.
Qed.

Lemma csv_export_witness :
  let out := export_data_to_csv wired NoFault dated_table FileOk (py "cases.csv") in
  (fst out = true <-> NoFault = NoFault /\ dated_table <> [] /\ FileOk = FileOk)
  /\ match written_file (snd out) with
     | Some text =>
         NoFault = NoFault /\ dated_table <> []
         /\ ((FileOk = FileOk
              /\ parse_csv text
                 = Some (List.map (fun r => (r_case_number r,
                                             match r_case_date r with
                                             | Some d => isoformat d
                                             | None => []
                                             end,
                                             r_inn r)) dated_table))
             \/ (FileOk = WriteFails text /\ fst out = false))
     | None =>
         fst out = false
         /\ (NoFault <> NoFault \/ dated_table = [] \/ FileOk = OpenFails)
     end.
Proof.
  apply (csv_export_flag_and_file wired NoFault dated_table FileOk (py "cases.csv")).
  reflexivity.
Defined.

(** A write that fails after the header: False is returned and the
    file holds the header alone. *)
Example csv_export_partial_file :
  let out := export_data_to_csv wired NoFault dated_table
               (WriteFails (py "case_number,case_date,inn" ++ [cr; lf]))
               (py "cases.csv") in
  fst out = false
  /\ written_file (snd out) = Some (py "case_number,case_date,inn" ++ [cr; lf])
  /\ In (AppLog ERROR MsgExportCsvError) (snd out).
Proof. cbv zeta. repeat split. vm_compute. tauto. Qed.

(** *** The results table of the window *)

Lemma add_cases_to_table (cases : list case) :
  forall w : MainWindow,
    fold_left add_case_to_table cases w
    = set_table (results_table w ++ List.map table_row cases) w.
Proof.
  induction cases as [|c cases IH]; intros w; cbn [fold_left List.map].
  - rewrite app_nil_r. now destruct w.
  - rewrite IH. unfold add_case_to_table, set_table. cbn.
    now rewrite <- app_assoc.
Qed.

Lemma update_results_table_eq (w : MainWindow) (cases : list case) :
  update_results_table w cases = set_table (List.map table_row cases) w.
Proof.
  unfold update_results_table. rewrite add_cases_to_table.
  unfold clear_results_table, set_table. reflexivity.
Qed.

(** The table after [update_results_table]; a helper for the slots. *)
Lemma update_results_table_table (w : MainWindow) (cases : list case) :
  results_table (update_results_table w cases) = List.map table_row cases
  /\ scrape_inn_input (update_results_table w cases) = scrape_inn_input w.
Proof.
  unfold update_results_table. rewrite add_cases_to_table.
  unfold clear_results_table, set_table. now split.
Qed.

(** [update_results_table] replaces what the table showed: afterwards
    it shows one row per case, in order, with a null date as the text
    None, and nothing of what it showed before; the inputs and the
    status display are untouched. *)
Theorem update_results_table_replaces (w : MainWindow) (cases : list case) :
  update_results_table w cases = set_table (List.map table_row cases) w
  /\ results_table (update_results_table w cases) = List.map table_row cases
  /\ status_display (update_results_table w cases) = status_display w.
Proof.
  rewrite update_results_table_eq. now repeat split.
Qed.

Lemma deliver_keeps_input (w : MainWindow) (ev : app_event) :
  scrape_inn_input (deliver w ev) = scrape_inn_input w.
Proof.
  destruct ev; try reflexivity. cbn [deliver].
  apply update_results_table_table.
Qed.

(** The table after the updaters have been called, by the last list of
    results among the calls. *)
Lemma table_after_deliver (evs : list app_event) :
  forall w : MainWindow,
    results_table (fold_left deliver evs w)
    = match last_results evs with
      | Some cases => List.map table_row cases
      | None => results_table w
      end
    /\ scrape_inn_input (fold_left deliver evs w) = scrape_inn_input w.
Proof.
  induction evs as [|ev evs IH]; intros w; cbn [fold_left last_results].
  - now split.
  - destruct (IH (deliver w ev)) as [Ht Hi].
    rewrite Ht, Hi, deliver_keeps_input. split; [ | reflexivity].
    destruct (last_results evs) as [cases|]; [reflexivity | ].
    destruct ev; try reflexivity. cbn [deliver].
    apply update_results_table_table.
Qed.

Lemma last_results_app (a b : list app_event) :
  last_results (a ++ b)
  = match last_results b with
    | Some cases => Some cases
    | None => last_results a
    end.
Proof.
  induction a as [|ev a IH]; cbn [app last_results].
  - now destruct (last_results b).
  - rewrite IH. now destruct (last_results b).
Qed.

Lemma insert_all_no_results (self : DBManager) (cases : list case) :
  forall (faults : list db_fault) (t : table) (n : nat),
    last_results (snd (insert_all self faults t cases n)) = None.
Proof.
  induction cases as [|c cases IH]; intros faults t n; cbn [insert_all].
  - reflexivity.
  - destruct (insert_case self (hd NoFault faults) t
                          (case_number c) (case_date c) (inn c)) as [res t1].
    destruct res as [ok|x]; [ | reflexivity].
    specialize (IH (tl faults) t1 (if ok then S n else n)).
    destruct (insert_all self (tl faults) t1 cases (if ok then S n else n))
      as [[t2 k] evs].
    cbn [snd last_results] in *. now rewrite IH.
Qed.

Lemma save_cases_no_results (self : DBManager) (e : run_env) (t : table)
      (cases : list case) :
  last_results (snd (save_cases self e t cases)) = None.
Proof.
  unfold save_cases.
  destruct (create_table (script_exists e) (create_fault e)) as [b|x];
    [ | reflexivity].
  pose proof (insert_all_no_results self cases (insert_faults e) t 0) as H.
  destruct (insert_all self (insert_faults e) t cases 0) as [[t' n] ievs].
  cbn [snd last_results] in *. now rewrite H.
Qed.

Lemma after_saving_no_results (app : ApplicationLogic) (n : outcome nat) :
  last_results (after_saving app n) = None.
Proof.
  unfold after_saving, _update_status.
  destruct n; destruct (gui_status_updater app); reflexivity.
Qed.

(** A click on the search button with an input the validation rejects
    runs no search and touches neither the scraper nor the database.
    When the input is empty the results table stays as it was; when it
    is not empty the table is cleared all the same, by the slot of the
    window that runs before the validation. *)
Theorem search_click_rejected (w : MainWindow) (wd : world) (e : run_env) :
  inn_rejected (scrape_inn_input w) = true ->
  let out := click_search w wd e in
  snd (fst out) = wd
  /\ existsb (fun ev => is_scrape ev || is_db ev) (snd out) = false
  /\ results_table (fst (fst out))
     = (if truthy (scrape_inn_input w) then [] else results_table w).
Proof.
  intros Hr. cbv zeta. unfold click_search, start_scraping. rewrite Hr.
  cbn [fst snd]. repeat split.
  unfold _on_search_clicked.
  destruct (truthy (scrape_inn_input w)); reflexivity.
Qed.

Lemma search_click_rejected_witness :
  let out := click_search sample_window new_world (calm (page [row_15])) in
  snd (fst out) = new_world
  /\ existsb (fun ev => is_scrape ev || is_db ev) (snd out) = false
  /\ results_table (fst (fst out))
     = (if truthy (scrape_inn_input sample_window) then []
        else results_table sample_window).
Proof.
  apply (search_click_rejected sample_window new_world (calm (page [row_15]))).
  reflexivity.
Defined.

(** A click on the search button with an accepted input leaves in the
    results table exactly the records the scraper returned, in their
    order, whatever the table showed before and whatever happens while
    they are saved. *)
Theorem search_click_shows_scraped (w : MainWindow) (wd : world) (e : run_env) :
  inn_rejected (scrape_inn_input w) = false ->
  let out := click_search w wd e in
  results_table (fst (fst out))
  = List.map table_row
      (scraped (scrape_arbitr_cases (w_scraper wd) (w_browser wd) (scrape_env e)
                                    (scrape_inn_input w) default_max_results))
  /\ snd (fst out) = fst (start_scraping logic wd e (scrape_inn_input w)).
Proof.
  intros Hv. cbv zeta. unfold click_search.
  destruct (start_scraping logic wd e (scrape_inn_input w)) as [wd' evs] eqn:Er.
  cbn [fst snd]. split; [ | reflexivity].
  destruct (table_after_deliver evs (_on_search_clicked w)) as [Ht _]. rewrite Ht.
  assert (Hl : last_results evs
               = Some (scraped (scrape_arbitr_cases (w_scraper wd) (w_browser wd)
                                  (scrape_env e) (scrape_inn_input w)
                                  default_max_results))).
  { replace evs with (snd (start_scraping logic wd e (scrape_inn_input w)))
      by now rewrite Er.
    destruct (scraped (scrape_arbitr_cases (w_scraper wd) (w_browser wd)
                         (scrape_env e) (scrape_inn_input w) default_max_results))
      as [|c cs] eqn:Es.
    - now rewrite (start_scraping_nothing_scraped logic wd e _ Hv Es).
    - assert (Hne : scraped (scrape_arbitr_cases (w_scraper wd) (w_browser wd)
                               (scrape_env e) (scrape_inn_input w)
                               default_max_results) <> [])
        by (rewrite Es; discriminate).
      rewrite (start_scraping_some_scraped logic wd e _ Hv Hne). cbn [snd].
      rewrite Es.
      rewrite !last_results_app, after_saving_no_results, save_cases_no_results.
      unfold logic, _update_status. cbn [gui_status_updater gui_results_updater].
      reflexivity. }
  now rewrite Hl.
Qed.

Lemma search_click_shows_witness :
  let w := mkWindow inn10 [] [] [] []
             [(py "old", py "2020-01-01", py "1111111111")] [] in
  let out := click_search w new_world (calm (page [row_15; row_16])) in
  results_table (fst (fst out))
  = List.map table_row
      (scraped (scrape_arbitr_cases (w_scraper new_world) (w_browser new_world)
                  (scrape_env (calm (page [row_15; row_16])))
                  (scrape_inn_input w) default_max_results))
  /\ snd (fst out)
     = fst (start_scraping logic new_world (calm (page [row_15; row_16]))
                           (scrape_inn_input w)).
Proof.
  apply (search_click_shows_scraped
           (mkWindow inn10 [] [] [] []
                     [(py "old", py "2020-01-01", py "1111111111")] [])
           new_world (calm (page [row_15; row_16]))).
  reflexivity.
Defined.

(** A click on the filter button, for rows as the server holds them.
    When the reader returns, the
    results table shows exactly the records it returned for the texts
    of the four inputs, and the count in the status display is the
    number of rows of the table; under a database fault that is an
    empty table and the count 0.  When the reader raises (a text the
    driver cannot send, a fault that is no database error), the status
    display gets the filter-error message and the results table stays
    as it was. *)
Theorem filter_click_shows_filtered (w : MainWindow) (self : DBManager)
        (f : db_fault) (t : table) :
  well_formed t = true ->
  let w' := fst (click_filter w self f t) in
  match get_filtered_cases_as_dicts self f t
          (Some (case_num_filter_input w)) (Some (inn_filter_input w))
          (Some (start_date_input w)) (Some (end_date_input w)) with
  | Returns found =>
      results_table w' = List.map table_row found
      /\ status_display w'
         = status_display w
             ++ [LineFilters (case_num_filter_input w) (inn_filter_input w)
                             (start_date_input w) (end_date_input w);
                 LineStatus MsgFiltering;
                 LineStatus (MsgFilterFound (List.length (results_table w')))]
  | Raises _ =>
      results_table w' = results_table w
      /\ status_display w'
         = status_display w
             ++ [LineFilters (case_num_filter_input w) (inn_filter_input w)
                             (start_date_input w) (end_date_input w);
                 LineStatus MsgFiltering;
                 LineStatus MsgFilterError]
  end.
Proof.
  intros _. cbv zeta. unfold click_filter, filter_cases.
  destruct (get_filtered_cases_as_dicts self f t
              (Some (case_num_filter_input w)) (Some (inn_filter_input w))
              (Some (start_date_input w)) (Some (end_date_input w)))
    as [found|x].
  - unfold logic, _update_status.
    cbn [gui_status_updater gui_results_updater app fst fold_left deliver].
    rewrite update_results_table_eq.
    unfold set_table, append_status, _on_filter_clicked, append_status.
    cbn [results_table status_display scrape_inn_input case_num_filter_input
         inn_filter_input start_date_input end_date_input].
    rewrite length_map, <- !app_assoc. now split.
  - unfold logic, _update_status.
    cbn [gui_status_updater gui_results_updater app fst fold_left deliver].
    unfold append_status, _on_filter_clicked, append_status.
    cbn [results_table status_display scrape_inn_input case_num_filter_input
         inn_filter_input start_date_input end_date_input].
    rewrite <- !app_assoc. now split.
Qed.

Lemma filter_click_witness :
  let w := mkWindow [] (py "a") [] (py "2023-01-01") []
             [(py "old", py "2020-01-01", py "1111111111")] [] in
  let w' := fst (click_filter w sample_db NoFault jan_table) in
  match get_filtered_cases_as_dicts sample_db NoFault jan_table
          (Some (case_num_filter_input w)) (Some (inn_filter_input w))
          (Some (start_date_input w)) (Some (end_date_input w)) with
  | Returns found =>
      results_table w' = List.map table_row found
      /\ status_display w'
         = status_display w
             ++ [LineFilters (case_num_filter_input w) (inn_filter_input w)
                             (start_date_input w) (end_date_input w);
                 LineStatus MsgFiltering;
                 LineStatus (MsgFilterFound (List.length (results_table w')))]
  | Raises _ =>
      results_table w' = results_table w
      /\ status_display w'
         = status_display w
             ++ [LineFilters (case_num_filter_input w) (inn_filter_input w)
                             (start_date_input w) (end_date_input w);
                 LineStatus MsgFiltering;
                 LineStatus MsgFilterError]
  end.
Proof.
  apply (filter_click_shows_filtered
           (mkWindow [] (py "a") [] (py "2023-01-01") []
                     [(py "old", py "2020-01-01", py "1111111111")] [])
           sample_db NoFault jan_table).
  reflexivity.
Defined.

(** The filter of the witness: the case numbers with an A or an a in
    them, dated 2023 or later. *)
Example filter_click_sample :
  results_table
    (fst (click_filter (mkWindow [] (py "a") [] (py "2023-01-01") []
                                 [(py "old", py "2020-01-01", py "1111111111")] [])
                       sample_db NoFault jan_table))
  = [(py "A12-34/2023", py "2023-01-15", py "1234567890");
     (py "A56-78/2023", py "2023-02-01", py "1234567890");
     (py "a99/2023", py "2023-01-31", py "1234567890")].
Proof. reflexivity. Qed.

(** The window of the samples, with U+0000 typed into the case-number
    filter: the stored rows are not shown, the table keeps its row. *)
Example filter_click_with_unsendable_text :
  let w := mkWindow (py "12345") [0%N] [] [] []
             [(py "A12-34/2023", py "2023-03-15", py "1234567890")] [] in
  results_table (fst (click_filter w sample_db NoFault jan_table))
  = [(py "A12-34/2023", py "2023-03-15", py "1234567890")]
  /\ status_display (fst (click_filter w sample_db NoFault jan_table))
     = [LineFilters [0%N] [] [] []; LineStatus MsgFiltering;
        LineStatus MsgFilterError].
Proof. split; reflexivity. Qed.

(** *** The logger *)

(** However often [setup_logging] is called, and with whatever console
    levels, the logger has the two handlers of the first call and no
    others: one for the file at DEBUG, one for the console at the level
    the first call was given.  The level arguments of later calls have
    no effect. *)
Theorem setup_logging_once (lvl : N) (levels : list N) :
  Logger.setup_many (lvl :: levels) Logger.new_logger
  = Logger.mkLogger (Some Logger.DEBUG)
      [Logger.FileHandler Logger.DEBUG; Logger.StreamHandler lvl].
Proof.
  unfold Logger.setup_many. cbn [fold_left].
  change (Logger.setup_logging lvl Logger.new_logger)
    with (Logger.mkLogger (Some Logger.DEBUG)
            [Logger.FileHandler Logger.DEBUG; Logger.StreamHandler lvl]).
  induction levels as [|l levels IH]; [reflexivity | ].
  cbn [fold_left]. exact IH.
Qed.

(** *** Text values in the JSON export *)

Lemma hex_value_digit (d : N) :
  (d < 16)%N -> hex_value (hex_digit d) = Some d.
Proof.
  intros H. unfold hex_digit, hex_value.
  destruct (N.ltb_spec d 10).
  - destruct (N.leb_spec 48 (48 + d)); [ | lia].
    destruct (N.leb_spec (48 + d) 57); [ | lia].
    cbn [andb]. f_equal. lia.
  - destruct (N.leb_spec 48 (87 + d)); [ | lia].
    destruct (N.leb_spec (87 + d) 57); [lia | ].
    destruct (N.leb_spec 97 (87 + d)); [ | lia].
    destruct (N.leb_spec (87 + d) 102); [ | lia].
    cbn [andb]. f_equal. lia.
Qed.

(** One escaped character, read back. *)
Lemma scanstring_escape_char (c : char) (rest : str) :
  scanstring (escape_char c ++ rest) = cons_char c (scanstring rest).
Proof.
  unfold escape_char.
  destruct (N.eqb_spec c dquote) as [->|H1]; [reflexivity | ].
  destruct (N.eqb_spec c backslash) as [->|H2]; [reflexivity | ].
  destruct (N.eqb_spec c 10) as [->|H3]; [reflexivity | ].
  destruct (N.eqb_spec c 13) as [->|H4]; [reflexivity | ].
  destruct (N.eqb_spec c 9) as [->|H5]; [reflexivity | ].
  destruct (N.eqb_spec c 8) as [->|H6]; [reflexivity | ].
  destruct (N.eqb_spec c 12) as [->|H7]; [reflexivity | ].
  destruct (N.ltb_spec c 32) as [Hlt|Hge].
  - (* \u00XX *)
    cbn [app scanstring].
    replace (backslash =? dquote)%N with false by reflexivity.
    replace (backslash =? backslash)%N with true by reflexivity.
    replace (letter_u =? letter_u)%N with true by reflexivity.
    unfold decode_uXXXX.
    change (hex_value 48%N) with (Some 0%N).
    pose proof (N.div_mod' c 16) as Hdm.
    pose proof (N.mod_lt c 16 ltac:(discriminate)) as Hm.
    assert (Hq : (c / 16 < 16)%N) by (apply N.Div0.div_lt_upper_bound; lia).
    rewrite !hex_value_digit by assumption.
    replace (4096 * 0 + 256 * 0 + 16 * (c / 16) + c mod 16)%N with c by lia.
    assert (Hs : is_high_surrogate c = false).
    { unfold is_high_surrogate. destruct (N.leb_spec 55296 c); [lia | reflexivity]. }
    rewrite Hs. cbn [andb].
    destruct rest as [|b [|u [|l1 [|l2 [|l3 [|l4 [|x rest4]]]]]]]; reflexivity.
  - cbn [app scanstring].
    destruct (N.eqb_spec c dquote); [contradiction | ].
    destruct (N.eqb_spec c backslash); [contradiction | ].
    destruct (N.ltb_spec c 32); [lia | reflexivity].
Qed.

(** A string literal is read back as its text, and the scanner stops
    right after the closing quote. *)
Lemma scanstring_json_escape (s rest : str) :
  scanstring (json_escape s ++ dquote :: rest) = Some (s, rest).
Proof.
  unfold json_escape.
  induction s as [|c s IH]; cbn [List.map List.concat app].
  - reflexivity.
  - rewrite <- app_assoc, scanstring_escape_char, IH. reflexivity.
Qed.

Lemma strip_prefix_app (p s : str) : strip_prefix p (p ++ s) = Some s.
Proof.
  induction p as [|c p IH]; cbn [app strip_prefix]; [reflexivity | ].
  now rewrite N.eqb_refl.
Qed.

Lemma read_value_json_value (v : option str) (rest : str) :
  read_value (json_value v ++ rest) = Some (v, rest).
Proof.
  destruct v as [s|]; unfold read_value, json_value.
  - unfold encode_basestring. cbn [app]. rewrite <- app_assoc. cbn [app].
    replace (dquote =? dquote)%N with true by reflexivity.
    now rewrite scanstring_json_escape.
  - change (py "null") with [110%N; 117%N; 108%N; 108%N]. reflexivity.
Qed.

Lemma read_member_value (key : str) (v : option str) (rest : str) :
  read_member key (newline_indent 2 ++ encode_basestring key ++ py ": "
                     ++ json_value v ++ rest)
  = Some (v, rest).
Proof.
  unfold read_member.
  replace (newline_indent 2 ++ encode_basestring key ++ py ": "
             ++ json_value v ++ rest)
    with ((newline_indent 2 ++ encode_basestring key ++ py ": ")
            ++ (json_value v ++ rest))
    by (now rewrite <- !app_assoc).
  rewrite strip_prefix_app. apply read_value_json_value.
Qed.

(** One object, read back. *)
Lemma read_object_json_object (c : case) (rest : str) :
  read_object (json_object c ++ rest) = Some (c, rest).
Proof.
  unfold read_object, json_object. rewrite <- !app_assoc.
  rewrite strip_prefix_app, read_member_value.
  rewrite strip_prefix_app, read_member_value.
  rewrite strip_prefix_app, read_member_value.
  replace (newline_indent 1 ++ py "}" ++ rest)
    with ((newline_indent 1 ++ py "}") ++ rest) by (now rewrite <- app_assoc).
  rewrite strip_prefix_app. now destruct c.
Qed.

(** The objects of a list that is not empty, read back. *)
Lemma read_items_json_items (c : case) (cases : list case) :
  forall fuel,
    List.length (c :: cases) <= fuel ->
    read_items fuel (json_items (c :: cases) ++ newline_indent 0 ++ py "]")
    = Some (c :: cases).
Proof.
  revert c. induction cases as [|c' cases IH]; intros c fuel Hf;
    (destruct fuel as [|k]; [cbn [List.length] in Hf; lia | ]).
  - cbn [json_items read_items]. rewrite read_object_json_object. reflexivity.
  - cbn [read_items].
    change (json_items (c :: c' :: cases))
      with (json_object c ++ py "," ++ newline_indent 1 ++ json_items (c' :: cases)).
    rewrite <- app_assoc, read_object_json_object.
    replace ((py "," ++ newline_indent 1 ++ json_items (c' :: cases))
               ++ newline_indent 0 ++ py "]")
      with ((py "," ++ newline_indent 1)
              ++ (json_items (c' :: cases) ++ newline_indent 0 ++ py "]"))
      by (now rewrite <- !app_assoc).
    rewrite strip_prefix_app, IH; [reflexivity | ].
    cbn [List.length] in *. lia.
Qed.

Lemma json_items_length (cases : list case) :
  List.length cases <= List.length (json_items cases).
Proof.
  induction cases as [|c cases IH]; [cbn; lia | ].
  assert (Ho : 1 <= List.length (json_object c))
    by (unfold json_object; rewrite length_app; cbn; lia).
  destruct cases as [|c' cases]; [exact Ho | ].
  change (json_items (c :: c' :: cases))
    with (json_object c ++ py "," ++ newline_indent 1 ++ json_items (c' :: cases)).
  rewrite !length_app. cbn [List.length] in *. lia.
Qed.

(** The text of [json.dump], read back: the records, in their order,
    a null date as None. *)
Lemma read_json_text_json_text (cases : list case) :
  read_json_text (json_text cases) = Some cases.
Proof.
  destruct cases as [|c cases]; [reflexivity | ].
  unfold read_json_text, json_text.
  replace (py "[" ++ newline_indent 1 ++ json_items (c :: cases)
             ++ newline_indent 0 ++ py "]")
    with ((py "[" ++ newline_indent 1)
            ++ (json_items (c :: cases) ++ newline_indent 0 ++ py "]"))
    by (now rewrite <- !app_assoc).
  rewrite strip_prefix_app. apply read_items_json_items.
  rewrite !length_app. pose proof (json_items_length (c :: cases)). lia.
Qed.

(** The text of [json.dump] determines the records. *)
Lemma json_text_injective (a b : list case) :
  json_text a = json_text b -> a = b.
Proof.
  intros H. pose proof (read_json_text_json_text a) as Ha.
  rewrite H, read_json_text_json_text in Ha. now injection Ha.
Qed.

(** Nothing is lost in the JSON export.  For rows as the server holds
    them, when [export_data_to_json] returns True, the server answered, the table is not empty and the
    file was opened, written and closed; the file holds the text that
    [json.dump] gives for the stored records, and that text determines
    them: no other list of records is written as the same text, so
    every case number, date and taxpayer ID can be told from the file,
    whatever characters they hold, and a null date is told from an
    empty one. *)
Theorem json_export_loses_nothing (f : db_fault) (t : table) (io : file_io)
        (path : str) :
  well_formed t = true ->
  let out := export_data_to_json f t io path in
  fst (fst out) = true ->
  f = NoFault /\ t <> [] /\ io = FileOk
  /\ snd (fst out) = Some (json_text (List.map row_to_dict t))
  /\ read_json_text (json_text (List.map row_to_dict t))
     = Some (List.map row_to_dict t)
  /\ forall cases,
       json_text cases = json_text (List.map row_to_dict t) ->
       cases = List.map row_to_dict t.
Proof.
  intros _. cbv zeta. unfold export_data_to_json.
  destruct f as [ |x|x].
  - change (get_all_cases_as_dicts NoFault t) with (Returns (List.map row_to_dict t)).
    destruct t as [|r t']; [discriminate | ].
    assert (Hm : List.map row_to_dict (r :: t')
                 = row_to_dict r :: List.map row_to_dict t') by reflexivity.
    assert (Hne : r :: t' <> []) by discriminate.
    revert Hm Hne. generalize (r :: t'). intros t Hm Hne. rewrite Hm.
    destruct io; try discriminate. intros _. cbn [fst snd]. rewrite <- Hm.
    split; [reflexivity | ]. split; [exact Hne | ]. split; [reflexivity | ].
    split; [reflexivity | ]. split; [apply read_json_text_json_text | ].
    intros cases H. now apply json_text_injective.
  - destruct (reader_not_answered (ConnectFail x) t) as [E | [y E]];
      [discriminate | | ]; rewrite E; discriminate.
  - destruct (reader_not_answered (QueryFail x) t) as [E | [y E]];
      [discriminate | | ]; rewrite E; discriminate.
Qed.

Lemma json_export_witness :
  NoFault = NoFault /\ dated_table <> [] /\ FileOk = FileOk
  /\ snd (fst (export_data_to_json NoFault dated_table FileOk (py "cases.json")))
     = Some (json_text (List.map row_to_dict dated_table))
  /\ read_json_text (json_text (List.map row_to_dict dated_table))
     = Some (List.map row_to_dict dated_table)
  /\ forall cases,
       json_text cases = json_text (List.map row_to_dict dated_table) ->
       cases = List.map row_to_dict dated_table.
Proof.
  apply (json_export_loses_nothing NoFault dated_table FileOk (py "cases.json"));
    reflexivity.
Defined.

(** With nothing stored the JSON export writes no file and returns
    False. *)
Example json_export_of_empty_table :
  fst (fst (export_data_to_json NoFault [] FileOk (py "cases.json"))) = false
  /\ snd (fst (export_data_to_json NoFault [] FileOk (py "cases.json"))) = None.
Proof. split; reflexivity. Qed.

(** A null date and an empty date text: the CSV file is the same for
    both, the JSON file is not. *)
Example null_date_in_csv_and_in_json :
  csv_text [mkCase (py "A1") None inn10] = csv_text [mkCase (py "A1") (Some []) inn10]
  /\ json_text [mkCase (py "A1") None inn10]
     <> json_text [mkCase (py "A1") (Some []) inn10].
Proof.
  split; [reflexivity | ].
  intros H. apply json_text_injective in H. discriminate H.
Qed.
